(** * go-metis: the Go side of the METIS bindings

    A shallow embedding of the Go code of the package: the CSR [Graph]
    type and its helpers, the text-format reader [ReadGraphFile], and the
    cgo wrappers around the METIS entry points.  The METIS library itself
    is C code reached through cgo; a wrapper is modelled as a computation
    that may return, panic, or call into C and continue with whatever the
    library replies. *)

From Stdlib Require Import ZArith List String Ascii Bool Lia.
From stdpp Require Import base list.

Import ListNotations.
Local Open Scope string_scope.
Local Open Scope list_scope.
Local Open Scope Z_scope.

(** ** Go integers *)

Module GoInt.

(** Conversion to [int32]: the low 32 bits, read as two's complement. *)
Definition int32 (z : Z) : Z := (z + 2 ^ 31) mod 2 ^ 32 - 2 ^ 31.

(** Conversion to [int] (64 bits on the supported platforms). *)
Definition int64 (z : Z) : Z := (z + 2 ^ 63) mod 2 ^ 64 - 2 ^ 63.

Definition is_int32 (z : Z) : Prop := - 2 ^ 31 <= z < 2 ^ 31.
Definition is_int64 (z : Z) : Prop := - 2 ^ 63 <= z < 2 ^ 63.

Definition max_int64 : Z := 2 ^ 63 - 1.
Definition min_int64 : Z := - 2 ^ 63.

End GoInt.
Import GoInt.

(** ** Go slices

    A slice value is either [nil] or a (possibly empty) sequence; the two
    are told apart by [s != nil], so they are kept apart here. *)

Definition slice (A : Type) : Type := option (list A).

Definition len {A} (s : slice A) : Z :=
  match s with
  | None => 0
  | Some l => Z.of_nat (length l)
  end.

(** A 32-bit float, as its bit pattern: the wrappers only pass these on. *)
Inductive float32 : Type := Float32frombits (bits : Z).

(** ** Errors

    [errors.New] and [fmt.Errorf] values keep their text and arguments;
    [NumError] is the error of package strconv. *)

Inductive error : Type :=
| errors_New (text : string)
| fmt_Errorf (format : string) (args : list fmt_arg)
| NumError (Func Num Err : string)
with fmt_arg : Type :=
| ArgInt (z : Z)
| ArgString (s : string)
| ArgError (e : error).

(** ** The constants of metis.h

    The header is not part of the package; its constants are taken as
    given.  [metis_5_1_0] holds the values of the 5.1.0 release. *)

Class MetisHeader : Type := {
  METIS_NOPTIONS : Z;
  METIS_OK : Z;
  METIS_ERROR_INPUT : Z;
  METIS_ERROR_MEMORY : Z;
  METIS_ERROR : Z
}.

Definition metis_5_1_0 : MetisHeader := {|
  METIS_NOPTIONS := 40;
  METIS_OK := 1;
  METIS_ERROR_INPUT := -2;
  METIS_ERROR_MEMORY := -3;
  METIS_ERROR := -4
|}.

(** ** Calls into the METIS library

    One constructor per C entry point, with the arguments in the order of
    the C prototype.  A pointer argument is the array it points to; an
    optional pointer is [None] for NULL.  Output buffers are not listed:
    what the library stores in them comes back in the reply. *)

Inductive metis_call : Type :=
| C_METIS_PartGraphRecursive
    (nvtxs ncon : Z) (xadj adjncy : list Z) (vwgt vsize adjwgt : slice Z)
    (nparts : Z) (tpwgts ubvec : slice float32) (options : slice Z)
| C_METIS_PartGraphKway
    (nvtxs ncon : Z) (xadj adjncy : list Z) (vwgt vsize adjwgt : slice Z)
    (nparts : Z) (tpwgts ubvec : slice float32) (options : slice Z)
| C_METIS_MeshToDual (ne nn : Z) (eptr eind : list Z) (ncommon numflag : Z)
| C_METIS_MeshToNodal (ne nn : Z) (eptr eind : list Z) (numflag : Z)
| C_METIS_PartMeshNodal
    (ne nn : Z) (eptr eind : list Z) (vwgt vsize : slice Z)
    (nparts : Z) (tpwgts : slice float32) (options : slice Z)
| C_METIS_PartMeshDual
    (ne nn : Z) (eptr eind : list Z) (vwgt vsize : slice Z)
    (ncommon nparts : Z) (tpwgts : slice float32) (options : slice Z)
| C_METIS_NodeND
    (nvtxs : Z) (xadj adjncy : list Z) (vwgt : slice Z) (options : slice Z)
| C_METIS_ComputeVertexSeparator
    (nvtxs : Z) (xadj adjncy : list Z) (vwgt : slice Z) (options : slice Z).

(** What a call leaves behind: the status code, the scalar stored through
    the [objval]/[sepsize] pointer, and the contents of up to two output
    arrays, by index. *)
Record metis_reply : Type := {
  ret : Z;
  scalar_out : Z;
  array_out1 : nat -> Z;
  array_out2 : nat -> Z
}.

(** ** Go computations: return, panic, or call into C *)

Inductive go (A : Type) : Type :=
| Done (a : A)
| Panic
| Call (c : metis_call) (k : metis_reply -> go A).
Arguments Done {A} a.
Arguments Panic {A}.
Arguments Call {A} c k.

Fixpoint go_bind {A B} (f : A -> go B) (m : go A) : go B :=
  match m with
  | Done a => f a
  | Panic => Panic
  | Call c k => Call c (fun r => go_bind f (k r))
  end.

#[export] Instance go_ret : MRet go := @Done.
#[export] Instance go_mbind : MBind go := @go_bind.

(** The outcome of a computation once the library's behaviour is fixed. *)
Inductive outcome (A : Type) : Type :=
| Returns (a : A)
| Panics.
Arguments Returns {A} a.
Arguments Panics {A}.

Fixpoint run {A} (metis : metis_call -> metis_reply) (m : go A) : outcome A :=
  match m with
  | Done a => Returns a
  | Panic => Panics
  | Call c k => run metis (k (metis c))
  end.

(** The C calls a computation makes, in order. *)
Fixpoint trace {A} (metis : metis_call -> metis_reply) (m : go A) : list metis_call :=
  match m with
  | Done _ | Panic => []
  | Call c k => c :: trace metis (k (metis c))
  end.

(** [s[i]]: an index out of range panics. *)
Definition index {A} (s : slice A) (i : Z) : go A :=
  match s with
  | None => Panic
  | Some l =>
      if (0 <=? i) && (i <? Z.of_nat (length l)) then
        match l !! Z.to_nat i with
        | Some x => Done x
        | None => Panic
        end
      else Panic
  end.

(** [s[i] = x] *)
Definition store {A} (l : list A) (i : Z) (x : A) : go (list A) :=
  if (0 <=? i) && (i <? Z.of_nat (length l)) then Done (<[Z.to_nat i := x]> l)
  else Panic.

(** [make([]int32, n)]: a negative length panics.  Memory is not bounded
    in this model. *)
Definition make (n : Z) : go (list Z) :=
  if n <? 0 then Panic else Done (replicate (Z.to_nat n) 0).

(** [&s[0]], the pointer handed to C: the backing array of a non-empty
    slice. *)
Definition addr0 {A} (s : slice A) : go (list A) :=
  match s with
  | Some (x :: l) => Done (x :: l)
  | _ => Panic
  end.

(** ** The graph type *)

Record Graph : Type := {
  Xadj : slice Z;
  Adjncy : slice Z;
  Vwgt : slice Z;
  Adjwgt : slice Z
}.

(** A [*Graph] result is [Some g], or [None] for the nil pointer. *)
Definition NewGraph (xadj adjncy : slice Z) : option Graph :=
  Some {| Xadj := xadj; Adjncy := adjncy; Vwgt := None; Adjwgt := None |}.

Definition NumVertices (g : Graph) : Z := len (Xadj g) - 1.

Definition NumEdges (g : Graph) : Z := Z.quot (len (Adjncy g)) 2.

Definition Degree (g : Graph) (v : Z) : go Z :=
  a ← index (Xadj g) (int64 (v + 1));
  b ← index (Xadj g) v;
  Done (int32 (a - b)).

(** The CSR invariants of the data model, on the index array. *)
Definition xadj_nondecreasing (xadj : list Z) : Prop :=
  forall i a b, xadj !! i = Some a -> xadj !! S i = Some b -> a <= b.

Definition xadj_wellformed (xadj adjncy : list Z) : Prop :=
  xadj_nondecreasing xadj /\
  xadj !! O = Some 0 /\
  last xadj = Some (Z.of_nat (length adjncy)).

(** ** The cgo wrappers *)

Section Wrappers.

Context `{MetisHeader}.

Definition OK : Z := METIS_OK.
Definition ErrorInput : Z := METIS_ERROR_INPUT.
Definition ErrorMemory : Z := METIS_ERROR_MEMORY.
Definition Error : Z := METIS_ERROR.
Definition NoOptions : Z := METIS_NOPTIONS.

(** [getError]: the cases of the switch are tried in order. *)
Definition getError (status : Z) : error :=
  if status =? ErrorInput then
    errors_New "METIS error: erroneous inputs and/or options"
  else if status =? ErrorMemory then
    errors_New "METIS error: insufficient memory"
  else if status =? Error then
    errors_New "METIS error: general error"
  else
    fmt_Errorf "METIS error: unknown error code %d" [ArgInt status].

(** [if s != nil { p = &s[0] }] *)
Definition optional_ptr {A} (s : slice A) : go (slice A) :=
  match s with
  | None => Done None
  | Some _ => p ← addr0 s; Done (Some p)
  end.

(** [if options != nil && len(options) == NoOptions { opts = &options[0] }] *)
Definition options_ptr (options : slice Z) : go (slice Z) :=
  match options with
  | None => Done None
  | Some _ =>
      if len options =? NoOptions then p ← addr0 options; Done (Some p)
      else Done None
  end.

(** [if vwgt != nil && len(vwgt) == int(nvtxs) { p = &vwgt[0] }] *)
Definition sized_ptr (vwgt : slice Z) (nvtxs : Z) : go (slice Z) :=
  match vwgt with
  | None => Done None
  | Some _ =>
      if len vwgt =? nvtxs then p ← addr0 vwgt; Done (Some p)
      else Done None
  end.

(** The buffer [buf] after C has stored its [idx_t] results in it. *)
Definition written (out : nat -> Z) (buf : list Z) : list Z :=
  imap (fun i _ => int32 (out i)) buf.

(** Copying [n] entries of a C array into a fresh slice. *)
Definition copy_c_array (p : nat -> Z) (n : Z) : go (list Z) :=
  buf ← make n; Done (written p buf).

Definition part_result : Type := slice Z * Z * option error.

Definition PartGraphRecursive (xadj adjncy : slice Z) (nparts : Z)
    (options : slice Z) : go part_result :=
  let nvtxs := int32 (len xadj - 1) in
  let ncon := 1 in
  part ← make nvtxs;
  opts ← options_ptr options;
  pxadj ← addr0 xadj;
  padjncy ← addr0 adjncy;
  _ ← addr0 (Some part);
  Call (C_METIS_PartGraphRecursive nvtxs ncon pxadj padjncy None None None
          nparts None None opts)
    (fun r =>
       if negb (ret r =? OK) then Done (None, 0, Some (getError (ret r)))
       else Done (Some (written (array_out1 r) part), int32 (scalar_out r), None)).

Definition PartGraphKway (xadj adjncy : slice Z) (nparts : Z)
    (options : slice Z) : go part_result :=
  let nvtxs := int32 (len xadj - 1) in
  let ncon := 1 in
  part ← make nvtxs;
  opts ← options_ptr options;
  pxadj ← addr0 xadj;
  padjncy ← addr0 adjncy;
  _ ← addr0 (Some part);
  Call (C_METIS_PartGraphKway nvtxs ncon pxadj padjncy None None None
          nparts None None opts)
    (fun r =>
       if negb (ret r =? OK) then Done (None, 0, Some (getError (ret r)))
       else Done (Some (written (array_out1 r) part), int32 (scalar_out r), None)).

Definition PartGraphRecursiveWeighted (xadj adjncy vwgt adjwgt : slice Z)
    (nparts : Z) (tpwgts ubvec : slice float32) (options : slice Z)
    : go part_result :=
  let nvtxs := int32 (len xadj - 1) in
  let ncon := 1 in
  if match vwgt with Some _ => negb (len vwgt =? nvtxs) | None => false end then
    Done (None, 0, Some (errors_New "vwgt length must equal number of vertices"))
  else if match adjwgt with Some _ => negb (len adjwgt =? len adjncy) | None => false end then
    Done (None, 0, Some (errors_New "adjwgt length must equal adjncy length"))
  else
    part ← make nvtxs;
    vwgtPtr ← optional_ptr vwgt;
    adjwgtPtr ← optional_ptr adjwgt;
    tpwgtsPtr ← optional_ptr tpwgts;
    ubvecPtr ← optional_ptr ubvec;
    opts ← options_ptr options;
    pxadj ← addr0 xadj;
    padjncy ← addr0 adjncy;
    _ ← addr0 (Some part);
    Call (C_METIS_PartGraphRecursive nvtxs ncon pxadj padjncy vwgtPtr None
            adjwgtPtr nparts tpwgtsPtr ubvecPtr opts)
      (fun r =>
         if negb (ret r =? OK) then Done (None, 0, Some (getError (ret r)))
         else Done (Some (written (array_out1 r) part), int32 (scalar_out r), None)).

Definition PartGraphKwayWeighted (xadj adjncy vwgt adjwgt : slice Z)
    (nparts : Z) (tpwgts ubvec : slice float32) (options : slice Z)
    : go part_result :=
  let nvtxs := int32 (len xadj - 1) in
  let ncon := 1 in
  if match vwgt with Some _ => negb (len vwgt =? nvtxs) | None => false end then
    Done (None, 0, Some (errors_New "vwgt length must equal number of vertices"))
  else if match adjwgt with Some _ => negb (len adjwgt =? len adjncy) | None => false end then
    Done (None, 0, Some (errors_New "adjwgt length must equal adjncy length"))
  else
    part ← make nvtxs;
    vwgtPtr ← optional_ptr vwgt;
    adjwgtPtr ← optional_ptr adjwgt;
    tpwgtsPtr ← optional_ptr tpwgts;
    ubvecPtr ← optional_ptr ubvec;
    opts ← options_ptr options;
    pxadj ← addr0 xadj;
    padjncy ← addr0 adjncy;
    _ ← addr0 (Some part);
    Call (C_METIS_PartGraphKway nvtxs ncon pxadj padjncy vwgtPtr None
            adjwgtPtr nparts tpwgtsPtr ubvecPtr opts)
      (fun r =>
         if negb (ret r =? OK) then Done (None, 0, Some (getError (ret r)))
         else Done (Some (written (array_out1 r) part), int32 (scalar_out r), None)).

Definition graph_result : Type := slice Z * slice Z * option error.

Definition MeshToDual (ne nn : Z) (eptr eind : slice Z) (ncommon : Z)
    : go graph_result :=
  let numflag := 0 in
  peptr ← addr0 eptr;
  peind ← addr0 eind;
  Call (C_METIS_MeshToDual ne nn peptr peind ncommon numflag)
    (fun r =>
       if negb (ret r =? OK) then Done (None, None, Some (getError (ret r)))
       else
         xadjSlice ← copy_c_array (array_out1 r) (int32 (ne + 1));
         adjSize ← index (Some xadjSlice) ne;
         adjncySlice ← copy_c_array (array_out2 r) adjSize;
         Done (Some xadjSlice, Some adjncySlice, None)).

Definition MeshToNodal (ne nn : Z) (eptr eind : slice Z) : go graph_result :=
  let numflag := 0 in
  peptr ← addr0 eptr;
  peind ← addr0 eind;
  Call (C_METIS_MeshToNodal ne nn peptr peind numflag)
    (fun r =>
       if negb (ret r =? OK) then Done (None, None, Some (getError (ret r)))
       else
         xadjSlice ← copy_c_array (array_out1 r) (int32 (nn + 1));
         adjSize ← index (Some xadjSlice) nn;
         adjncySlice ← copy_c_array (array_out2 r) adjSize;
         Done (Some xadjSlice, Some adjncySlice, None)).

Definition mesh_result : Type := Z * slice Z * slice Z * option error.

Definition PartMeshNodal (ne nn : Z) (eptr eind vwgt vsize : slice Z)
    (nparts : Z) (tpwgts : slice float32) (options : slice Z)
    : go mesh_result :=
  epart ← make ne;
  npart ← make nn;
  vwgtPtr ← optional_ptr vwgt;
  vsizePtr ← optional_ptr vsize;
  tpwgtsPtr ← optional_ptr tpwgts;
  opts ← options_ptr options;
  peptr ← addr0 eptr;
  peind ← addr0 eind;
  _ ← addr0 (Some epart);
  _ ← addr0 (Some npart);
  Call (C_METIS_PartMeshNodal ne nn peptr peind vwgtPtr vsizePtr nparts
          tpwgtsPtr opts)
    (fun r =>
       if negb (ret r =? OK) then Done (0, None, None, Some (getError (ret r)))
       else Done (int32 (scalar_out r), Some (written (array_out1 r) epart),
                  Some (written (array_out2 r) npart), None)).

Definition PartMeshDual (ne nn : Z) (eptr eind vwgt vsize : slice Z)
    (ncommon nparts : Z) (tpwgts : slice float32) (options : slice Z)
    : go mesh_result :=
  epart ← make ne;
  npart ← make nn;
  vwgtPtr ← optional_ptr vwgt;
  vsizePtr ← optional_ptr vsize;
  tpwgtsPtr ← optional_ptr tpwgts;
  opts ← options_ptr options;
  peptr ← addr0 eptr;
  peind ← addr0 eind;
  _ ← addr0 (Some epart);
  _ ← addr0 (Some npart);
  Call (C_METIS_PartMeshDual ne nn peptr peind vwgtPtr vsizePtr ncommon
          nparts tpwgtsPtr opts)
    (fun r =>
       if negb (ret r =? OK) then Done (0, None, None, Some (getError (ret r)))
       else Done (int32 (scalar_out r), Some (written (array_out1 r) epart),
                  Some (written (array_out2 r) npart), None)).

Definition NodeND (xadj adjncy vwgt options : slice Z) : go graph_result :=
  let nvtxs := int32 (len xadj - 1) in
  perm ← make nvtxs;
  iperm ← make nvtxs;
  vwgtPtr ← sized_ptr vwgt nvtxs;
  opts ← options_ptr options;
  pxadj ← addr0 xadj;
  padjncy ← addr0 adjncy;
  _ ← addr0 (Some perm);
  _ ← addr0 (Some iperm);
  Call (C_METIS_NodeND nvtxs pxadj padjncy vwgtPtr opts)
    (fun r =>
       if negb (ret r =? OK) then Done (None, None, Some (getError (ret r)))
       else Done (Some (written (array_out1 r) perm),
                  Some (written (array_out2 r) iperm), None)).

Definition separator_result : Type := Z * slice Z * option error.

Definition ComputeVertexSeparator (xadj adjncy vwgt options : slice Z)
    : go separator_result :=
  let nvtxs := int32 (len xadj - 1) in
  part ← make nvtxs;
  vwgtPtr ← sized_ptr vwgt nvtxs;
  opts ← options_ptr options;
  pxadj ← addr0 xadj;
  padjncy ← addr0 adjncy;
  _ ← addr0 (Some part);
  Call (C_METIS_ComputeVertexSeparator nvtxs pxadj padjncy vwgtPtr opts)
    (fun r =>
       if negb (ret r =? OK) then Done (0, None, Some (getError (ret r)))
       else Done (int32 (scalar_out r), Some (written (array_out1 r) part), None)).

End Wrappers.

(** ** Reading a graph file *)

(** [bufio.Scanner] over some reader: [Scan] advances and reports whether
    a line was read, [Text] is the line last read, [Err] the first error
    met that is not end of input. *)
Class Scanner (R : Type) : Type := {
  Scan : R -> bool * R;
  Text : R -> string;
  Err : R -> option error
}.

Section ReadGraph.

Context {R : Type} `{Scanner R}.

(** [strings.Fields] and [strconv.Atoi] of the Go library.  [Atoi]
    returns a value also when it fails. *)
Variable Fields : string -> list string.
Variable Atoi : string -> Z * option error.

(** The inner loop [for j := fieldIdx; j < len(fields); j++], with
    [rest] the fields from index [j] on. *)
Fixpoint read_adjacency (i : Z) (hasEdgeWeights : bool) (fieldIdx j : Z)
    (rest : list string) (adjncy adjwgt : list Z)
    : (list Z * list Z) + error :=
  match rest with
  | [] => inl (adjncy, adjwgt)
  | f :: rest' =>
      if hasEdgeWeights && (Z.rem (j - fieldIdx) 2 =? 1) then
        let '(w, err) := Atoi f in
        match err with
        | Some e =>
            inr (fmt_Errorf "invalid edge weight at vertex %d: %v"
                   [ArgInt i; ArgError e])
        | None =>
            read_adjacency i hasEdgeWeights fieldIdx (j + 1) rest'
              adjncy (adjwgt ++ [int32 w])
        end
      else
        let '(v, err) := Atoi f in
        match err with
        | Some e =>
            inr (fmt_Errorf "invalid vertex id at vertex %d: %v"
                   [ArgInt i; ArgError e])
        | None =>
            read_adjacency i hasEdgeWeights fieldIdx (j + 1) rest'
              (adjncy ++ [int32 (int64 (v - 1))]) adjwgt
        end
  end.

(** The variables the vertex loop updates. *)
Record reader_state : Type := {
  scanner : R;
  xadj : list Z;
  adjncy : list Z;
  vwgt : list Z;
  adjwgt : list Z
}.

(** The loop [for i := 0; i < nvtxs; i++], with [n] iterations left. *)
Fixpoint read_vertices (n : nat) (i : Z) (hasVertexWeights hasEdgeWeights : bool)
    (st : reader_state) : go (reader_state + error) :=
  match n with
  | O => Done (inl st)
  | S n' =>
      let '(more, sc) := Scan (scanner st) in
      if negb more then
        Done (inr (fmt_Errorf "unexpected EOF at vertex %d" [ArgInt i]))
      else
        let fields := Fields (Text sc) in
        if Z.of_nat (length fields) =? 0 then
          read_vertices n' (i + 1) hasVertexWeights hasEdgeWeights
            {| scanner := sc; xadj := xadj st; adjncy := adjncy st;
               vwgt := vwgt st; adjwgt := adjwgt st |}
        else
          let fieldIdx := 0 in
          weighed ←
            (if hasVertexWeights then
               f ← index (Some fields) fieldIdx;
               let '(w, err) := Atoi f in
               match err with
               | Some e =>
                   Done (inr (fmt_Errorf "invalid vertex weight at vertex %d: %v"
                                [ArgInt i; ArgError e]))
               | None => Done (inl (vwgt st ++ [int32 w], fieldIdx + 1))
               end
             else Done (inl (vwgt st, fieldIdx)));
          match weighed with
          | inr e => Done (inr e)
          | inl (vwgt', fieldIdx) =>
              match read_adjacency i hasEdgeWeights fieldIdx fieldIdx
                      (drop (Z.to_nat fieldIdx) fields) (adjncy st) (adjwgt st) with
              | inr e => Done (inr e)
              | inl (adjncy', adjwgt') =>
                  xadj' ← store (xadj st) (i + 1) (int32 (Z.of_nat (length adjncy')));
                  read_vertices n' (i + 1) hasVertexWeights hasEdgeWeights
                    {| scanner := sc; xadj := xadj'; adjncy := adjncy';
                       vwgt := vwgt'; adjwgt := adjwgt' |}
              end
          end
  end.

Definition ReadGraphFile (r : R) : go (option Graph * option error) :=
  let '(more, sc) := Scan r in
  if negb more then Done (None, Some (fmt_Errorf "empty file" [])) else
  let header := Fields (Text sc) in
  if Z.of_nat (length header) <? 2 then
    Done (None, Some (fmt_Errorf "invalid header: %s" [ArgString (Text sc)]))
  else
    h0 ← index (Some header) 0;
    let '(nvtxs, err) := Atoi h0 in
    match err with
    | Some e =>
        Done (None, Some (fmt_Errorf "invalid number of vertices: %v" [ArgError e]))
    | None =>
        '(hasVertexWeights, hasEdgeWeights) ←
          (if 3 <=? Z.of_nat (length header) then
             h2 ← index (Some header) 2;
             let fmt := fst (Atoi h2) in
             Done (Z.rem (Z.quot fmt 10) 10 =? 1, Z.rem fmt 10 =? 1)
           else Done (false, false));
        xadj0 ← make (int64 (nvtxs + 1));
        xadj0 ← store xadj0 0 0;
        loop ← read_vertices (Z.to_nat nvtxs) 0 hasVertexWeights hasEdgeWeights
                 {| scanner := sc; xadj := xadj0; adjncy := [];
                    vwgt := []; adjwgt := [] |};
        match loop with
        | inr e => Done (None, Some e)
        | inl st =>
            match Err (scanner st) with
            | Some e =>
                Done (None, Some (fmt_Errorf "error reading file: %v" [ArgError e]))
            | None =>
                Done (Some {| Xadj := Some (xadj st);
                              Adjncy := Some (adjncy st);
                              Vwgt := if hasVertexWeights : bool then Some (vwgt st) else None;
                              Adjwgt := if hasEdgeWeights : bool then Some (adjwgt st) else None |},
                      None)
            end
        end
    end.

(** The scanner after [k] more lines have been read, if there are that
    many. *)
Fixpoint scans (k : nat) (sc : R) : option R :=
  match k with
  | O => Some sc
  | S k' =>
      let '(more, sc') := Scan sc in
      if more then scans k' sc' else None
  end.

(** The line of vertex [i]: the header is line 0 of the file. *)
Definition vertex_line (r : R) (i : nat) : option string :=
  Text <$> scans (2 + i) r.

End ReadGraph.

(** ** The Go library on ASCII text

    Executable models of [strings.Fields], [strconv.Atoi] and a
    [bufio.Scanner] reading lines from a string held in memory.  They
    follow the library on ASCII input with lines below the scanner's
    buffer size; the general results on [ReadGraphFile] hold for any
    behaviour of the three. *)

Module GoLib.

Definition code (c : ascii) : Z := Z.of_N (N_of_ascii c).

(** The ASCII white space of package strings: tab, line feed, vertical
    tab, form feed, carriage return, space. *)
Definition isSpace (c : ascii) : bool :=
  let n := code c in ((9 <=? n) && (n <=? 13)) || (n =? 32).

(** [cur] is the field being read, last character first. *)
Fixpoint fields_from (cs cur : list ascii) : list string :=
  match cs with
  | [] =>
      match cur with
      | [] => []
      | _ => [string_of_list_ascii (rev cur)]
      end
  | c :: cs' =>
      if isSpace c then
        match cur with
        | [] => fields_from cs' []
        | _ => string_of_list_ascii (rev cur) :: fields_from cs' []
        end
      else fields_from cs' (c :: cur)
  end.

Definition Fields (s : string) : list string :=
  fields_from (list_ascii_of_string s) [].

Definition digit (c : ascii) : option Z :=
  let n := code c in
  if (48 <=? n) && (n <=? 57) then Some (n - 48) else None.

Fixpoint digits (cs : list ascii) (acc : Z) : option Z :=
  match cs with
  | [] => Some acc
  | c :: cs' =>
      match digit c with
      | Some d => digits cs' (10 * acc + d)
      | None => None
      end
  end.

Definition Atoi (s : string) : Z * option error :=
  let cs := list_ascii_of_string s in
  let syntax := (0, Some (NumError "Atoi" s "invalid syntax")) in
  let '(neg, body) :=
    match cs with
    | "+"%char :: t => (false, t)
    | "-"%char :: t => (true, t)
    | _ => (false, cs)
    end in
  match body with
  | [] => syntax
  | _ =>
      match digits body 0 with
      | None => syntax
      | Some n =>
          let v := if neg : bool then - n else n in
          if max_int64 <? v then
            (max_int64, Some (NumError "Atoi" s "value out of range"))
          else if v <? min_int64 then
            (min_int64, Some (NumError "Atoi" s "value out of range"))
          else (v, None)
      end
  end.

Definition nl : string := String "010" EmptyString.

Definition dropCR (line : list ascii) : list ascii :=
  match rev line with
  | "013"%char :: before => rev before
  | _ => line
  end.

(** [bufio.ScanLines]: lines end at a line feed, a carriage return
    before it is dropped, and a last line without line feed counts when
    it is not empty. *)
Fixpoint lines_from (cs cur : list ascii) : list string :=
  match cs with
  | [] =>
      match cur with
      | [] => []
      | _ => [string_of_list_ascii (dropCR (rev cur))]
      end
  | c :: cs' =>
      if code c =? 10 then
        string_of_list_ascii (dropCR (rev cur)) :: lines_from cs' []
      else lines_from cs' (c :: cur)
  end.

Record LineScanner : Type := {
  pending : list string;
  token : string
}.

Definition NewScanner (input : string) : LineScanner :=
  {| pending := lines_from (list_ascii_of_string input) []; token := "" |}.

#[global] Instance line_scanner : Scanner LineScanner := {|
  Scan sc :=
    match pending sc with
    | [] => (false, {| pending := []; token := "" |})
    | line :: rest => (true, {| pending := rest; token := line |})
    end;
  Text := token;
  Err _ := None
|}.

(** Reading a graph from a string held in memory. *)
Definition ReadGraphString (input : string) : go (option Graph * option error) :=
  ReadGraphFile Fields Atoi (NewScanner input).

End GoLib.

(** ** The public operations, seen from a caller

    Each operation returns some slices, possibly a scalar, and an error;
    [returned] lists them so that all operations can be treated alike. *)

Record returned : Type := {
  slices : list (slice Z);
  scalars : list Z;
  err : option error
}.

Definition of_part_result (r : slice Z * Z * option error) : returned :=
  let '(part, objval, e) := r in
  {| slices := [part]; scalars := [objval]; err := e |}.

Definition of_graph_result (r : slice Z * slice Z * option error) : returned :=
  let '(a, b, e) := r in
  {| slices := [a; b]; scalars := []; err := e |}.

Definition of_mesh_result (r : Z * slice Z * slice Z * option error) : returned :=
  let '(objval, epart, npart, e) := r in
  {| slices := [epart; npart]; scalars := [objval]; err := e |}.

Definition of_separator_result (r : Z * slice Z * option error) : returned :=
  let '(sepsize, part, e) := r in
  {| slices := [part]; scalars := [sepsize]; err := e |}.

Inductive public_call : Type :=
| Op_PartGraphRecursive (xadj adjncy : slice Z) (nparts : Z) (options : slice Z)
| Op_PartGraphKway (xadj adjncy : slice Z) (nparts : Z) (options : slice Z)
| Op_PartGraphRecursiveWeighted (xadj adjncy vwgt adjwgt : slice Z) (nparts : Z)
    (tpwgts ubvec : slice float32) (options : slice Z)
| Op_PartGraphKwayWeighted (xadj adjncy vwgt adjwgt : slice Z) (nparts : Z)
    (tpwgts ubvec : slice float32) (options : slice Z)
| Op_PartMeshDual (ne nn : Z) (eptr eind vwgt vsize : slice Z) (ncommon nparts : Z)
    (tpwgts : slice float32) (options : slice Z)
| Op_PartMeshNodal (ne nn : Z) (eptr eind vwgt vsize : slice Z) (nparts : Z)
    (tpwgts : slice float32) (options : slice Z)
| Op_NodeND (xadj adjncy vwgt options : slice Z)
| Op_ComputeVertexSeparator (xadj adjncy vwgt options : slice Z)
| Op_MeshToDual (ne nn : Z) (eptr eind : slice Z) (ncommon : Z)
| Op_MeshToNodal (ne nn : Z) (eptr eind : slice Z).

Definition invoke `{MetisHeader} (c : public_call) : go returned :=
  match c with
  | Op_PartGraphRecursive xadj adjncy nparts options =>
      r ← PartGraphRecursive xadj adjncy nparts options; Done (of_part_result r)
  | Op_PartGraphKway xadj adjncy nparts options =>
      r ← PartGraphKway xadj adjncy nparts options; Done (of_part_result r)
  | Op_PartGraphRecursiveWeighted xadj adjncy vwgt adjwgt nparts tpwgts ubvec options =>
      r ← PartGraphRecursiveWeighted xadj adjncy vwgt adjwgt nparts tpwgts ubvec options;
      Done (of_part_result r)
  | Op_PartGraphKwayWeighted xadj adjncy vwgt adjwgt nparts tpwgts ubvec options =>
      r ← PartGraphKwayWeighted xadj adjncy vwgt adjwgt nparts tpwgts ubvec options;
      Done (of_part_result r)
  | Op_PartMeshDual ne nn eptr eind vwgt vsize ncommon nparts tpwgts options =>
      r ← PartMeshDual ne nn eptr eind vwgt vsize ncommon nparts tpwgts options;
      Done (of_mesh_result r)
  | Op_PartMeshNodal ne nn eptr eind vwgt vsize nparts tpwgts options =>
      r ← PartMeshNodal ne nn eptr eind vwgt vsize nparts tpwgts options;
      Done (of_mesh_result r)
  | Op_NodeND xadj adjncy vwgt options =>
      r ← NodeND xadj adjncy vwgt options; Done (of_graph_result r)
  | Op_ComputeVertexSeparator xadj adjncy vwgt options =>
      r ← ComputeVertexSeparator xadj adjncy vwgt options; Done (of_separator_result r)
  | Op_MeshToDual ne nn eptr eind ncommon =>
      r ← MeshToDual ne nn eptr eind ncommon; Done (of_graph_result r)
  | Op_MeshToNodal ne nn eptr eind =>
      r ← MeshToNodal ne nn eptr eind; Done (of_graph_result r)
  end.

(** The inputs on which an operation does not panic: the arrays whose
    first element is handed to C are not empty, optional arrays are nil or
    not empty, and there is at least one vertex (element, node) for the
    output buffers. *)
Definition nonempty {A} (s : slice A) : Prop := 0 < len s.

Definition nil_or_nonempty {A} (s : slice A) : Prop := s = None \/ 0 < len s.

Definition addressable (c : public_call) : Prop :=
  match c with
  | Op_PartGraphRecursive xadj adjncy _ options
  | Op_PartGraphKway xadj adjncy _ options =>
      0 < int32 (len xadj - 1) /\ nonempty adjncy /\ nil_or_nonempty options
  | Op_PartGraphRecursiveWeighted xadj adjncy vwgt adjwgt _ tpwgts ubvec options
  | Op_PartGraphKwayWeighted xadj adjncy vwgt adjwgt _ tpwgts ubvec options =>
      0 < int32 (len xadj - 1) /\ nonempty adjncy /\ nil_or_nonempty options /\
      nil_or_nonempty vwgt /\ nil_or_nonempty adjwgt /\
      nil_or_nonempty tpwgts /\ nil_or_nonempty ubvec
  | Op_PartMeshDual ne nn eptr eind vwgt vsize _ _ tpwgts options
  | Op_PartMeshNodal ne nn eptr eind vwgt vsize _ tpwgts options =>
      0 < ne /\ 0 < nn /\ nonempty eptr /\ nonempty eind /\
      nil_or_nonempty vwgt /\ nil_or_nonempty vsize /\
      nil_or_nonempty tpwgts /\ nil_or_nonempty options
  | Op_NodeND xadj adjncy _ options
  | Op_ComputeVertexSeparator xadj adjncy _ options =>
      0 < int32 (len xadj - 1) /\ nonempty adjncy /\ nil_or_nonempty options
  | Op_MeshToDual ne _ eptr eind _ =>
      0 <= ne < 2 ^ 31 - 1 /\ nonempty eptr /\ nonempty eind
  | Op_MeshToNodal _ nn eptr eind =>
      0 <= nn < 2 ^ 31 - 1 /\ nonempty eptr /\ nonempty eind
  end.

(** The index array that the library allocates has no negative entry, so
    that its last entry can be the size of a slice. *)
Definition nonnegative_sizes (metis : metis_call -> metis_reply) : Prop :=
  forall c i, 0 <= int32 (array_out1 (metis c) i).

(** Success with every slice present, or an error with nothing else. *)
Definition all_or_nothing (r : returned) : Prop :=
  match err r with
  | None => Forall (fun s => s <> None) (slices r)
  | Some _ => Forall (fun s => s = None) (slices r) /\ Forall (fun z => z = 0) (scalars r)
  end.

(** The weight arrays of a weighted call do not fit the graph.  The
    number of vertices is the wrapper's [nvtxs]. *)
Definition mismatched_weights (xadj adjncy vwgt adjwgt : slice Z) : Prop :=
  (vwgt <> None /\ len vwgt <> int32 (len xadj - 1)) \/
  (adjwgt <> None /\ len adjwgt <> len adjncy).

Definition vwgt_length_error : error :=
  errors_New "vwgt length must equal number of vertices".

Definition adjwgt_length_error : error :=
  errors_New "adjwgt length must equal adjncy length".

(** The array of neighbours (of nodes, for a mesh) is empty, nil or not,
    and the weights of a weighted call pass its length checks. *)
Definition empty_adjacency (c : public_call) : Prop :=
  match c with
  | Op_PartGraphRecursive _ adjncy _ _
  | Op_PartGraphKway _ adjncy _ _
  | Op_NodeND _ adjncy _ _
  | Op_ComputeVertexSeparator _ adjncy _ _ => len adjncy = 0
  | Op_PartGraphRecursiveWeighted xadj adjncy vwgt adjwgt _ _ _ _
  | Op_PartGraphKwayWeighted xadj adjncy vwgt adjwgt _ _ _ _ =>
      len adjncy = 0 /\ ~ mismatched_weights xadj adjncy vwgt adjwgt
  | Op_PartMeshDual _ _ _ eind _ _ _ _ _ _
  | Op_PartMeshNodal _ _ _ eind _ _ _ _ _
  | Op_MeshToDual _ _ _ eind _
  | Op_MeshToNodal _ _ _ eind => len eind = 0
  end.

(** A library that cuts the one edge of a two-vertex graph. *)
Definition alternate (i : nat) : Z := if Nat.even i then 0 else 1.

Definition metis_ok : metis_call -> metis_reply := fun _ =>
  {| ret := 1; scalar_out := 1; array_out1 := alternate; array_out2 := alternate |}.

(** A library that rejects every input. *)
Definition metis_rejects : metis_call -> metis_reply := fun _ =>
  {| ret := -2; scalar_out := 7; array_out1 := alternate; array_out2 := alternate |}.

(** A file of two vertices whose second vertex line is empty. *)
Definition blank_line_file : string :=
  "2 1" ++ GoLib.nl ++ "2" ++ GoLib.nl ++ GoLib.nl.

(** ** Balance statistics *)

(** The loop [for i := 0; i < nvtxs; i++] of [CalculatePartitionBalance],
    with [rest] the entries of [part] from index [i] on. *)
Fixpoint add_weights (i : Z) (rest : list Z) (vwgt : slice Z)
    (partWeights : list Z) : go (list Z) :=
  match rest with
  | [] => Done partWeights
  | p :: rest' =>
      weight ←
        match vwgt with
        | Some _ => if i <? len vwgt then index vwgt i else Done 1
        | None => Done 1
        end;
      w ← index (Some partWeights) p;
      partWeights' ← store partWeights p (int64 (w + weight));
      add_weights (i + 1) rest' vwgt partWeights'
  end.

(** [CalculatePartitionBalance], up to its last step: the result is
    [(minWeight, maxWeight, totalWeight)] in [int64]; the Go function
    returns the first two converted to [float64] and, as the average,
    [float64(totalWeight) / float64(nparts)]. *)
Definition CalculatePartitionBalance (part vwgt : slice Z) (nparts : Z)
    : go (Z * Z * Z) :=
  partWeights ← make nparts;
  partWeights ← add_weights 0 (default [] part) vwgt partWeights;
  first ← index (Some partWeights) 0;
  Done (fold_left
          (fun '(minWeight, maxWeight, totalWeight) w =>
             (if w <? minWeight then w else minWeight,
              if maxWeight <? w then w else maxWeight,
              int64 (totalWeight + w)))
          partWeights (first, first, 0)).

(** The square graph of the package's own tests, which they expect to be
    split into 2 and into 3 parts without error. *)
Definition square_xadj : slice Z := Some [0; 2; 4; 6; 8].
Definition square_adjncy : slice Z := Some [1; 2; 0; 3; 0; 3; 1; 2].

(** * Further operations *)

(** ** Neighbour lists *)

(** [s[low:high]]: the bounds are checked against the capacity of [s],
    not its length.  [spare] is what the backing array of [s] holds after
    the last element of [s]; a nil slice has no backing array. *)
Definition reslice (s : slice Z) (spare : list Z) (low high : Z) : go (slice Z) :=
  match s with
  | None =>
      if (0 <=? low) && (low <=? high) && (high <=? 0) then Done None else Panic
  | Some l =>
      let backing := l ++ spare in
      if (0 <=? low) && (low <=? high) && (high <=? Z.of_nat (length backing)) then
        Done (Some (take (Z.to_nat (high - low)) (drop (Z.to_nat low) backing)))
      else Panic
  end.

(** [Neighbors]; [spare] is the unused capacity of [g.Adjncy]. *)
Definition Neighbors (g : Graph) (spare : list Z) (v : Z) : go (slice Z) :=
  start ← index (Xadj g) v;
  stop ← index (Xadj g) (int64 (v + 1));
  reslice (Adjncy g) spare start stop.

(** ** Mesh to graph *)

Definition ConvertMeshToGraph `{MetisHeader} (ne nn : Z) (eptr eind : slice Z)
    (dual : bool) (ncommon : Z) : go (option Graph * option error) :=
  '(xadj, adjncy, err) ←
    (if dual then MeshToDual ne nn eptr eind ncommon
     else MeshToNodal ne nn eptr eind);
  match err with
  | Some e => Done (None, Some e)
  | None =>
      Done (Some {| Xadj := xadj; Adjncy := adjncy; Vwgt := None; Adjwgt := None |},
            None)
  end.

(** ** Edge cut *)

(** The loop [for j := g.Xadj[i]; j < g.Xadj[i+1]; j++] of
    [CalculateEdgeCut], with [n] iterations left.  [j] stays below
    [g.Xadj[i+1]], so [j++] does not overflow. *)
Fixpoint cut_edges (n : nat) (g : Graph) (part : slice Z) (i j edgeCut : Z) : go Z :=
  match n with
  | O => Done edgeCut
  | S n' =>
      neighbor ← index (Adjncy g) j;
      mine ← index part i;
      theirs ← index part neighbor;
      edgeCut' ←
        (if negb (mine =? theirs) then
           match Adjwgt g with
           | Some _ => w ← index (Adjwgt g) j; Done (int32 (edgeCut + w))
           | None => Done (int32 (edgeCut + 1))
           end
         else Done edgeCut);
      cut_edges n' g part i (j + 1) edgeCut'
  end.

(** The loop [for i := 0; i < nvtxs; i++], with [n] iterations left. *)
Fixpoint cut_vertices (n : nat) (g : Graph) (part : slice Z) (i edgeCut : Z) : go Z :=
  match n with
  | O => Done edgeCut
  | S n' =>
      first ← index (Xadj g) i;
      stop ← index (Xadj g) (i + 1);
      edgeCut' ← cut_edges (Z.to_nat (stop - first)) g part i first edgeCut;
      cut_vertices n' g part (i + 1) edgeCut'
  end.

Definition CalculateEdgeCut (g : Graph) (part : slice Z) : go Z :=
  edgeCut ← cut_vertices (Z.to_nat (NumVertices g)) g part 0 0;
  Done (Z.quot edgeCut 2).

(** ** The checks of the test suite *)

(** The loop of [verifyND], with [n] iterations left. *)
Fixpoint verifyND_from (n : nat) (i : Z) (perm iperm : slice Z) : go Z :=
  match n with
  | O => Done 0
  | S n' =>
      a ← index iperm i;
      b ← index perm a;
      if negb (int32 i =? b) then Done 1 else
      c ← index perm i;
      d ← index iperm c;
      if negb (int32 i =? d) then Done 2 else
      verifyND_from n' (i + 1) perm iperm
  end.

Definition verifyND (nvtxs : Z) (perm iperm : slice Z) : go Z :=
  verifyND_from (Z.to_nat nvtxs) 0 perm iperm.


(** The number of entries that each result slice of a partitioning or
    ordering operation has on success: one per vertex, element or node. *)
Definition result_lengths (c : public_call) : option (list Z) :=
  match c with
  | Op_PartGraphRecursive xadj _ _ _
  | Op_PartGraphKway xadj _ _ _
  | Op_PartGraphRecursiveWeighted xadj _ _ _ _ _ _ _
  | Op_PartGraphKwayWeighted xadj _ _ _ _ _ _ _
  | Op_ComputeVertexSeparator xadj _ _ _ => Some [int32 (len xadj - 1)]
  | Op_NodeND xadj _ _ _ => Some [int32 (len xadj - 1); int32 (len xadj - 1)]
  | Op_PartMeshDual ne nn _ _ _ _ _ _ _ _
  | Op_PartMeshNodal ne nn _ _ _ _ _ _ _ => Some [ne; nn]
  | Op_MeshToDual _ _ _ _ _
  | Op_MeshToNodal _ _ _ _ => None
  end.


(** What a successful conversion of a mesh with [n] elements (dual) or
    nodes (nodal) returns: an index array of [n + 1] entries whose last
    entry is the length of the adjacency array. *)
Definition csr_of_size (n : Z) (xadj adjncy : slice Z) : Prop :=
  exists xs adj,
    xadj = Some xs /\ adjncy = Some adj /\
    0 <= n /\ len xadj = n + 1 /\
    last xs = Some (len adjncy).

(** A library that answers with the dual graph of two elements that share
    a face: [xadj = [0; 1; 2]], [adjncy = [1; 0]]. *)
Definition metis_two_elements : metis_call -> metis_reply := fun _ =>
  {| ret := 1; scalar_out := 0;
     array_out1 := fun i => Z.of_nat i;
     array_out2 := fun i => match i with O => 1 | _ => 0 end |}.


(** The neighbours of vertex [v] as the CSR arrays give them: the entries
    of [adjncy] from [xadj[v]] up to [xadj[v+1]]. *)
Definition segment (xs adj : list Z) (v : nat) : list Z :=
  match xs !! v, xs !! S v with
  | Some a, Some b => take (Z.to_nat (b - a)) (drop (Z.to_nat a) adj)
  | _, _ => []
  end.


(** A partition vector covers a graph when it has an entry for every
    vertex and for every entry of the adjacency array. *)
Definition covers (part adj : list Z) (nvtxs : Z) : Prop :=
  nvtxs <= Z.of_nat (length part) /\
  Forall (fun u => 0 <= u < Z.of_nat (length part)) adj.


(** The sum of a list of weights. *)
Definition total (l : list Z) : Z := foldr Z.add 0 l.

(** A part id that [nparts] parts have. *)
Definition part_id (nparts : Z) (p : Z) : Prop := 0 <= p < nparts.

(** ** Index arrays under construction *)

(** The first [m + 1] entries of an index array that is being filled:
    they start at 0, do not decrease and end at [n]. *)
Definition csr_prefix (xs : list Z) (m : nat) (n : Z) : Prop :=
  xs !! O = Some 0 /\ xs !! m = Some n /\
  forall k a b, (k < m)%nat -> xs !! k = Some a -> xs !! S k = Some b -> a <= b.

(** A file of three vertices with vertex and edge weights (format 11). *)
Definition weighted_file : string :=
  "3 2 11" ++ GoLib.nl ++ "5 2 7" ++ GoLib.nl ++ "6 1 7 3 9" ++ GoLib.nl
    ++ "4 2 9" ++ GoLib.nl.

(** A header that announces a negative number of vertices. *)
Definition negative_count_file : string := "-3 0" ++ GoLib.nl.

(** ** Default options *)

(** [SetDefaultOptions].  [library] is [C.METIS_SetDefaultOptions]: from
    the array it is handed, the status it returns ([ret]) and what the
    array holds afterwards ([array_out1]).  The array is the caller's;
    the first component of the result is what the caller's slice holds
    when the function returns. *)
Definition SetDefaultOptions `{MetisHeader} (library : list Z -> metis_reply)
    (opts : slice Z) : go (slice Z * option error) :=
  if negb (len opts =? NoOptions) then
    Done (opts, Some (fmt_Errorf "options array must have %d elements"
                        [ArgInt NoOptions]))
  else
    p ← addr0 opts;
    let r := library p in
    let opts' := Some (written (array_out1 r) p) in
    if negb (ret r =? OK) then Done (opts', Some (getError (ret r)))
    else Done (opts', None).

(** A library that fills the options array with -1 and reports success. *)
Definition metis_defaults (p : list Z) : metis_reply :=
  {| ret := 1; scalar_out := 0; array_out1 := fun _ => -1; array_out2 := fun _ => 0 |}.

(** ** Writing a partition *)

(** An [io.Writer], as far as [fmt.Fprintf] uses it: the formatted text
    is handed over in one [Write], which may fail. *)
Class Writer (W : Type) : Type := {
  Write : W -> string -> W * option error
}.

Section WritePartition.

Context {W : Type} `{Writer W}.

(** [fmt.Sprintf("%d", p)] *)
Variable Itoa : Z -> string.

(** The loop [for _, p := range part]. *)
Fixpoint write_entries (w : W) (part : list Z) : W * option error :=
  match part with
  | [] => (w, None)
  | p :: rest =>
      let '(w', err) := Write w (Itoa p ++ GoLib.nl) in
      match err with
      | Some e => (w', Some e)
      | None => write_entries w' rest
      end
  end.

Definition WritePartitioning (w : W) (part : slice Z) : W * option error :=
  write_entries w (default [] part).

End WritePartition.

(** Executable models of the decimal formatting of package fmt and of two
    writers: a buffer in memory, which takes everything, and a writer
    with limited room. *)
Module GoFmt.

Fixpoint digits_of (fuel : nat) (n : Z) (acc : list ascii) : list ascii :=
  match fuel with
  | O => acc
  | S fuel' =>
      let acc' := ascii_of_N (Z.to_N (48 + n mod 10)) :: acc in
      if n <? 10 then acc' else digits_of fuel' (n / 10) acc'
  end.

(** Enough digits for a 64-bit integer. *)
Definition Itoa (z : Z) : string :=
  if z <? 0 then String "-" (string_of_list_ascii (digits_of 20 (- z) []))
  else string_of_list_ascii (digits_of 20 z []).

#[global] Instance buffer : Writer string := {|
  Write buf s := ((buf ++ s)%string, None)
|}.

Record LimitedWriter : Type := {
  room : Z;
  contents : string
}.

#[global] Instance limited_writer : Writer LimitedWriter := {|
  Write w s :=
    let n := Z.of_nat (String.length s) in
    if n <=? room w then
      ({| room := room w - n; contents := contents w ++ s |}, None)
    else (w, Some (errors_New "short write"))
|}.

End GoFmt.

(** ** The statistics of the partition example *)

Module PartitionExample.

Record partitionInfo : Type := {
  count : Z;
  weight : Z
}.

(** [make([]partitionInfo, nparts)] *)
Definition make_stats (nparts : Z) : go (list partitionInfo) :=
  if nparts <? 0 then Panic
  else Done (replicate (Z.to_nat nparts) {| count := 0; weight := 0 |}).

(** [stats[p].weight += x] *)
Definition add_weight (stats : list partitionInfo) (p x : Z)
    : go (list partitionInfo) :=
  s ← index (Some stats) p;
  store stats p {| count := count s; weight := int64 (weight s + x) |}.

(** The loop [for i, p := range part], with [rest] the entries of [part]
    from index [i] on. *)
Fixpoint count_vertices (i : Z) (rest : list Z) (vwgt : slice Z)
    (stats : list partitionInfo) : go (list partitionInfo) :=
  match rest with
  | [] => Done stats
  | p :: rest' =>
      s ← index (Some stats) p;
      stats ← store stats p {| count := int64 (count s + 1); weight := weight s |};
      stats ←
        match vwgt with
        | Some _ =>
            if i <? len vwgt then x ← index vwgt i; add_weight stats p x
            else add_weight stats p 1
        | None => add_weight stats p 1
        end;
      count_vertices (i + 1) rest' vwgt stats
  end.

Definition calculatePartitionStats (part vwgt : slice Z) (nparts : Z)
    : go (list partitionInfo) :=
  stats ← make_stats nparts;
  count_vertices 0 (default [] part) vwgt stats.

(** The loop [for i := 0; i < nvtxs; i++] of [calculateDegreeStats], with
    [n] iterations left. *)
Fixpoint degree_stats (n : nat) (graph : Graph) (i min max total : Z)
    : go (Z * Z * Z) :=
  match n with
  | O => Done (min, max, total)
  | S n' =>
      a ← index (Xadj graph) (i + 1);
      b ← index (Xadj graph) i;
      let degree := int32 (a - b) in
      degree_stats n' graph (i + 1)
        (if degree <? min then degree else min)
        (if max <? degree then degree else max)
        (int64 (total + degree))
  end.

(** [calculateDegreeStats], up to its last step: the result is
    [(min, max, total)]; the Go function returns
    [float64(total) / float64(nvtxs)] as the average. *)
Definition calculateDegreeStats (graph : Graph) : go (Z * Z * Z) :=
  let nvtxs := NumVertices graph in
  if nvtxs =? 0 then Done (0, 0, 0) else
  a ← index (Xadj graph) 1;
  b ← index (Xadj graph) 0;
  let min := int32 (a - b) in
  degree_stats (Z.to_nat nvtxs) graph 0 min min 0.

End PartitionExample.

(** A file without weights: the path on three vertices. *)
Definition path_file : string :=
  "3 2" ++ GoLib.nl ++ "2" ++ GoLib.nl ++ "1 3" ++ GoLib.nl ++ "2" ++ GoLib.nl.

(** * Properties *)

(** ** The model at work *)

Example Fields_splits_on_white_space :
  GoLib.Fields "  12 7   3 " = ["12"; "7"; "3"].
Proof. reflexivity. Qed.

Example Atoi_values :
  GoLib.Atoi "-12" = (-12, None) /\
  GoLib.Atoi "1x" = (0, Some (NumError "Atoi" "1x" "invalid syntax")) /\
  GoLib.Atoi "9223372036854775808"
    = (max_int64, Some (NumError "Atoi" "9223372036854775808" "value out of range")).
Proof. repeat split; vm_compute; reflexivity. Qed.

(** A triangle with vertex and edge weights (format 11). *)
Example ReadGraphString_weighted_triangle :
  GoLib.ReadGraphString
    ("3 3 11" ++ GoLib.nl ++ "5 2 7 3 8" ++ GoLib.nl ++ "6 1 7 3 9" ++ GoLib.nl
       ++ "4 1 8 2 9" ++ GoLib.nl)
  = Done (Some {| Xadj := Some [0; 2; 4; 6];
                  Adjncy := Some [1; 2; 0; 2; 0; 1];
                  Vwgt := Some [5; 6; 4];
                  Adjwgt := Some [7; 8; 7; 9; 8; 9] |}, None).
Proof. vm_compute. reflexivity. Qed.

Example ReadGraphString_short_file :
  GoLib.ReadGraphString ("2 1" ++ GoLib.nl ++ "2" ++ GoLib.nl)
  = Done (None, Some (fmt_Errorf "unexpected EOF at vertex %d" [ArgInt 1])).
Proof. vm_compute. reflexivity. Qed.

(** The call that [PartGraphKwayWeighted] makes, and what it returns when
    the library reports an input error. *)
Example PartGraphKwayWeighted_call :
  trace metis_rejects
    (@PartGraphKwayWeighted metis_5_1_0 (Some [0; 1; 2]) (Some [1; 0])
       (Some [3; 4]) None 2 None None None)
  = [C_METIS_PartGraphKway 2 1 [0; 1; 2] [1; 0] (Some [3; 4]) None None 2 None None None] /\
  run metis_rejects
    (@PartGraphKwayWeighted metis_5_1_0 (Some [0; 1; 2]) (Some [1; 0])
       (Some [3; 4]) None 2 None None None)
  = Returns (None, 0, Some (errors_New "METIS error: erroneous inputs and/or options")).
Proof. split; reflexivity. Qed.

Example CalculatePartitionBalance_square :
  CalculatePartitionBalance (Some [0; 0; 1; 2]) None 3 = Done (1, 2, 4).
Proof. reflexivity. Qed.

(** ** Integers *)

Lemma int32_id z : is_int32 z -> int32 z = z.
Proof.
  unfold is_int32, int32. intros Hz.
  rewrite Z.mod_small; lia.
Qed.

Lemma int64_id z : is_int64 z -> int64 z = z.
Proof.
  unfold is_int64, int64. intros Hz.
  rewrite Z.mod_small; lia.
Qed.

(** ** Graph construction *)

Lemma index_Some {A} (l : list A) (v : Z) (x : A) :
  0 <= v -> l !! Z.to_nat v = Some x -> index (Some l) v = Done x.
Proof.
  intros Hv Hx. unfold index.
  assert (Hlt : (Z.to_nat v < length l)%nat) by (eapply lookup_lt_Some; eauto).
  replace (0 <=? v) with true by (symmetry; apply Z.leb_le; lia).
  replace (v <? Z.of_nat (length l)) with true by (symmetry; apply Z.ltb_lt; lia).
  simpl. now rewrite Hx.
Qed.

Lemma nondecreasing_from_zero (xadj : list Z) :
  xadj_nondecreasing xadj -> xadj !! O = Some 0 ->
  forall i a, xadj !! i = Some a -> 0 <= a.
Proof.
  intros Hmono H0 i. induction i as [|i IH]; intros a Ha.
  - rewrite H0 in Ha. injection Ha as <-. lia.
  - destruct (xadj !! i) as [b|] eqn:Hb.
    + specialize (IH b eq_refl). specialize (Hmono i b a Hb Ha). lia.
    + apply lookup_ge_None in Hb. apply lookup_lt_Some in Ha. lia.
Qed.

(** C6, counterexample: [NewGraph] returns a graph for an index array
    that does not start at 0, decreases, and does not end at
    [len(adjncy)]. *)
Lemma NewGraph_accepts_malformed_xadj :
  exists g,
    NewGraph (Some [3; 1]) (Some []) = Some g /\
    [3; 1] !! O <> Some 0 /\
    ~ xadj_nondecreasing [3; 1] /\
    last [3; 1] <> Some (Z.of_nat (length (@nil Z))) /\
    ~ xadj_wellformed [3; 1] [].
Proof.
  eexists. split; [reflexivity|].
  assert (Hdec : ~ xadj_nondecreasing [3; 1]).
  { intros Hmono. specialize (Hmono O 3 1 eq_refl eq_refl). lia. }
  repeat split; try discriminate; try exact Hdec.
  intros [Hmono _]. exact (Hdec Hmono).
Qed.

(** C6, as amended: [NewGraph] checks nothing and cannot fail.  For every
    [xadj] and [adjncy] it returns a graph that holds the two slices as
    given and no weights; for every vertex [v] of that graph [Degree]
    returns [xadj[v+1] - xadj[v]] computed in [int32], which is the exact
    difference when the index array is well formed. *)
Theorem NewGraph_unchecked_Degree (xadj adjncy : slice Z) :
  exists g,
    NewGraph xadj adjncy = Some g /\
    Xadj g = xadj /\ Adjncy g = adjncy /\ Vwgt g = None /\ Adjwgt g = None /\
    forall l v a b,
      xadj = Some l ->
      len xadj <= max_int64 ->
      0 <= v < NumVertices g ->
      l !! Z.to_nat v = Some a ->
      l !! Z.to_nat (v + 1) = Some b ->
      Degree g v = Done (int32 (b - a)) /\
      (forall adj, adjncy = Some adj -> xadj_wellformed l adj ->
                   Forall is_int32 l -> Degree g v = Done (b - a)).
Proof.
  eexists. split; [reflexivity|]. cbn [Xadj Adjncy Vwgt Adjwgt].
  do 4 (split; [reflexivity|]).
  intros l v a b -> Hlen Hv Ha Hb.
  unfold Degree, NumVertices in *. cbn [Xadj len] in *. unfold max_int64 in *.
  rewrite int64_id by (unfold is_int64; lia).
  rewrite (index_Some l (v + 1) b) by (assumption || lia).
  rewrite (index_Some l v a) by (assumption || lia).
  split; [reflexivity|].
  intros adj _ (Hmono & Hzero & _) Hrange.
  cbn. f_equal. apply int32_id.
  assert (Ha0 : 0 <= a) by (eapply nondecreasing_from_zero; eauto).
  assert (Hab : a <= b).
  { apply (Hmono (Z.to_nat v) a b); [assumption|].
    replace (S (Z.to_nat v)) with (Z.to_nat (v + 1)) by lia. assumption. }
  assert (Hb32 : is_int32 b).
  { rewrite Forall_forall in Hrange. apply Hrange.
    eapply list_elem_of_lookup_2; eauto. }
  unfold is_int32 in *. lia.
Qed.

Lemma NewGraph_unchecked_Degree_witness :
  exists g,
    NewGraph (Some [0; 2; 3]) (Some [1; 1; 0]) = Some g /\
    Degree g 0 = Done 2 /\ Degree g 1 = Done 1.
Proof.
  destruct (NewGraph_unchecked_Degree (Some [0; 2; 3]) (Some [1; 1; 0]))
    as (g & Hg & Hx & Ha & _ & _ & Hdeg).
  exists g. split; [exact Hg|].
  assert (Hn : NumVertices g = 2) by (unfold NumVertices; rewrite Hx; reflexivity).
  assert (Hwf : xadj_wellformed [0; 2; 3] [1; 1; 0]).
  { repeat split; try reflexivity.
    intros [|[|[|i]]] a b Ha' Hb'; simpl in *; try discriminate;
      injection Ha' as <-; injection Hb' as <-; lia. }
  assert (Hr : Forall is_int32 [0; 2; 3]).
  { repeat constructor; unfold is_int32; lia. }
  assert (Hlen : len (Some [0; 2; 3]) <= max_int64) by (vm_compute; discriminate).
  split.
  - destruct (Hdeg [0; 2; 3] 0 0 2 eq_refl Hlen ltac:(lia) eq_refl eq_refl) as [_ Hexact].
    exact (Hexact [1; 1; 0] eq_refl Hwf Hr).
  - destruct (Hdeg [0; 2; 3] 1 2 3 eq_refl Hlen ltac:(lia) eq_refl eq_refl) as [_ Hexact].
    exact (Hexact [1; 1; 0] eq_refl Hwf Hr).
Defined.

(** ** The wrappers *)

Section WrapperFacts.

Context `{MetisHeader}.

(** For every slice of at most [2^31] entries the wrapper's [nvtxs] is
    [len(xadj) - 1]. *)
Lemma nvtxs_exact (xadj : slice Z) :
  len xadj - 1 < 2 ^ 31 -> int32 (len xadj - 1) = len xadj - 1.
Proof.
  intros Hlt. apply int32_id. unfold is_int32.
  assert (0 <= len xadj) by (destruct xadj; simpl; lia). lia.
Qed.

Lemma run_bind {A B} metis (m : go A) (f : A -> go B) :
  run metis (m ≫= f) =
  match run metis m with
  | Returns a => run metis (f a)
  | Panics => Panics
  end.
Proof.
  unfold mbind, go_mbind.
  induction m as [a| |c k IH]; simpl; [reflexivity|reflexivity|apply IH].
Qed.

Lemma run_bind_Returns {A B} metis (m : go A) (f : A -> go B) (b : B) :
  run metis (m ≫= f) = Returns b ->
  exists a, run metis m = Returns a /\ run metis (f a) = Returns b.
Proof.
  rewrite run_bind. destruct (run metis m) as [a|]; [eauto|discriminate].
Qed.

Lemma sized_ptr_mismatch (v : list Z) (nvtxs : Z) :
  len (Some v) <> nvtxs -> sized_ptr (Some v) nvtxs = Done None.
Proof.
  intros Hne. unfold sized_ptr.
  destruct (Z.eqb_spec (len (Some v)) nvtxs); [contradiction|reflexivity].
Qed.

Lemma make_nonneg (n : Z) : 0 <= n -> make n = Done (replicate (Z.to_nat n) 0).
Proof.
  intros Hn. unfold make. destruct (Z.ltb_spec n 0); [lia|reflexivity].
Qed.

Lemma make_positive (n : Z) : 0 < n -> exists x l, make n = Done (x :: l).
Proof.
  intros Hn. rewrite make_nonneg by lia.
  destruct (Z.to_nat n) as [|k] eqn:Hk; [lia|].
  exists 0, (replicate k 0). reflexivity.
Qed.

Lemma nonempty_cons {A} (s : slice A) : nonempty s -> exists x l, s = Some (x :: l).
Proof.
  unfold nonempty. destruct s as [[|x l]|]; cbn; intros Hs; try lia. eauto.
Qed.

Lemma optional_ptr_Done {A} (s : slice A) :
  nil_or_nonempty s -> exists p, optional_ptr s = Done p.
Proof.
  intros [->|Hs]; [cbn; eauto|].
  apply nonempty_cons in Hs. destruct Hs as (x & l & ->). cbn. eauto.
Qed.

Lemma options_ptr_Done (options : slice Z) :
  nil_or_nonempty options -> exists p, options_ptr options = Done p.
Proof.
  intros [->|Hs]; [cbn; eauto|].
  apply nonempty_cons in Hs. destruct Hs as (x & l & ->). unfold options_ptr.
  destruct (len (Some (x :: l)) =? NoOptions); cbn; eauto.
Qed.

Lemma sized_ptr_Done (vwgt : slice Z) (nvtxs : Z) :
  0 < nvtxs -> exists p, sized_ptr vwgt nvtxs = Done p.
Proof.
  intros Hn. unfold sized_ptr. destruct vwgt as [v|]; [|eauto].
  destruct (Z.eqb_spec (len (Some v)) nvtxs) as [Hlen|]; [|eauto].
  destruct (nonempty_cons (Some v)) as (x & l & ->); [unfold nonempty; lia|].
  cbn. eauto.
Qed.

Lemma vertices_nonempty (xadj : slice Z) :
  0 < int32 (len xadj - 1) -> nonempty xadj.
Proof.
  unfold nonempty. destruct xadj as [[|x l]|]; cbn [len length]; intros Hn.
  - vm_compute in Hn. discriminate.
  - lia.
  - vm_compute in Hn. discriminate.
Qed.

Lemma copy_c_array_Done (p : nat -> Z) (n : Z) :
  0 <= n -> copy_c_array p n = Done (written p (replicate (Z.to_nat n) 0)).
Proof.
  intros Hn. unfold copy_c_array. rewrite make_nonneg by assumption. reflexivity.
Qed.

Lemma index_written (p : nat -> Z) (n i : Z) :
  0 <= i < n ->
  index (Some (written p (replicate (Z.to_nat n) 0))) i = Done (int32 (p (Z.to_nat i))).
Proof.
  intros Hi. apply index_Some; [lia|].
  unfold written. rewrite list_lookup_imap.
  rewrite lookup_replicate_2 by lia. reflexivity.
Qed.

End WrapperFacts.

(** Peels the binds of a wrapper that returned, down to the C call. *)
Ltac peel_binds H :=
  repeat match type of H with
  | run _ (_ ≫= _) = Returns _ =>
      let a := fresh "a" in
      let Ha := fresh "Ha" in
      apply run_bind_Returns in H; destruct H as (a & Ha & H)
  | run _ (Call _ _) = Returns _ => cbn [run] in H
  end.

(** Follows a wrapper that returned to each of its return statements. *)
Ltac returned_steps H :=
  repeat (peel_binds H;
          match type of H with
          | run _ (if ?b then _ else _) = Returns _ => destruct b eqn:?
          | run _ (Done _) = Returns _ => cbn [run] in H; injection H as <-
          | run _ Panic = Returns _ => discriminate H
          end).

(** Rewrites the steps of a wrapper that cannot panic on the inputs at
    hand, up to its C call. *)
Ltac step_with lem :=
  let x := fresh "x" in
  let l := fresh "l" in
  let E := fresh "E" in
  first [ destruct lem as (x & l & E) | destruct lem as (x & E) ];
  rewrite E; cbn [mbind go_mbind go_bind addr0].

Ltac run_wrapper :=
  repeat match goal with
  | |- context [make ?n] =>
      step_with (make_positive n ltac:(assumption))
  | |- context [options_ptr ?o] =>
      step_with (options_ptr_Done o ltac:(assumption))
  | |- context [optional_ptr ?o] =>
      step_with (optional_ptr_Done o ltac:(assumption))
  | |- context [sized_ptr ?v ?n] =>
      step_with (sized_ptr_Done v n ltac:(assumption))
  | |- context [addr0 ?a] =>
      step_with (nonempty_cons a ltac:(assumption))
  end.

(** On addressable inputs every public operation returns, whatever the
    library replies with non-negative sizes. *)
Lemma addressable_returns `{MetisHeader}
    (c : public_call) (metis : metis_call -> metis_reply) :
  addressable c -> nonnegative_sizes metis ->
  exists r, run metis (invoke c) = Returns r.
Proof.
  intros Hc Hsizes.
  destruct c; cbn [addressable invoke] in *; rewrite run_bind;
    unfold PartGraphRecursive, PartGraphKway, PartGraphRecursiveWeighted,
      PartGraphKwayWeighted, PartMeshDual, PartMeshNodal, NodeND,
      ComputeVertexSeparator, MeshToDual, MeshToNodal;
    cbv zeta.
  1, 2, 7, 8:
    destruct Hc as (Hn & Hadj & Hopt);
    pose proof (vertices_nonempty _ Hn) as Hx;
    run_wrapper; cbn [run]; destruct (negb _); cbn [run]; eauto.
  1, 2:
    destruct Hc as (Hn & Hadj & Hopt & Hv & Ha & Ht & Hu);
    pose proof (vertices_nonempty _ Hn) as Hx;
    repeat match goal with
           | |- context [if ?b then Done _ else _] =>
               destruct b; [cbn [run]; eauto|]
           end;
    run_wrapper; cbn [run]; destruct (negb _); cbn [run]; eauto.
  1, 2:
    destruct Hc as (Hne & Hnn & Hp & Hi & Hv & Hs & Ht & Hopt);
    run_wrapper; cbn [run]; destruct (negb _); cbn [run]; eauto.
  1, 2:
    destruct Hc as (Hn & Hp & Hi);
    run_wrapper; cbn [run]; destruct (negb _); [cbn [run]; eauto|];
    rewrite (int32_id (_ + 1)) by (unfold is_int32; lia);
    rewrite copy_c_array_Done by lia; cbn [mbind go_mbind go_bind];
    rewrite index_written by lia; cbn [mbind go_mbind go_bind];
    rewrite copy_c_array_Done by apply Hsizes; cbn [mbind go_mbind go_bind run];
    eauto.
Qed.

(** A public operation that returns, returns either no error and every
    result slice, or an error with every slice nil and every scalar
    zero, whatever the METIS library does; and it does return on every
    addressable input when the library reports no negative size. *)
Lemma returned_all_or_nothing `{MetisHeader}
    (c : public_call) (metis : metis_call -> metis_reply) :
  (forall r, run metis (invoke c) = Returns r -> all_or_nothing r) /\
  (addressable c -> nonnegative_sizes metis ->
   exists r, run metis (invoke c) = Returns r /\ all_or_nothing r).
Proof.
  assert (Hshape : forall r, run metis (invoke c) = Returns r -> all_or_nothing r).
  { intros r Hrun.
    destruct c; cbn [invoke] in Hrun;
      apply run_bind_Returns in Hrun; destruct Hrun as (res & Hres & Hrun);
      cbn [run] in Hrun; injection Hrun as <-.
    all: unfold PartGraphRecursive, PartGraphKway, PartGraphRecursiveWeighted,
           PartGraphKwayWeighted, PartMeshDual, PartMeshNodal, NodeND,
           ComputeVertexSeparator, MeshToDual, MeshToNodal in Hres;
         cbv zeta in Hres.
    all: returned_steps Hres.
    all: unfold all_or_nothing; cbn; repeat constructor; discriminate. }
  split; [exact Hshape|].
  intros Hc Hsizes.
  destruct (addressable_returns c metis Hc Hsizes) as (r & Hr).
  exists r. split; [exact Hr|]. apply Hshape, Hr.
Qed.

(** ** Empty arrays

    The steps of a wrapper before its C call either go on or panic; none
    of them returns or calls the library. *)

Lemma make_cases (n : Z) : make n = Panic \/ exists l, make n = Done l.
Proof. unfold make. destruct (n <? 0); eauto. Qed.

Lemma addr0_cases {A} (s : slice A) : addr0 s = Panic \/ exists l, addr0 s = Done l.
Proof. destruct s as [[|x l]|]; cbn; eauto. Qed.

Lemma optional_ptr_cases {A} (s : slice A) :
  optional_ptr s = Panic \/ exists p, optional_ptr s = Done p.
Proof. destruct s as [[|x l]|]; cbn; eauto. Qed.

Lemma options_ptr_cases `{MetisHeader} (s : slice Z) :
  options_ptr s = Panic \/ exists p, options_ptr s = Done p.
Proof.
  unfold options_ptr. destruct s as [[|x l]|]; [| |eauto];
    destruct (_ =? _); cbn; eauto.
Qed.

Lemma sized_ptr_cases (s : slice Z) (n : Z) :
  sized_ptr s n = Panic \/ exists p, sized_ptr s n = Done p.
Proof.
  unfold sized_ptr. destruct s as [[|x l]|]; [| |eauto];
    destruct (_ =? _); cbn; eauto.
Qed.

(** [&s[0]] of an empty slice, nil or not, is an index out of range. *)
Lemma addr0_empty {A} (s : slice A) : len s = 0 -> addr0 s = Panic.
Proof. destruct s as [[|x l]|]; cbn; [reflexivity|lia|reflexivity]. Qed.

Ltac head_cases m :=
  lazymatch m with
  | make ?n => destruct (make_cases n) as [-> | [? ->]]
  | addr0 ?s => destruct (addr0_cases s) as [-> | [? ->]]
  | optional_ptr ?s => destruct (optional_ptr_cases s) as [-> | [? ->]]
  | options_ptr ?s => destruct (options_ptr_cases s) as [-> | [? ->]]
  | sized_ptr ?s ?n => destruct (sized_ptr_cases s n) as [-> | [? ->]]
  end.

(** Runs a wrapper up to the step that panics. *)
Ltac panics :=
  repeat (cbn [mbind go_mbind go_bind];
          lazymatch goal with
          | |- Panic = Panic => reflexivity
          | |- (?m ≫= _) = Panic => head_cases m
          end).

Lemma graph_wrappers_panic `{MetisHeader} (xadj adjncy : slice Z) :
  len adjncy = 0 ->
  (forall nparts options, PartGraphRecursive xadj adjncy nparts options = Panic) /\
  (forall nparts options, PartGraphKway xadj adjncy nparts options = Panic) /\
  (forall vwgt options, NodeND xadj adjncy vwgt options = Panic) /\
  (forall vwgt options, ComputeVertexSeparator xadj adjncy vwgt options = Panic).
Proof.
  intros Hempty. apply addr0_empty in Hempty.
  unfold PartGraphRecursive, PartGraphKway, NodeND, ComputeVertexSeparator.
  cbv zeta. rewrite Hempty.
  split; [|split; [|split]]; intros; panics.
Qed.

Lemma weighted_wrappers_panic `{MetisHeader} (xadj adjncy vwgt adjwgt : slice Z)
    (nparts : Z) (tpwgts ubvec : slice float32) (options : slice Z) :
  len adjncy = 0 ->
  ~ mismatched_weights xadj adjncy vwgt adjwgt ->
  PartGraphRecursiveWeighted xadj adjncy vwgt adjwgt nparts tpwgts ubvec options = Panic /\
  PartGraphKwayWeighted xadj adjncy vwgt adjwgt nparts tpwgts ubvec options = Panic.
Proof.
  intros Hempty Hfit. pose proof (addr0_empty _ Hempty) as Hpanic.
  unfold PartGraphRecursiveWeighted, PartGraphKwayWeighted. cbv zeta.
  rewrite Hpanic.
  assert (Hv : match vwgt with
               | Some _ => negb (len vwgt =? int32 (len xadj - 1))
               | None => false
               end = false).
  { destruct vwgt as [v|]; [|reflexivity].
    destruct (Z.eqb_spec (len (Some v)) (int32 (len xadj - 1))); [reflexivity|].
    exfalso. apply Hfit. left. split; [discriminate|assumption]. }
  assert (Ha : match adjwgt with
               | Some _ => negb (len adjwgt =? len adjncy)
               | None => false
               end = false).
  { destruct adjwgt as [a|]; [|reflexivity].
    destruct (Z.eqb_spec (len (Some a)) (len adjncy)); [reflexivity|].
    exfalso. apply Hfit. right. split; [discriminate|assumption]. }
  rewrite Hv, Ha. split; panics.
Qed.

Lemma mesh_wrappers_panic `{MetisHeader} (ne nn : Z) (eptr eind : slice Z) :
  len eind = 0 ->
  (forall vwgt vsize ncommon nparts tpwgts options,
     PartMeshDual ne nn eptr eind vwgt vsize ncommon nparts tpwgts options = Panic) /\
  (forall vwgt vsize nparts tpwgts options,
     PartMeshNodal ne nn eptr eind vwgt vsize nparts tpwgts options = Panic) /\
  (forall ncommon, MeshToDual ne nn eptr eind ncommon = Panic) /\
  MeshToNodal ne nn eptr eind = Panic.
Proof.
  intros Hempty. apply addr0_empty in Hempty.
  unfold PartMeshDual, PartMeshNodal, MeshToDual, MeshToNodal.
  cbv zeta. rewrite Hempty.
  split; [|split; [|split]]; intros; panics.
Qed.

(** C5: an operation that is handed an empty adjacency array (a graph
    without edges, a mesh without nodes in its elements) neither
    succeeds nor returns an error: it panics at [&adjncy[0]]
    ([&eind[0]]) before the METIS library is called, for every value of
    the other arguments that passes the length checks of the weighted
    wrappers. *)
Theorem public_operations_panic_on_empty_adjacency `{MetisHeader}
    (c : public_call) (metis : metis_call -> metis_reply) :
  empty_adjacency c ->
  run metis (invoke c) = Panics /\ trace metis (invoke c) = [].
Proof.
  intros Hempty.
  assert (Hpanic : invoke c = Panic).
  { destruct c; cbn [empty_adjacency invoke] in *.
    - rewrite (proj1 (graph_wrappers_panic _ _ Hempty)). reflexivity.
    - rewrite (proj1 (proj2 (graph_wrappers_panic _ _ Hempty))). reflexivity.
    - destruct Hempty as [Hempty Hfit].
      rewrite (proj1 (weighted_wrappers_panic _ _ _ _ _ _ _ _ Hempty Hfit)). reflexivity.
    - destruct Hempty as [Hempty Hfit].
      rewrite (proj2 (weighted_wrappers_panic _ _ _ _ _ _ _ _ Hempty Hfit)). reflexivity.
    - rewrite (proj1 (mesh_wrappers_panic _ _ _ _ Hempty)). reflexivity.
    - rewrite (proj1 (proj2 (mesh_wrappers_panic _ _ _ _ Hempty))). reflexivity.
    - rewrite (proj1 (proj2 (proj2 (graph_wrappers_panic _ _ Hempty)))).
      reflexivity.
    - rewrite (proj2 (proj2 (proj2 (graph_wrappers_panic _ _ Hempty)))).
      reflexivity.
    - rewrite (proj1 (proj2 (proj2 (mesh_wrappers_panic _ _ _ _ Hempty)))).
      reflexivity.
    - rewrite (proj2 (proj2 (proj2 (mesh_wrappers_panic _ _ _ _ Hempty)))).
      reflexivity. }
  rewrite Hpanic. split; reflexivity.
Qed.

Lemma public_operations_panic_on_empty_adjacency_witness :
  xadj_wellformed [0; 0; 0] [] /\
  run metis_ok (@invoke metis_5_1_0 (Op_PartGraphKway (Some [0; 0; 0]) (Some []) 2 None))
  = Panics /\
  trace metis_ok (@invoke metis_5_1_0 (Op_PartGraphKway (Some [0; 0; 0]) (Some []) 2 None))
  = [].
Proof.
  split.
  - split; [|split; reflexivity].
    intros [|[|[|i]]] a b Ha Hb; cbn in Ha, Hb; try discriminate;
      injection Ha as <-; injection Hb as <-; lia.
  - apply (@public_operations_panic_on_empty_adjacency metis_5_1_0
             (Op_PartGraphKway (Some [0; 0; 0]) (Some []) 2 None) metis_ok).
    reflexivity.
Defined.

(** C7: when a non-nil [vwgt] does not have one entry per vertex, or a
    non-nil [adjwgt] does not have one entry per entry of [adjncy], both
    weighted wrappers return a nil partition, objective 0 and one of the
    two length errors, and make no call into the METIS library.  The
    number of vertices is the wrapper's [nvtxs], that is [len(xadj) - 1]
    converted to [int32] (see [nvtxs_exact]). *)
Theorem weighted_wrappers_reject_mismatched_weights `{MetisHeader}
    (xadj adjncy vwgt adjwgt : slice Z) (nparts : Z)
    (tpwgts ubvec : slice float32) (options : slice Z) :
  mismatched_weights xadj adjncy vwgt adjwgt ->
  exists e,
    (e = vwgt_length_error \/ e = adjwgt_length_error) /\
    PartGraphRecursiveWeighted xadj adjncy vwgt adjwgt nparts tpwgts ubvec options
      = Done (None, 0, Some e) /\
    PartGraphKwayWeighted xadj adjncy vwgt adjwgt nparts tpwgts ubvec options
      = Done (None, 0, Some e) /\
    forall metis,
      trace metis (PartGraphRecursiveWeighted xadj adjncy vwgt adjwgt nparts
                     tpwgts ubvec options) = [] /\
      trace metis (PartGraphKwayWeighted xadj adjncy vwgt adjwgt nparts
                     tpwgts ubvec options) = [].
Proof.
  intros Hbad.
  assert (Hcases :
    (exists v, vwgt = Some v /\ (len vwgt =? int32 (len xadj - 1)) = false) \/
    ((vwgt = None \/ (len vwgt =? int32 (len xadj - 1)) = true) /\
     exists a, adjwgt = Some a /\ (len adjwgt =? len adjncy) = false)).
  { destruct Hbad as [[Hv Hlen]|[Ha Hlen]].
    - left. destruct vwgt as [v|]; [|contradiction].
      exists v. split; [reflexivity|]. now apply Z.eqb_neq.
    - destruct vwgt as [v|].
      + destruct (len (Some v) =? int32 (len xadj - 1)) eqn:Hv.
        * right. split; [now right|].
          destruct adjwgt as [a|]; [|contradiction].
          exists a. split; [reflexivity|]. now apply Z.eqb_neq.
        * left. eauto.
      + right. split; [now left|].
        destruct adjwgt as [a|]; [|contradiction].
        exists a. split; [reflexivity|]. now apply Z.eqb_neq. }
  unfold PartGraphRecursiveWeighted, PartGraphKwayWeighted. cbv zeta.
  destruct Hcases as [(v & -> & Hv)|[Hv (a & -> & Ha)]].
  - exists vwgt_length_error. rewrite Hv. cbn.
    repeat split; auto.
  - exists adjwgt_length_error. rewrite Ha.
    destruct Hv as [->|Hv].
    + cbn. repeat split; auto.
    + destruct vwgt as [v|]; [rewrite Hv|]; cbn; repeat split; auto.
Qed.

Lemma weighted_wrappers_reject_mismatched_weights_witness :
  mismatched_weights (Some [0; 1; 2]) (Some [1; 0]) (Some [5; 6; 7]) None /\
  exists e,
    (e = vwgt_length_error \/ e = adjwgt_length_error) /\
    @PartGraphRecursiveWeighted metis_5_1_0
      (Some [0; 1; 2]) (Some [1; 0]) (Some [5; 6; 7]) None 2 None None None
    = Done (None, 0, Some e) /\
    @PartGraphKwayWeighted metis_5_1_0
      (Some [0; 1; 2]) (Some [1; 0]) (Some [5; 6; 7]) None 2 None None None
    = Done (None, 0, Some e) /\
    forall metis,
      trace metis (@PartGraphRecursiveWeighted metis_5_1_0
        (Some [0; 1; 2]) (Some [1; 0]) (Some [5; 6; 7]) None 2 None None None) = [] /\
      trace metis (@PartGraphKwayWeighted metis_5_1_0
        (Some [0; 1; 2]) (Some [1; 0]) (Some [5; 6; 7]) None 2 None None None) = [].
Proof.
  assert (Hbad : mismatched_weights (Some [0; 1; 2]) (Some [1; 0]) (Some [5; 6; 7]) None).
  { left. split; [discriminate|]. vm_compute. discriminate. }
  split; [exact Hbad|].
  exact (@weighted_wrappers_reject_mismatched_weights metis_5_1_0
           (Some [0; 1; 2]) (Some [1; 0]) (Some [5; 6; 7]) None 2 None None None Hbad).
Defined.

(** C10: [NodeND] and [ComputeVertexSeparator] given a non-nil [vwgt]
    whose length is not the number of vertices (the wrapper's [nvtxs])
    are the same computations as without vertex weights: no length error
    is returned, the C call carries a NULL [vwgt], and the result is that
    of the unweighted call whatever the library does. *)
Theorem ordering_wrappers_ignore_mismatched_vwgt `{MetisHeader}
    (xadj adjncy : slice Z) (v : list Z) (options : slice Z) :
  len (Some v) <> int32 (len xadj - 1) ->
  NodeND xadj adjncy (Some v) options = NodeND xadj adjncy None options /\
  ComputeVertexSeparator xadj adjncy (Some v) options
    = ComputeVertexSeparator xadj adjncy None options /\
  forall metis,
    run metis (NodeND xadj adjncy (Some v) options)
      = run metis (NodeND xadj adjncy None options) /\
    trace metis (NodeND xadj adjncy (Some v) options)
      = trace metis (NodeND xadj adjncy None options) /\
    run metis (ComputeVertexSeparator xadj adjncy (Some v) options)
      = run metis (ComputeVertexSeparator xadj adjncy None options) /\
    trace metis (ComputeVertexSeparator xadj adjncy (Some v) options)
      = trace metis (ComputeVertexSeparator xadj adjncy None options).
Proof.
  intros Hlen.
  assert (Hnd : NodeND xadj adjncy (Some v) options = NodeND xadj adjncy None options).
  { unfold NodeND. cbv zeta. rewrite (sized_ptr_mismatch v _ Hlen). reflexivity. }
  assert (Hsep : ComputeVertexSeparator xadj adjncy (Some v) options
                 = ComputeVertexSeparator xadj adjncy None options).
  { unfold ComputeVertexSeparator. cbv zeta.
    rewrite (sized_ptr_mismatch v _ Hlen). reflexivity. }
  split; [exact Hnd|]. split; [exact Hsep|].
  intros metis. rewrite Hnd, Hsep. repeat split; reflexivity.
Qed.

Lemma ordering_wrappers_ignore_mismatched_vwgt_witness :
  len (Some [9; 9; 9; 9; 9]) <> int32 (len (Some [0; 1; 2]) - 1) /\
  run metis_ok (@NodeND metis_5_1_0 (Some [0; 1; 2]) (Some [1; 0]) (Some [9; 9; 9; 9; 9]) None)
    = Returns (Some [0; 1], Some [0; 1], None) /\
  trace metis_ok
    (@NodeND metis_5_1_0 (Some [0; 1; 2]) (Some [1; 0]) (Some [9; 9; 9; 9; 9]) None)
    = [C_METIS_NodeND 2 [0; 1; 2] [1; 0] None None].
Proof.
  assert (Hlen : len (Some [9; 9; 9; 9; 9]) <> int32 (len (Some [0; 1; 2]) - 1))
    by (vm_compute; discriminate).
  split; [exact Hlen|].
  destruct (@ordering_wrappers_ignore_mismatched_vwgt metis_5_1_0
              (Some [0; 1; 2]) (Some [1; 0]) [9; 9; 9; 9; 9] None Hlen)
    as (_ & _ & Hall).
  destruct (Hall metis_ok) as (Hrun & Htrace & _).
  rewrite Hrun, Htrace. split; reflexivity.
Defined.

(** ** The graph reader *)

Lemma bind_Done {A B} (m : go A) (f : A -> go B) (b : B) :
  m ≫= f = Done b -> exists a, m = Done a /\ f a = Done b.
Proof.
  unfold mbind, go_mbind. destruct m as [a| |c k]; simpl; intros Hm;
    [eauto|discriminate|discriminate].
Qed.

Lemma store_Done {A} (l l' : list A) (i : Z) (x : A) :
  store l i x = Done l' ->
  length l' = length l /\ forall k, k <> Z.to_nat i -> l' !! k = l !! k.
Proof.
  unfold store. destruct ((0 <=? i) && (i <? Z.of_nat (length l))); [|discriminate].
  intros [= <-]. split; [apply length_insert|].
  intros k Hk. apply list_lookup_insert_ne. congruence.
Qed.

Section ReadGraphFacts.

Context {R : Type} `{Scanner R}.
Variable Fields : string -> list string.
Variable Atoi : string -> Z * option error.

(** One pass of the vertex loop that goes on: a line was read, the
    index array keeps its length and changes at most at [i + 1], and
    not at all when the line has no fields. *)
Lemma read_vertices_step n i hv he (st st' : reader_state) :
  read_vertices Fields Atoi (S n) i hv he st = Done (inl st') ->
  exists st1,
    Scan (scanner st) = (true, scanner st1) /\
    read_vertices Fields Atoi n (i + 1) hv he st1 = Done (inl st') /\
    length (xadj st1) = length (xadj st) /\
    (forall k, k <> Z.to_nat (i + 1) -> xadj st1 !! k = xadj st !! k) /\
    (Fields (Text (scanner st1)) = [] -> xadj st1 = xadj st).
Proof.
  simpl. destruct (Scan (scanner st)) as [more sc]. destruct more; [|discriminate].
  cbn [negb]. destruct (Z.eqb_spec (Z.of_nat (length (Fields (Text sc)))) 0) as [Hblank|Hfields].
  - intros Hrest.
    exists {| scanner := sc; xadj := xadj st; adjncy := adjncy st;
              vwgt := vwgt st; adjwgt := adjwgt st |}.
    split; [reflexivity|]. split; [exact Hrest|]. cbn. auto.
  - intros Hrest. apply bind_Done in Hrest. destruct Hrest as (weighed & _ & Hrest).
    destruct weighed as [[vwgt' fieldIdx]|e]; [|discriminate].
    destruct (read_adjacency Atoi i he fieldIdx fieldIdx _ _ _)
      as [[adjncy' adjwgt']|e]; [|discriminate].
    apply bind_Done in Hrest. destruct Hrest as (xadj' & Hstore & Hrest).
    apply store_Done in Hstore. destruct Hstore as [Hlen Hother].
    exists {| scanner := sc; xadj := xadj'; adjncy := adjncy';
              vwgt := vwgt'; adjwgt := adjwgt' |}.
    split; [reflexivity|]. split; [exact Hrest|]. cbn.
    split; [exact Hlen|]. split; [exact Hother|].
    intros Hnone. rewrite Hnone in Hfields. cbn in Hfields. lia.
Qed.

(** The loop keeps the length of the index array. *)
Lemma read_vertices_length n : forall i hv he (st st' : reader_state),
  read_vertices Fields Atoi n i hv he st = Done (inl st') ->
  length (xadj st') = length (xadj st).
Proof.
  induction n as [|n IH]; intros i hv he st st' Hloop.
  - simpl in Hloop. now injection Hloop as <-.
  - apply read_vertices_step in Hloop.
    destruct Hloop as (st1 & _ & Hrest & Hlen & _).
    rewrite (IH _ _ _ _ _ Hrest). exact Hlen.
Qed.

(** Passes [i], [i + 1], ... leave the entries up to index [i] alone. *)
Lemma read_vertices_below n : forall i hv he (st st' : reader_state) k,
  0 <= i ->
  read_vertices Fields Atoi n i hv he st = Done (inl st') ->
  (k <= Z.to_nat i)%nat ->
  xadj st' !! k = xadj st !! k.
Proof.
  induction n as [|n IH]; intros i hv he st st' k Hi Hloop Hk.
  - simpl in Hloop. now injection Hloop as <-.
  - apply read_vertices_step in Hloop.
    destruct Hloop as (st1 & _ & Hrest & _ & Hother & _).
    rewrite (IH (i + 1) hv he st1 st' k); [apply Hother; lia|lia|exact Hrest|lia].
Qed.

(** The entry of a vertex whose line has no fields is never written. *)
Lemma read_vertices_blank j : forall n i hv he (st st' : reader_state) sc,
  0 <= i ->
  read_vertices Fields Atoi n i hv he st = Done (inl st') ->
  (j < n)%nat ->
  scans (S j) (scanner st) = Some sc ->
  Fields (Text sc) = [] ->
  xadj st' !! Z.to_nat (i + Z.of_nat j + 1) = xadj st !! Z.to_nat (i + Z.of_nat j + 1).
Proof.
  induction j as [|j IH]; intros n i hv he st st' sc Hi Hloop Hj Hscan Hblank.
  - destruct n as [|n]; [lia|].
    apply read_vertices_step in Hloop.
    destruct Hloop as (st1 & Hfirst & Hrest & _ & _ & Hsame).
    simpl in Hscan. rewrite Hfirst in Hscan. injection Hscan as <-.
    rewrite <- (Hsame Hblank).
    apply (read_vertices_below n (i + 1) hv he st1 st'); [lia|exact Hrest|lia].
  - destruct n as [|n]; [lia|].
    apply read_vertices_step in Hloop.
    destruct Hloop as (st1 & Hfirst & Hrest & _ & Hother & _).
    change (scans (S (S j)) (scanner st))
      with (let '(more, sc') := Scan (scanner st) in
            if more then scans (S j) sc' else None) in Hscan.
    rewrite Hfirst in Hscan.
    assert (Hi1 : 0 <= i + 1) by lia.
    assert (Hjn : (j < n)%nat) by lia.
    specialize (IH n (i + 1) hv he st1 st' sc Hi1 Hrest Hjn Hscan Hblank).
    replace (i + Z.of_nat (S j) + 1) with (i + 1 + Z.of_nat j + 1) by lia.
    rewrite IH. apply Hother. lia.
Qed.

(** [Atoi] returns a Go [int]. *)
Hypothesis Atoi_int : forall s, is_int64 (fst (Atoi s)).

Lemma ReadGraphFile_blank_entry (r : R) (g : Graph) (i : Z) (line : string) :
  ReadGraphFile Fields Atoi r = Done (Some g, None) ->
  0 <= i < NumVertices g ->
  vertex_line r (Z.to_nat i) = Some line ->
  Fields line = [] ->
  index (Xadj g) (i + 1) = Done 0.
Proof.
  intros Hread Hi Hline Hblank.
  unfold vertex_line in Hline. apply fmap_Some in Hline.
  destruct Hline as (sc_i & Hscan & ->).
  change (scans (2 + Z.to_nat i) r)
    with (let '(more, sc') := Scan r in
          if more then scans (S (Z.to_nat i)) sc' else None) in Hscan.
  unfold ReadGraphFile in Hread.
  destruct (Scan r) as [more sc]. destruct more; [|discriminate].
  cbn [negb] in Hread.
  destruct (Z.of_nat (length (Fields (Text sc))) <? 2); [discriminate|].
  apply bind_Done in Hread. destruct Hread as (h0 & _ & Hread).
  pose proof (Atoi_int h0) as Hnv.
  destruct (Atoi h0) as [nvtxs [e|]]; [discriminate|]. cbn [fst] in Hnv.
  apply bind_Done in Hread. destruct Hread as ([hv he] & _ & Hread).
  apply bind_Done in Hread. destruct Hread as (xadj0 & Hmake & Hread).
  apply bind_Done in Hread. destruct Hread as (xadj1 & Hstore & Hread).
  apply bind_Done in Hread. destruct Hread as (loop & Hloop & Hread).
  destruct loop as [st|e]; [|discriminate].
  destruct (Err (scanner st)); [discriminate|].
  injection Hread as <-.
  unfold NumVertices in Hi. cbn [Xadj len] in Hi |- *.
  pose proof (read_vertices_length _ _ _ _ _ _ Hloop) as Hlen. cbn [xadj] in Hlen.
  unfold make in Hmake.
  destruct (Z.ltb_spec (int64 (nvtxs + 1)) 0) as [|Hsize]; [discriminate|].
  injection Hmake as <-.
  assert (Hnext : int64 (nvtxs + 1) = nvtxs + 1).
  { unfold is_int64 in Hnv. destruct (Z.eq_dec (nvtxs + 1) (2 ^ 63)) as [Hmax|Hmax].
    - rewrite Hmax in Hsize. vm_compute in Hsize. contradiction.
    - apply int64_id. unfold is_int64. lia. }
  rewrite Hnext in *.
  destruct (store_Done _ _ _ _ Hstore) as [Hlen1 Hother].
  rewrite length_replicate in Hlen1.
  assert (Hj : (Z.to_nat i < Z.to_nat nvtxs)%nat) by lia.
  pose proof (read_vertices_blank (Z.to_nat i) _ 0 hv he _ _ sc_i
                ltac:(lia) Hloop Hj Hscan Hblank) as Hentry.
  cbn [xadj] in Hentry.
  replace (Z.to_nat (0 + Z.of_nat (Z.to_nat i) + 1)) with (Z.to_nat (i + 1)) in Hentry by lia.
  apply index_Some; [lia|].
  rewrite Hentry, Hother by lia.
  apply lookup_replicate_2. lia.
Qed.

End ReadGraphFacts.

Lemma GoLib_Atoi_int (s : string) : is_int64 (fst (GoLib.Atoi s)).
Proof.
  unfold GoLib.Atoi.
  assert (Hzero : is_int64 0) by (unfold is_int64; lia).
  assert (Hclamp : forall v,
    is_int64 (fst (if max_int64 <? v then
                     (max_int64, Some (NumError "Atoi" s "value out of range"))
                   else if v <? min_int64 then
                     (min_int64, Some (NumError "Atoi" s "value out of range"))
                   else (v, None)))).
  { intros v. unfold is_int64, max_int64, min_int64.
    destruct (Z.ltb_spec (2 ^ 63 - 1) v); [cbn; lia|].
    destruct (Z.ltb_spec v (- 2 ^ 63)); cbn [fst]; lia. }
  destruct (list_ascii_of_string s) as [|c cs]; [exact Hzero|].
  set (body := match c :: cs with
               | "+"%char :: t => (false, t)
               | "-"%char :: t => (true, t)
               | _ => (false, c :: cs)
               end).
  destruct body as [neg [|d ds]]; [exact Hzero|].
  destruct (GoLib.digits (d :: ds) 0) as [n|]; [apply Hclamp|exact Hzero].
Qed.

(** C8: when [ReadGraphFile] returns a graph and the line of vertex [i]
    has no fields, [xadj[i+1]] of that graph is 0, the value the array
    was created with, whatever has been read into [adjncy] before; and
    there is a file for which the returned [xadj] decreases and does not
    end at [len(adjncy)].  The first part holds for every reader and
    every behaviour of [strings.Fields] and [strconv.Atoi]. *)
Theorem ReadGraphFile_blank_line_breaks_csr :
  (forall (R : Type) (sc : Scanner R)
          (Fields : string -> list string) (Atoi : string -> Z * option error),
      (forall s, is_int64 (fst (Atoi s))) ->
      forall (r : R) (g : Graph) (i : Z) (line : string),
        ReadGraphFile Fields Atoi r = Done (Some g, None) ->
        0 <= i < NumVertices g ->
        vertex_line r (Z.to_nat i) = Some line ->
        Fields line = [] ->
        index (Xadj g) (i + 1) = Done 0) /\
  (GoLib.ReadGraphString blank_line_file
     = Done (Some {| Xadj := Some [0; 1; 0]; Adjncy := Some [1];
                     Vwgt := None; Adjwgt := None |}, None) /\
   vertex_line (GoLib.NewScanner blank_line_file) 1 = Some "" /\
   ~ xadj_nondecreasing [0; 1; 0] /\
   last [0; 1; 0] <> Some (Z.of_nat (length [1])) /\
   ~ xadj_wellformed [0; 1; 0] [1]).
Proof.
  split.
  - intros R sc Fields Atoi HAtoi r g i line.
    apply (ReadGraphFile_blank_entry Fields Atoi HAtoi).
  - assert (Hdec : ~ xadj_nondecreasing [0; 1; 0]).
    { intros Hmono. specialize (Hmono 1%nat 1 0 eq_refl eq_refl). lia. }
    split; [vm_compute; reflexivity|]. split; [vm_compute; reflexivity|].
    split; [exact Hdec|]. split; [discriminate|].
    intros [Hmono _]. exact (Hdec Hmono).
Qed.

Lemma ReadGraphFile_blank_line_breaks_csr_witness :
  exists g,
    GoLib.ReadGraphString blank_line_file = Done (Some g, None) /\
    GoLib.Fields "" = [] /\
    index (Xadj g) (1 + 1) = Done 0.
Proof.
  exists {| Xadj := Some [0; 1; 0]; Adjncy := Some [1]; Vwgt := None; Adjwgt := None |}.
  split; [vm_compute; reflexivity|]. split; [reflexivity|].
  apply (proj1 ReadGraphFile_blank_line_breaks_csr GoLib.LineScanner GoLib.line_scanner
           GoLib.Fields GoLib.Atoi GoLib_Atoi_int (GoLib.NewScanner blank_line_file)
           _ 1 "").
  - vm_compute; reflexivity.
  - vm_compute. split; [discriminate|reflexivity].
  - vm_compute; reflexivity.
  - reflexivity.
Defined.

(** ** Balance *)

(** Without vertex weights, a pass of the weight loop goes on only for a
    part id that indexes [partWeights]. *)
Lemma add_weights_unit_step i p rest (partWeights w : list Z) :
  add_weights i (p :: rest) None partWeights = Done w ->
  0 <= p < Z.of_nat (length partWeights) /\
  exists partWeights',
    length partWeights' = length partWeights /\
    add_weights (i + 1) rest None partWeights' = Done w.
Proof.
  cbn [add_weights]. intros Hloop.
  apply bind_Done in Hloop. destruct Hloop as (weight & _ & Hloop).
  apply bind_Done in Hloop. destruct Hloop as (x & Hx & Hloop).
  apply bind_Done in Hloop. destruct Hloop as (partWeights' & Hstore & Hloop).
  unfold index in Hx.
  destruct (0 <=? p) eqn:Hge; destruct (p <? Z.of_nat (length partWeights)) eqn:Hlt;
    try discriminate.
  apply Z.leb_le in Hge. apply Z.ltb_lt in Hlt.
  split; [lia|]. exists partWeights'. split; [|exact Hloop].
  apply store_Done in Hstore. apply Hstore.
Qed.

(** Whatever the METIS library does, a partition of the four unit-weight
    vertices of the square graph into 3 parts that [PartGraphRecursive]
    returns has a heaviest part of weight at least 2, which is more than
    [1.10 * 4 / 3]: the statistics of [CalculatePartitionBalance] give
    [110 * totalWeight < 100 * nparts * maxWeight]. *)
Lemma square_three_parts_exceed_balance `{MetisHeader}
    (metis : metis_call -> metis_reply) (options part : slice Z)
    (objval minWeight maxWeight totalWeight : Z) :
  run metis (PartGraphRecursive square_xadj square_adjncy 3 options)
    = Returns (part, objval, None) ->
  CalculatePartitionBalance part None 3 = Done (minWeight, maxWeight, totalWeight) ->
  len part = 4 /\ totalWeight = 4 /\ 2 <= maxWeight /\
  110 * totalWeight < 100 * 3 * maxWeight.
Proof.
  intros Hrun Hstats.
  unfold PartGraphRecursive, square_xadj, square_adjncy in Hrun. cbv zeta in Hrun.
  peel_binds Hrun.
  match goal with
  | Hm : run _ (make _) = Returns _ |- _ => cbn in Hm; injection Hm as <-
  end.
  destruct (negb _) in Hrun; cbn [run] in Hrun; [discriminate Hrun|].
  injection Hrun as <- <-. cbv [written imap compose] in Hstats |- *.
  unfold CalculatePartitionBalance in Hstats.
  match type of Hstats with
  | context [array_out1 ?r _] => generalize dependent (array_out1 r)
  end.
  intros out Hstats.
  remember (int32 (out 0%nat)) as p0 eqn:E0.
  remember (int32 (out 1%nat)) as p1 eqn:E1.
  remember (int32 (out 2%nat)) as p2 eqn:E2.
  remember (int32 (out 3%nat)) as p3 eqn:E3.
  clear E0 E1 E2 E3 out.
  split; [reflexivity|].
  apply bind_Done in Hstats. destruct Hstats as (w0 & Hmake & Hstats).
  injection Hmake as <-.
  apply bind_Done in Hstats. destruct Hstats as (w & Hloop & Hstats).
  cbn [default] in Hloop.
  assert (Hids : (0 <= p0 < 3) /\ (0 <= p1 < 3) /\ (0 <= p2 < 3) /\ (0 <= p3 < 3)).
  { pose proof Hloop as Hl.
    apply add_weights_unit_step in Hl. destruct Hl as (Hp0 & pw1 & Hlen1 & Hl).
    apply add_weights_unit_step in Hl. destruct Hl as (Hp1 & pw2 & Hlen2 & Hl).
    apply add_weights_unit_step in Hl. destruct Hl as (Hp2 & pw3 & Hlen3 & Hl).
    apply add_weights_unit_step in Hl. destruct Hl as (Hp3 & _).
    rewrite Hlen3, Hlen2 in Hp3. rewrite Hlen2 in Hp2.
    rewrite Hlen1 in Hp1, Hp2, Hp3. cbn in Hp0, Hp1, Hp2, Hp3. lia. }
  destruct Hids as (Hp0 & Hp1 & Hp2 & Hp3).
  assert (Hc0 : p0 = 0 \/ p0 = 1 \/ p0 = 2) by lia.
  assert (Hc1 : p1 = 0 \/ p1 = 1 \/ p1 = 2) by lia.
  assert (Hc2 : p2 = 0 \/ p2 = 1 \/ p2 = 2) by lia.
  assert (Hc3 : p3 = 0 \/ p3 = 1 \/ p3 = 2) by lia.
  clear Hp0 Hp1 Hp2 Hp3.
  destruct Hc0 as [-> | [-> | ->]]; destruct Hc1 as [-> | [-> | ->]];
    destruct Hc2 as [-> | [-> | ->]]; destruct Hc3 as [-> | [-> | ->]];
    vm_compute in Hloop; injection Hloop as <-;
    vm_compute in Hstats; injection Hstats as <- <- <-;
    repeat split; (reflexivity || discriminate).
Qed.

(** * Further properties *)

(** ** Options and weights of the wrappers *)

Lemma options_ptr_wrong_length `{MetisHeader} (o : list Z) :
  len (Some o) <> NoOptions -> options_ptr (Some o) = Done None.
Proof.
  intros Hlen. unfold options_ptr.
  destruct (Z.eqb_spec (len (Some o)) NoOptions); [contradiction|reflexivity].
Qed.

(** X1: an options slice whose length is not [NoOptions] is dropped
    without notice: every wrapper that takes options is then the same
    computation as with nil options, so the library runs with its
    defaults. *)
Theorem wrong_length_options_are_dropped `{MetisHeader} (o : list Z) :
  len (Some o) <> NoOptions ->
  (forall xadj adjncy nparts,
     PartGraphRecursive xadj adjncy nparts (Some o)
     = PartGraphRecursive xadj adjncy nparts None) /\
  (forall xadj adjncy nparts,
     PartGraphKway xadj adjncy nparts (Some o)
     = PartGraphKway xadj adjncy nparts None) /\
  (forall xadj adjncy vwgt adjwgt nparts tpwgts ubvec,
     PartGraphRecursiveWeighted xadj adjncy vwgt adjwgt nparts tpwgts ubvec (Some o)
     = PartGraphRecursiveWeighted xadj adjncy vwgt adjwgt nparts tpwgts ubvec None) /\
  (forall xadj adjncy vwgt adjwgt nparts tpwgts ubvec,
     PartGraphKwayWeighted xadj adjncy vwgt adjwgt nparts tpwgts ubvec (Some o)
     = PartGraphKwayWeighted xadj adjncy vwgt adjwgt nparts tpwgts ubvec None) /\
  (forall ne nn eptr eind vwgt vsize nparts tpwgts,
     PartMeshNodal ne nn eptr eind vwgt vsize nparts tpwgts (Some o)
     = PartMeshNodal ne nn eptr eind vwgt vsize nparts tpwgts None) /\
  (forall ne nn eptr eind vwgt vsize ncommon nparts tpwgts,
     PartMeshDual ne nn eptr eind vwgt vsize ncommon nparts tpwgts (Some o)
     = PartMeshDual ne nn eptr eind vwgt vsize ncommon nparts tpwgts None) /\
  (forall xadj adjncy vwgt,
     NodeND xadj adjncy vwgt (Some o) = NodeND xadj adjncy vwgt None) /\
  (forall xadj adjncy vwgt,
     ComputeVertexSeparator xadj adjncy vwgt (Some o)
     = ComputeVertexSeparator xadj adjncy vwgt None).
Proof.
  intros Hlen. pose proof (options_ptr_wrong_length o Hlen) as Hdrop.
  repeat split; intros;
    unfold PartGraphRecursive, PartGraphKway, PartGraphRecursiveWeighted,
      PartGraphKwayWeighted, PartMeshNodal, PartMeshDual, NodeND,
      ComputeVertexSeparator;
    cbv zeta; rewrite Hdrop; reflexivity.
Qed.

Lemma wrong_length_options_are_dropped_witness :
  len (Some [1; 2; 3]) <> @NoOptions metis_5_1_0 /\
  trace metis_ok (@PartGraphKway metis_5_1_0 (Some [0; 1; 2]) (Some [1; 0]) 2 (Some [1; 2; 3]))
  = [C_METIS_PartGraphKway 2 1 [0; 1; 2] [1; 0] None None None 2 None None None].
Proof.
  assert (Hlen : len (Some [1; 2; 3]) <> @NoOptions metis_5_1_0)
    by (vm_compute; discriminate).
  split; [exact Hlen|].
  destruct (@wrong_length_options_are_dropped metis_5_1_0 [1; 2; 3] Hlen)
    as (_ & Hkway & _).
  rewrite Hkway. reflexivity.
Defined.

(** X2: the unweighted wrappers are the weighted ones called with nil
    weights, nil target weights and nil imbalance vector. *)
Theorem unweighted_is_weighted_with_nil `{MetisHeader}
    (xadj adjncy : slice Z) (nparts : Z) (options : slice Z) :
  PartGraphRecursive xadj adjncy nparts options
  = PartGraphRecursiveWeighted xadj adjncy None None nparts None None options /\
  PartGraphKway xadj adjncy nparts options
  = PartGraphKwayWeighted xadj adjncy None None nparts None None options.
Proof. split; reflexivity. Qed.

(** ** Sizes of the results *)

Lemma run_make (metis : metis_call -> metis_reply) (n : Z) (buf : list Z) :
  run metis (make n) = Returns buf ->
  0 <= n /\ buf = replicate (Z.to_nat n) 0.
Proof.
  unfold make. destruct (Z.ltb_spec n 0); [discriminate|].
  intros [= <-]. split; [assumption|reflexivity].
Qed.

Lemma len_written (out : nat -> Z) (n : Z) :
  0 <= n -> len (Some (written out (replicate (Z.to_nat n) 0))) = n.
Proof.
  intros Hn. unfold written. cbn [len].
  rewrite length_imap, length_replicate. lia.
Qed.

(** Brings the buffers that a returned wrapper allocated into the form
    [replicate _ 0]. *)
Ltac buffers :=
  repeat match goal with
  | Hm : run _ (make _) = Returns _ |- _ =>
      apply run_make in Hm; destruct Hm as [? ->]
  end.

(** X3: a partitioning or ordering operation that succeeds returns
    slices with one entry per vertex (per element and per node for a
    mesh), whatever the library does. *)
Theorem successful_results_have_one_entry_per_vertex `{MetisHeader}
    (c : public_call) (metis : metis_call -> metis_reply) (r : returned)
    (sizes : list Z) :
  result_lengths c = Some sizes ->
  run metis (invoke c) = Returns r ->
  err r = None ->
  map len (slices r) = sizes.
Proof.
  intros Hsizes Hrun Hok.
  destruct c; cbn [result_lengths] in Hsizes; try discriminate;
    injection Hsizes as <-; cbn [invoke] in Hrun;
    apply run_bind_Returns in Hrun; destruct Hrun as (res & Hres & Hrun);
    cbn [run] in Hrun; injection Hrun as <-.
  all: unfold PartGraphRecursive, PartGraphKway, PartGraphRecursiveWeighted,
         PartGraphKwayWeighted, PartMeshDual, PartMeshNodal, NodeND,
         ComputeVertexSeparator in Hres;
       cbv zeta in Hres.
  all: returned_steps Hres; try discriminate Hok; buffers.
  all: cbn [of_part_result of_mesh_result of_graph_result of_separator_result
            slices map];
       rewrite ?len_written by assumption; reflexivity.
Qed.

Lemma successful_results_have_one_entry_per_vertex_witness :
  map len [Some [0; 1]; Some [0; 1]] = [2; 2].
Proof.
  apply (@successful_results_have_one_entry_per_vertex metis_5_1_0
           (Op_NodeND (Some [0; 1; 2]) (Some [1; 0]) None None) metis_ok
           {| slices := [Some [0; 1]; Some [0; 1]]; scalars := []; err := None |}
           [2; 2]); reflexivity.
Defined.

(** ** Graphs made from a mesh *)

Lemma run_copy_c_array (metis : metis_call -> metis_reply) (p : nat -> Z) (n : Z)
    (l : list Z) :
  run metis (copy_c_array p n) = Returns l ->
  0 <= n /\ l = written p (replicate (Z.to_nat n) 0).
Proof.
  unfold copy_c_array. intros Hrun.
  apply run_bind_Returns in Hrun. destruct Hrun as (buf & Hbuf & Hrun).
  apply run_make in Hbuf. destruct Hbuf as [Hn ->].
  cbn [run] in Hrun. injection Hrun as <-. split; [assumption|reflexivity].
Qed.

Lemma run_index (metis : metis_call -> metis_reply) {A} (l : list A) (i : Z) (x : A) :
  run metis (index (Some l) i) = Returns x ->
  0 <= i < Z.of_nat (length l) /\ l !! Z.to_nat i = Some x.
Proof.
  unfold index.
  destruct (Z.leb_spec 0 i); destruct (Z.ltb_spec i (Z.of_nat (length l)));
    cbn [andb run]; try discriminate.
  destruct (l !! Z.to_nat i) as [y|]; [|discriminate].
  intros [= <-]. split; [lia|reflexivity].
Qed.

Lemma run_mesh_copy (metis : metis_call -> metis_reply) (out1 out2 : nat -> Z)
    (n : Z) (res : slice Z * slice Z * option error) :
  run metis
    (xadjSlice ← copy_c_array out1 (int32 (n + 1));
     adjSize ← index (Some xadjSlice) n;
     adjncySlice ← copy_c_array out2 adjSize;
     Done (Some xadjSlice, Some adjncySlice, None)) = Returns res ->
  exists xadj adjncy, res = (xadj, adjncy, None) /\ csr_of_size n xadj adjncy.
Proof.
  intros Hrun.
  apply run_bind_Returns in Hrun. destruct Hrun as (xs & Hxs & Hrun).
  apply run_bind_Returns in Hrun. destruct Hrun as (size & Hsize & Hrun).
  apply run_bind_Returns in Hrun. destruct Hrun as (adj & Hadj & Hrun).
  cbn [run] in Hrun. injection Hrun as <-.
  apply run_copy_c_array in Hxs. destruct Hxs as [Hn1 ->].
  apply run_copy_c_array in Hadj. destruct Hadj as [Hsz ->].
  apply run_index in Hsize. destruct Hsize as [Hn Hlast].
  unfold written in Hn. rewrite length_imap, length_replicate in Hn.
  exists (Some (written out1 (replicate (Z.to_nat (int32 (n + 1))) 0))),
         (Some (written out2 (replicate (Z.to_nat size) 0))).
  split; [reflexivity|].
  eexists _, _. split; [reflexivity|]. split; [reflexivity|].
  assert (Hlen : int32 (n + 1) = n + 1).
  { unfold int32 in *.
    assert (Hmod := Z.mod_pos_bound (n + 1 + 2 ^ 31) (2 ^ 32) ltac:(lia)).
    destruct (Z.le_gt_cases (2 ^ 31) (n + 1)) as [Hbig|Hsmall].
    - exfalso. lia.
    - rewrite Z.mod_small by lia. lia. }
  rewrite Hlen in *.
  rewrite !len_written by lia.
  split; [lia|]. split; [reflexivity|].
  rewrite last_lookup.
  unfold written at 1. rewrite length_imap, length_replicate.
  replace (Nat.pred (Z.to_nat (n + 1))) with (Z.to_nat n) by lia.
  exact Hlast.
Qed.

(** The arrays of a mesh graph that the library built: the index array
    ends at the length of the adjacency array. *)
Lemma mesh_graph_csr `{MetisHeader}
    (metis : metis_call -> metis_reply) (ne nn : Z) (eptr eind : slice Z)
    (ncommon : Z) (xadj adjncy : slice Z) :
  (run metis (MeshToDual ne nn eptr eind ncommon) = Returns (xadj, adjncy, None) ->
   csr_of_size ne xadj adjncy) /\
  (run metis (MeshToNodal ne nn eptr eind) = Returns (xadj, adjncy, None) ->
   csr_of_size nn xadj adjncy).
Proof.
  split; intros Hrun; unfold MeshToDual, MeshToNodal in Hrun; cbv zeta in Hrun;
    peel_binds Hrun;
    (destruct (negb _) in Hrun; [cbn [run] in Hrun; discriminate Hrun|]);
    apply run_mesh_copy in Hrun; destruct Hrun as (xs' & adj' & [= <- <-] & Hcsr);
    exact Hcsr.
Qed.

(** X4: when [MeshToDual] or [MeshToNodal] succeeds, the index array it
    returns has one entry more than there are elements (nodes), and its
    last entry is the length of the returned adjacency array. *)
Theorem mesh_graphs_end_at_their_adjacency `{MetisHeader}
    (metis : metis_call -> metis_reply) (ne nn : Z) (eptr eind : slice Z)
    (ncommon : Z) (xadj adjncy : slice Z) :
  (run metis (MeshToDual ne nn eptr eind ncommon) = Returns (xadj, adjncy, None) ->
   csr_of_size ne xadj adjncy) /\
  (run metis (MeshToNodal ne nn eptr eind) = Returns (xadj, adjncy, None) ->
   csr_of_size nn xadj adjncy).
Proof. exact (mesh_graph_csr metis ne nn eptr eind ncommon xadj adjncy). Qed.

Lemma mesh_graphs_end_at_their_adjacency_witness :
  run metis_two_elements
    (@MeshToDual metis_5_1_0 2 4 (Some [0; 3; 6]) (Some [0; 1; 2; 1; 2; 3]) 2)
  = Returns (Some [0; 1; 2], Some [1; 0], None) /\
  csr_of_size 2 (Some [0; 1; 2]) (Some [1; 0]).
Proof.
  split; [reflexivity|].
  apply (proj1 (@mesh_graphs_end_at_their_adjacency metis_5_1_0 metis_two_elements
                  2 4 (Some [0; 3; 6]) (Some [0; 1; 2; 1; 2; 3]) 2
                  (Some [0; 1; 2]) (Some [1; 0]))).
  reflexivity.
Defined.

(** X5: [ConvertMeshToGraph] returns either an error and no graph, or a
    graph without weights that has one vertex per element (dual) or per
    node (nodal) and whose index array ends at the length of its
    adjacency array. *)
Theorem ConvertMeshToGraph_result `{MetisHeader}
    (metis : metis_call -> metis_reply) (ne nn : Z) (eptr eind : slice Z)
    (dual : bool) (ncommon : Z) (g : option Graph) (e : option error) :
  run metis (ConvertMeshToGraph ne nn eptr eind dual ncommon) = Returns (g, e) ->
  (e <> None /\ g = None) \/
  (e = None /\
   exists gr, g = Some gr /\
     Vwgt gr = None /\ Adjwgt gr = None /\
     NumVertices gr = (if dual then ne else nn) /\
     csr_of_size (if dual then ne else nn) (Xadj gr) (Adjncy gr)).
Proof.
  intros Hrun. unfold ConvertMeshToGraph in Hrun.
  apply run_bind_Returns in Hrun. destruct Hrun as ([[xadj adjncy] err] & Hmesh & Hrun).
  destruct err as [e'|]; cbn [run] in Hrun; injection Hrun as <- <-.
  - left. split; [discriminate|reflexivity].
  - right. split; [reflexivity|]. eexists. split; [reflexivity|].
    cbn [Vwgt Adjwgt Xadj Adjncy]. split; [reflexivity|]. split; [reflexivity|].
    assert (Hcsr : csr_of_size (if dual then ne else nn) xadj adjncy).
    { destruct dual.
      - apply (proj1 (mesh_graph_csr metis ne nn eptr eind
                        ncommon xadj adjncy) Hmesh).
      - apply (proj2 (mesh_graph_csr metis ne nn eptr eind
                        ncommon xadj adjncy) Hmesh). }
    split; [|exact Hcsr].
    destruct Hcsr as (xs & adj & -> & _ & _ & Hlen & _).
    unfold NumVertices. cbn [Xadj]. lia.
Qed.

Lemma ConvertMeshToGraph_result_witness :
  run metis_two_elements
    (@ConvertMeshToGraph metis_5_1_0 2 4 (Some [0; 3; 6]) (Some [0; 1; 2; 1; 2; 3])
       true 2)
  = Returns (Some {| Xadj := Some [0; 1; 2]; Adjncy := Some [1; 0];
                     Vwgt := None; Adjwgt := None |}, None) /\
  NumVertices {| Xadj := Some [0; 1; 2]; Adjncy := Some [1; 0];
                 Vwgt := None; Adjwgt := None |} = 2.
Proof.
  split; [reflexivity|].
  destruct (@ConvertMeshToGraph_result metis_5_1_0 metis_two_elements 2 4
              (Some [0; 3; 6]) (Some [0; 1; 2; 1; 2; 3]) true 2 _ _ eq_refl)
    as [[Hne _]|(_ & gr & Hg & _ & _ & Hn & _)].
  - exfalso. apply Hne. reflexivity.
  - injection Hg as <-. exact Hn.
Defined.

(** ** Vertices, degrees and neighbours *)

Lemma index_Done {A} (s : slice A) (i : Z) (x : A) :
  index s i = Done x ->
  exists l, s = Some l /\ 0 <= i < Z.of_nat (length l) /\ l !! Z.to_nat i = Some x.
Proof.
  unfold index. destruct s as [l|]; [|discriminate].
  destruct (Z.leb_spec 0 i); destruct (Z.ltb_spec i (Z.of_nat (length l)));
    cbn [andb]; try discriminate.
  destruct (l !! Z.to_nat i) as [y|] eqn:Hy; [|discriminate].
  intros [= <-]. exists l. split; [reflexivity|]. split; [lia|assumption].
Qed.

Lemma index_in_range {A} (l : list A) (i : Z) :
  0 <= i < Z.of_nat (length l) -> exists x, index (Some l) i = Done x.
Proof.
  intros Hi. destruct (lookup_lt_is_Some_2 l (Z.to_nat i)) as [x Hx]; [lia|].
  exists x. apply index_Some; [lia|assumption].
Qed.

(** X6: [Degree] returns exactly for the vertices of the graph,
    [0 <= v < NumVertices()], and panics for every other argument. *)
Theorem Degree_returns_iff_vertex (g : Graph) (v : Z) :
  len (Xadj g) <= max_int64 -> is_int64 v ->
  ((exists d, Degree g v = Done d) <-> 0 <= v < NumVertices g).
Proof.
  intros Hlen Hv. unfold Degree, NumVertices, max_int64, is_int64 in *.
  split.
  - intros (d & Hd).
    apply bind_Done in Hd. destruct Hd as (a & Ha & Hd).
    apply bind_Done in Hd. destruct Hd as (b & Hb & _).
    apply index_Done in Ha. destruct Ha as (l & Hl & Hnext & _).
    apply index_Done in Hb. destruct Hb as (l' & Hl' & Hthis & _).
    rewrite Hl in Hl'. injection Hl' as <-. rewrite Hl in *. cbn [len] in *.
    destruct (Z.eq_dec v (2 ^ 63 - 1)) as [->|Hmax].
    + vm_compute in Hnext. destruct Hnext as [Hneg _]. exfalso. apply Hneg. reflexivity.
    + rewrite int64_id in Hnext by (unfold is_int64; lia). lia.
  - intros Hrange. destruct (Xadj g) as [l|]; cbn [len] in *; [|lia].
    rewrite int64_id by (unfold is_int64; lia).
    destruct (index_in_range l (v + 1)) as (a & ->); [lia|].
    destruct (index_in_range l v) as (b & ->); [lia|].
    cbn. eauto.
Qed.

Lemma Degree_returns_iff_vertex_witness :
  (exists d, Degree {| Xadj := Some [0; 2; 3]; Adjncy := Some [1; 1; 0];
                        Vwgt := None; Adjwgt := None |} 1 = Done d) /\
  ~ (exists d, Degree {| Xadj := Some [0; 2; 3]; Adjncy := Some [1; 1; 0];
                          Vwgt := None; Adjwgt := None |} 2 = Done d).
Proof.
  assert (Hlen : len (Some [0; 2; 3]) <= max_int64) by (vm_compute; discriminate).
  assert (H1 : is_int64 1) by (unfold is_int64; lia).
  assert (H2 : is_int64 2) by (unfold is_int64; lia).
  split.
  - apply (Degree_returns_iff_vertex
             {| Xadj := Some [0; 2; 3]; Adjncy := Some [1; 1; 0];
                Vwgt := None; Adjwgt := None |} 1 Hlen H1).
    unfold NumVertices. cbn. lia.
  - intros Hd.
    apply (Degree_returns_iff_vertex
             {| Xadj := Some [0; 2; 3]; Adjncy := Some [1; 1; 0];
                Vwgt := None; Adjwgt := None |} 2 Hlen H2) in Hd.
    unfold NumVertices in Hd. cbn in Hd. lia.
Defined.

Lemma nondecreasing_le (xs : list Z) :
  xadj_nondecreasing xs ->
  forall k i a b, xs !! i = Some a -> xs !! (i + k)%nat = Some b -> a <= b.
Proof.
  intros Hmono k. induction k as [|k IH]; intros i a b Ha Hb.
  - rewrite Nat.add_0_r in Hb. rewrite Ha in Hb. injection Hb as <-. lia.
  - destruct (lookup_lt_is_Some_2 xs (i + k)%nat) as [c Hc].
    { apply lookup_lt_Some in Hb. lia. }
    specialize (IH i a c Ha Hc).
    replace (i + S k)%nat with (S (i + k)) in Hb by lia.
    specialize (Hmono _ _ _ Hc Hb). lia.
Qed.

Lemma wellformed_bounds (xs adj : list Z) (i : nat) (a b : Z) :
  xadj_wellformed xs adj ->
  xs !! i = Some a -> xs !! S i = Some b ->
  0 <= a <= b /\ b <= Z.of_nat (length adj).
Proof.
  intros (Hmono & Hzero & Hlast) Ha Hb.
  split.
  - split; [eapply nondecreasing_from_zero; eauto|eapply Hmono; eauto].
  - rewrite last_lookup in Hlast.
    assert (Hlt : (S i < length xs)%nat) by (eapply lookup_lt_Some; eauto).
    apply (nondecreasing_le xs Hmono (Nat.pred (length xs) - S i) (S i) b _ Hb).
    replace (S i + (Nat.pred (length xs) - S i))%nat with (Nat.pred (length xs)) by lia.
    exact Hlast.
Qed.

(** The neighbours of a vertex are its segment of the adjacency array. *)
Lemma Neighbors_segment (g : Graph) (xs adj spare : list Z) (v : Z) :
  Xadj g = Some xs -> Adjncy g = Some adj ->
  xadj_wellformed xs adj ->
  len (Xadj g) <= max_int64 ->
  0 <= v < NumVertices g ->
  exists a b,
    xs !! Z.to_nat v = Some a /\ xs !! Z.to_nat (v + 1) = Some b /\
    Neighbors g spare v = Done (Some (segment xs adj (Z.to_nat v))) /\
    Z.of_nat (length (segment xs adj (Z.to_nat v))) = b - a.
Proof.
  intros Hx Hadj Hwf Hlen Hv.
  unfold NumVertices, Neighbors, max_int64 in *. rewrite Hx, Hadj in *. cbn [len] in *.
  destruct (lookup_lt_is_Some_2 xs (Z.to_nat v)) as [a Ha]; [lia|].
  destruct (lookup_lt_is_Some_2 xs (Z.to_nat (v + 1))) as [b Hb]; [lia|].
  exists a, b. split; [exact Ha|]. split; [exact Hb|].
  assert (Hb' : xs !! S (Z.to_nat v) = Some b).
  { replace (S (Z.to_nat v)) with (Z.to_nat (v + 1)) by lia. exact Hb. }
  destruct (wellformed_bounds xs adj _ a b Hwf Ha Hb') as [Hab Hbn].
  rewrite int64_id by (unfold is_int64; lia).
  rewrite (index_Some xs v a) by (assumption || lia).
  rewrite (index_Some xs (v + 1) b) by (assumption || lia).
  cbn [mbind go_mbind go_bind]. unfold reslice, segment. rewrite Ha, Hb'.
  rewrite length_app.
  replace ((0 <=? a) && (a <=? b) && (b <=? Z.of_nat (length adj + length spare)))
    with true by (symmetry; rewrite !andb_true_iff, !Z.leb_le; lia).
  split.
  - do 2 f_equal. rewrite drop_app_le by lia.
    rewrite take_app_le; [reflexivity|]. rewrite length_drop. lia.
  - rewrite length_take, length_drop. lia.
Qed.

(** X7: on a well-formed graph [Neighbors(v)] returns, for every vertex,
    the entries of [Adjncy] from [Xadj[v]] up to [Xadj[v+1]], whatever
    capacity [Adjncy] has; their number is [Xadj[v+1] - Xadj[v]]. *)
Theorem Neighbors_is_segment (g : Graph) (xs adj spare : list Z) (v : Z) :
  Xadj g = Some xs -> Adjncy g = Some adj ->
  xadj_wellformed xs adj ->
  len (Xadj g) <= max_int64 ->
  0 <= v < NumVertices g ->
  exists a b,
    xs !! Z.to_nat v = Some a /\ xs !! Z.to_nat (v + 1) = Some b /\
    Neighbors g spare v = Done (Some (segment xs adj (Z.to_nat v))) /\
    Z.of_nat (length (segment xs adj (Z.to_nat v))) = b - a.
Proof. exact (Neighbors_segment g xs adj spare v). Qed.

Lemma Neighbors_is_segment_witness :
  Neighbors {| Xadj := Some [0; 2; 3]; Adjncy := Some [1; 2; 0];
               Vwgt := None; Adjwgt := None |} [7; 7] 0 = Done (Some [1; 2]).
Proof.
  assert (Hwf : xadj_wellformed [0; 2; 3] [1; 2; 0]).
  { repeat split; try reflexivity.
    intros [|[|[|i]]] a b Ha' Hb'; simpl in *; try discriminate;
      injection Ha' as <-; injection Hb' as <-; lia. }
  destruct (Neighbors_is_segment
              {| Xadj := Some [0; 2; 3]; Adjncy := Some [1; 2; 0];
                 Vwgt := None; Adjwgt := None |}
              [0; 2; 3] [1; 2; 0] [7; 7] 0 eq_refl eq_refl Hwf)
    as (a & b & _ & _ & Hn & _).
  - vm_compute. discriminate.
  - unfold NumVertices. cbn. lia.
  - exact Hn.
Defined.

Lemma segments_prefix (xs adj : list Z) :
  xadj_wellformed xs adj ->
  forall k c, xs !! k = Some c ->
    concat (map (segment xs adj) (seq 0 k)) = take (Z.to_nat c) adj.
Proof.
  intros Hwf k. induction k as [|k IH]; intros c Hc.
  - destruct Hwf as (_ & Hzero & _). rewrite Hzero in Hc. injection Hc as <-.
    reflexivity.
  - destruct (lookup_lt_is_Some_2 xs k) as [a Ha].
    { apply lookup_lt_Some in Hc. lia. }
    destruct (wellformed_bounds xs adj k a c Hwf Ha Hc) as [Hac _].
    rewrite seq_S, map_app, concat_app, (IH a Ha). cbn [map concat Nat.add].
    rewrite app_nil_r. unfold segment. rewrite Ha, Hc.
    rewrite take_take_drop. f_equal. lia.
Qed.

(** X8: on a well-formed graph the neighbour lists of the vertices
    [0 .. NumVertices()-1], one after the other, are the adjacency array:
    [Neighbors] returns each entry of [Adjncy] once, in order. *)
Theorem Neighbors_cover_Adjncy (g : Graph) (xs adj spare : list Z) :
  Xadj g = Some xs -> Adjncy g = Some adj ->
  xadj_wellformed xs adj ->
  len (Xadj g) <= max_int64 ->
  exists lists,
    Forall2 (fun v l => Neighbors g spare (Z.of_nat v) = Done (Some l))
      (seq 0 (Z.to_nat (NumVertices g))) lists /\
    concat lists = adj.
Proof.
  intros Hx Hadj Hwf Hlen.
  exists (map (segment xs adj) (seq 0 (Z.to_nat (NumVertices g)))). split.
  - apply Forall2_fmap_r, Forall_Forall2_diag, Forall_forall.
    intros v Hin. apply elem_of_seq in Hin.
    destruct (Neighbors_segment g xs adj spare (Z.of_nat v) Hx Hadj Hwf Hlen)
      as (a & b & _ & _ & Hn & _); [lia|].
    rewrite Nat2Z.id in Hn. exact Hn.
  - pose proof Hwf as (_ & Hzero & Hlast).
    rewrite last_lookup in Hlast.
    unfold NumVertices. rewrite Hx. cbn [len].
    replace (Z.to_nat (Z.of_nat (length xs) - 1)) with (Nat.pred (length xs)) by lia.
    rewrite (segments_prefix xs adj Hwf _ _ Hlast).
    rewrite Nat2Z.id. apply take_ge. lia.
Qed.

Lemma Neighbors_cover_Adjncy_witness :
  exists lists,
    Forall2 (fun v l =>
               Neighbors {| Xadj := Some [0; 2; 3]; Adjncy := Some [1; 2; 0];
                            Vwgt := None; Adjwgt := None |} [] (Z.of_nat v)
               = Done (Some l)) [0; 1]%nat lists /\
    concat lists = [1; 2; 0].
Proof.
  assert (Hwf : xadj_wellformed [0; 2; 3] [1; 2; 0]).
  { repeat split; try reflexivity.
    intros [|[|[|i]]] a b Ha' Hb'; simpl in *; try discriminate;
      injection Ha' as <-; injection Hb' as <-; lia. }
  assert (Hlen : len (Some [0; 2; 3]) <= max_int64) by (vm_compute; discriminate).
  exact (Neighbors_cover_Adjncy
           {| Xadj := Some [0; 2; 3]; Adjncy := Some [1; 2; 0];
              Vwgt := None; Adjwgt := None |}
           [0; 2; 3] [1; 2; 0] [] eq_refl eq_refl Hwf Hlen).
Defined.

(** ** The edge cut *)

Lemma index_map (f : Z -> Z) (l : list Z) (i : Z) :
  index (Some (map f l)) i = x ← index (Some l) i; Done (f x).
Proof.
  unfold index. rewrite length_map.
  destruct ((0 <=? i) && (i <? Z.of_nat (length l))); [|reflexivity].
  change (map f l) with (f <$> l). rewrite list_lookup_fmap.
  destruct (l !! Z.to_nat i); reflexivity.
Qed.

Lemma index_no_call {A} (s : slice A) (i : Z) :
  (exists x, index s i = Done x) \/ index s i = Panic.
Proof.
  unfold index. destruct s as [l|]; [|now right].
  destruct ((0 <=? i) && (i <? Z.of_nat (length l))); [|now right].
  destruct (l !! Z.to_nat i); eauto.
Qed.

Lemma cut_edges_relabel (f : Z -> Z) (g : Graph) (l : list Z) :
  (forall a b, f a = f b -> a = b) ->
  forall n i j edgeCut,
    cut_edges n g (Some (map f l)) i j edgeCut = cut_edges n g (Some l) i j edgeCut.
Proof.
  intros Hinj n. induction n as [|n IH]; intros i j edgeCut; [reflexivity|].
  cbn [cut_edges].
  destruct (index_no_call (Adjncy g) j) as [(u & ->)| ->]; [|reflexivity].
  cbn [mbind go_mbind go_bind]. rewrite !index_map.
  destruct (index_no_call (Some l) i) as [(a & ->)| ->]; [|reflexivity].
  destruct (index_no_call (Some l) u) as [(b & ->)| ->]; [|reflexivity].
  cbn [mbind go_mbind go_bind].
  replace (f a =? f b) with (a =? b).
  - destruct (negb (a =? b)); [|apply IH].
    destruct (Adjwgt g); [|apply IH].
    destruct (index_no_call (Some l0) j) as [(w & ->)| ->]; [apply IH|reflexivity].
  - destruct (Z.eqb_spec a b) as [->|Hne]; [now rewrite Z.eqb_refl|].
    symmetry. apply Z.eqb_neq. intros Hf. apply Hne, Hinj, Hf.
Qed.

Lemma cut_edges_no_call (g : Graph) (part : slice Z) :
  forall n i j edgeCut,
    (exists c, cut_edges n g part i j edgeCut = Done c) \/
    cut_edges n g part i j edgeCut = Panic.
Proof.
  intros n. induction n as [|n IH]; intros i j edgeCut; [left; eexists; reflexivity|].
  cbn [cut_edges].
  destruct (index_no_call (Adjncy g) j) as [(u & ->)| ->]; [|now right].
  cbn [mbind go_mbind go_bind].
  destruct (index_no_call part i) as [(a & ->)| ->]; [|now right].
  destruct (index_no_call part u) as [(b & ->)| ->]; [|now right].
  cbn [mbind go_mbind go_bind].
  destruct (negb (a =? b)); [|apply IH].
  destruct (Adjwgt g) as [ws|]; [|apply IH].
  destruct (index_no_call (Some ws) j) as [(w & ->)| ->]; [apply IH|now right].
Qed.

Lemma cut_vertices_relabel (f : Z -> Z) (g : Graph) (l : list Z) :
  (forall a b, f a = f b -> a = b) ->
  forall n i edgeCut,
    cut_vertices n g (Some (map f l)) i edgeCut = cut_vertices n g (Some l) i edgeCut.
Proof.
  intros Hinj n. induction n as [|n IH]; intros i edgeCut; [reflexivity|].
  cbn [cut_vertices].
  destruct (index_no_call (Xadj g) i) as [(a & ->)| ->]; [|reflexivity].
  destruct (index_no_call (Xadj g) (i + 1)) as [(b & ->)| ->]; [|reflexivity].
  cbn [mbind go_mbind go_bind]. rewrite (cut_edges_relabel f g l Hinj).
  destruct (cut_edges_no_call g (Some l) (Z.to_nat (b - a)) i a edgeCut)
    as [(c & ->)| ->]; [apply IH|reflexivity].
Qed.

(** X9: the edge cut does not depend on how the parts are numbered:
    renaming the part ids by an injective function gives the same result,
    and the same panics. *)
Theorem CalculateEdgeCut_relabel (f : Z -> Z) (g : Graph) (part : slice Z) :
  (forall a b, f a = f b -> a = b) ->
  CalculateEdgeCut g (map f <$> part) = CalculateEdgeCut g part.
Proof.
  intros Hinj. destruct part as [l|]; [|reflexivity].
  unfold CalculateEdgeCut. cbn [fmap option_fmap option_map].
  rewrite (cut_vertices_relabel f g l Hinj). reflexivity.
Qed.

Lemma CalculateEdgeCut_relabel_witness :
  CalculateEdgeCut {| Xadj := Some [0; 1; 2]; Adjncy := Some [1; 0];
                      Vwgt := None; Adjwgt := None |} (Some [5; 3])
  = CalculateEdgeCut {| Xadj := Some [0; 1; 2]; Adjncy := Some [1; 0];
                        Vwgt := None; Adjwgt := None |} (Some [0; 1]).
Proof.
  apply (CalculateEdgeCut_relabel (fun p => 5 - 2 * p)
           {| Xadj := Some [0; 1; 2]; Adjncy := Some [1; 0];
              Vwgt := None; Adjwgt := None |} (Some [0; 1])).
  intros a b Hab. lia.
Defined.

Lemma cut_edges_unit_weights (x adjncy vw : slice Z) (part : slice Z) :
  forall n i j edgeCut,
    cut_edges n {| Xadj := x; Adjncy := adjncy; Vwgt := vw; Adjwgt := None |}
      part i j edgeCut
    = cut_edges n {| Xadj := x; Adjncy := adjncy; Vwgt := vw;
                     Adjwgt := Some (replicate (Z.to_nat (len adjncy)) 1) |}
        part i j edgeCut.
Proof.
  intros n. induction n as [|n IH]; intros i j edgeCut; [reflexivity|].
  cbn [cut_edges Adjncy Adjwgt].
  destruct (index_no_call adjncy j) as [(u & Hu)| ->]; [|reflexivity].
  rewrite Hu. cbn [mbind go_mbind go_bind].
  destruct (index_no_call part i) as [(a & ->)| ->]; [|reflexivity].
  destruct (index_no_call part u) as [(b & ->)| ->]; [|reflexivity].
  cbn [mbind go_mbind go_bind].
  destruct (negb (a =? b)); [|apply IH].
  apply index_Done in Hu. destruct Hu as (adj & -> & Hj & _). cbn [len].
  rewrite (index_Some _ j 1); [apply IH|lia|].
  apply lookup_replicate_2. lia.
Qed.

(** X10: an absent edge-weight array counts every edge with weight 1:
    [CalculateEdgeCut] on a graph with nil [Adjwgt] is the same
    computation as on the graph with one weight 1 per adjacency entry. *)
Theorem CalculateEdgeCut_nil_weights_are_unit (x adjncy vw part : slice Z) :
  CalculateEdgeCut {| Xadj := x; Adjncy := adjncy; Vwgt := vw; Adjwgt := None |} part
  = CalculateEdgeCut {| Xadj := x; Adjncy := adjncy; Vwgt := vw;
                        Adjwgt := Some (replicate (Z.to_nat (len adjncy)) 1) |} part.
Proof.
  unfold CalculateEdgeCut, NumVertices. cbn [Xadj]. f_equal.
  generalize (Z.to_nat (len x - 1)). intros n.
  generalize 0 at 1 3. generalize 0.
  induction n as [|n IH]; intros edgeCut i; [reflexivity|].
  cbn [cut_vertices Xadj].
  destruct (index_no_call x i) as [(a & ->)| ->]; [|reflexivity].
  destruct (index_no_call x (i + 1)) as [(b & ->)| ->]; [|reflexivity].
  cbn [mbind go_mbind go_bind]. rewrite <- cut_edges_unit_weights.
  destruct (cut_edges_no_call
              {| Xadj := x; Adjncy := adjncy; Vwgt := vw; Adjwgt := None |}
              part (Z.to_nat (b - a)) i a edgeCut) as [(c & ->)| ->];
    [apply IH|reflexivity].
Qed.

(** ** Bounds of the edge cut *)

Section EdgeCutBounds.

Variable g : Graph.
Variables xs adj part : list Z.
Hypothesis Hxadj : Xadj g = Some xs.
Hypothesis Hadjncy : Adjncy g = Some adj.
Hypothesis Hwf : xadj_wellformed xs adj.
Hypothesis Hcovers : covers part adj (NumVertices g).

Lemma covered_neighbor (j : Z) :
  0 <= j < Z.of_nat (length adj) ->
  exists u p, index (Adjncy g) j = Done u /\ index (Some part) u = Done p.
Proof.
  intros Hj. rewrite Hadjncy.
  destruct (lookup_lt_is_Some_2 adj (Z.to_nat j)) as [u Hu]; [lia|].
  destruct Hcovers as [_ Hall]. rewrite Forall_forall in Hall.
  assert (Hrange : 0 <= u < Z.of_nat (length part)).
  { apply Hall. eapply list_elem_of_lookup_2; eauto. }
  destruct (index_in_range part u Hrange) as (p & Hp).
  exists u, p. split; [apply index_Some; [lia|assumption]|assumption].
Qed.

(** Without edge weights a pass over [n] adjacency entries adds between
    0 and [n] to the cut. *)
Lemma cut_edges_count :
  Adjwgt g = None ->
  forall n i j edgeCut,
    0 <= i < Z.of_nat (length part) ->
    0 <= j -> j + Z.of_nat n <= Z.of_nat (length adj) ->
    0 <= edgeCut -> edgeCut + Z.of_nat n < 2 ^ 31 ->
    exists c, cut_edges n g (Some part) i j edgeCut = Done c /\
              edgeCut <= c <= edgeCut + Z.of_nat n.
Proof.
  intros Hunit n. induction n as [|n IH]; intros i j edgeCut Hi Hj Hend Hcut Hmax.
  - exists edgeCut. split; [reflexivity|lia].
  - cbn [cut_edges].
    destruct (covered_neighbor j) as (u & p & -> & Hp); [lia|].
    cbn [mbind go_mbind go_bind].
    destruct (index_in_range part i Hi) as (q & ->). rewrite Hp, Hunit.
    cbn [mbind go_mbind go_bind].
    destruct (negb (q =? p)); cbn [mbind go_mbind go_bind].
    + rewrite int32_id by (unfold is_int32; lia).
      destruct (IH i (j + 1) (edgeCut + 1)) as (c & -> & Hc); try lia.
      exists c. split; [reflexivity|lia].
    + destruct (IH i (j + 1) edgeCut) as (c & -> & Hc); try lia.
      exists c. split; [reflexivity|lia].
Qed.

(** When all vertices are in one part a pass leaves the cut as it is,
    with or without edge weights. *)
Lemma cut_edges_one_part (p : Z) :
  Forall (fun q => q = p) part ->
  forall n i j edgeCut,
    0 <= i < Z.of_nat (length part) ->
    0 <= j -> j + Z.of_nat n <= Z.of_nat (length adj) ->
    cut_edges n g (Some part) i j edgeCut = Done edgeCut.
Proof.
  intros Hone n. induction n as [|n IH]; intros i j edgeCut Hi Hj Hend; [reflexivity|].
  cbn [cut_edges].
  destruct (covered_neighbor j) as (u & q & -> & Hq); [lia|].
  cbn [mbind go_mbind go_bind].
  destruct (index_in_range part i Hi) as (r & Hr). rewrite Hr, Hq.
  cbn [mbind go_mbind go_bind].
  rewrite Forall_forall in Hone.
  apply index_Done in Hr. destruct Hr as (l & [= <-] & _ & Hr).
  apply index_Done in Hq. destruct Hq as (l & [= <-] & _ & Hq).
  rewrite (Hone r), (Hone q) by (eapply list_elem_of_lookup_2; eauto).
  rewrite Z.eqb_refl. cbn [negb mbind go_mbind go_bind].
  apply IH; lia.
Qed.

Lemma vertex_bounds (i : Z) :
  0 <= i < NumVertices g ->
  exists a b,
    index (Xadj g) i = Done a /\ index (Xadj g) (i + 1) = Done b /\
    xs !! Z.to_nat i = Some a /\ xs !! S (Z.to_nat i) = Some b /\
    0 <= a <= b /\ b <= Z.of_nat (length adj) /\
    0 <= i < Z.of_nat (length part).
Proof.
  intros Hi. unfold NumVertices in *. rewrite Hxadj in *. cbn [len] in *.
  destruct (lookup_lt_is_Some_2 xs (Z.to_nat i)) as [a Ha]; [lia|].
  destruct (lookup_lt_is_Some_2 xs (S (Z.to_nat i))) as [b Hb]; [lia|].
  destruct (wellformed_bounds xs adj _ a b Hwf Ha Hb) as [Hab Hbn].
  exists a, b. rewrite (index_Some xs i a) by (assumption || lia).
  rewrite (index_Some xs (i + 1) b);
    [|lia|replace (Z.to_nat (i + 1)) with (S (Z.to_nat i)) by lia; assumption].
  destruct Hcovers as [Hn _]. repeat split; try assumption; lia.
Qed.

Lemma cut_vertices_count :
  Adjwgt g = None -> Z.of_nat (length adj) < 2 ^ 31 ->
  forall n i a edgeCut,
    0 <= i -> i + Z.of_nat n = NumVertices g ->
    xs !! Z.to_nat i = Some a -> 0 <= edgeCut <= a ->
    exists c, cut_vertices n g (Some part) i edgeCut = Done c /\
              0 <= c <= Z.of_nat (length adj).
Proof.
  intros Hunit Hsmall n. induction n as [|n IH]; intros i a edgeCut Hi Hn Ha Hcut.
  - exists edgeCut. split; [reflexivity|].
    destruct Hwf as (Hmono & _ & Hlast). rewrite last_lookup in Hlast.
    unfold NumVertices in Hn. rewrite Hxadj in Hn. cbn [len] in Hn.
    replace (Nat.pred (length xs)) with (Z.to_nat i) in Hlast by lia.
    rewrite Ha in Hlast. injection Hlast as ->. lia.
  - cbn [cut_vertices].
    destruct (vertex_bounds i) as (a' & b & -> & -> & Ha' & Hb & Hab & Hbn & Hip); [lia|].
    rewrite Ha in Ha'. injection Ha' as <-.
    cbn [mbind go_mbind go_bind].
    destruct (cut_edges_count Hunit (Z.to_nat (b - a)) i a edgeCut)
      as (c & -> & Hc); try lia.
    cbn [mbind go_mbind go_bind].
    apply (IH (i + 1) b c); try lia.
    replace (Z.to_nat (i + 1)) with (S (Z.to_nat i)) by lia. assumption.
Qed.

Lemma cut_vertices_one_part (p : Z) :
  Forall (fun q => q = p) part ->
  forall n i edgeCut,
    0 <= i -> i + Z.of_nat n = NumVertices g ->
    cut_vertices n g (Some part) i edgeCut = Done edgeCut.
Proof.
  intros Hone n. induction n as [|n IH]; intros i edgeCut Hi Hn; [reflexivity|].
  cbn [cut_vertices].
  destruct (vertex_bounds i) as (a & b & -> & -> & _ & _ & Hab & Hbn & Hip); [lia|].
  cbn [mbind go_mbind go_bind].
  rewrite (cut_edges_one_part p Hone); try lia.
  cbn [mbind go_mbind go_bind]. apply IH; lia.
Qed.

End EdgeCutBounds.

(** Checks [xadj_wellformed] on arrays given in full. *)
Ltac concrete_wellformed :=
  repeat split; try reflexivity;
  let i := fresh "i" in
  let a := fresh "a" in
  let b := fresh "b" in
  let Ha := fresh "Ha" in
  let Hb := fresh "Hb" in
  intros i a b Ha Hb;
  repeat (destruct i as [|i];
          [ simpl in Ha, Hb;
            first [ discriminate | injection Ha as <-; injection Hb as <-; lia ]
          | simpl in Ha, Hb; try discriminate ]).

(** X11: on a well-formed graph without edge weights, with fewer than
    [2^31] adjacency entries and a partition vector that covers it,
    [CalculateEdgeCut] returns a value between 0 and [NumEdges()]. *)
Theorem CalculateEdgeCut_at_most_NumEdges (g : Graph) (xs adj part : list Z) :
  Xadj g = Some xs -> Adjncy g = Some adj -> Adjwgt g = None ->
  xadj_wellformed xs adj ->
  covers part adj (NumVertices g) ->
  Z.of_nat (length adj) < 2 ^ 31 ->
  exists cut, CalculateEdgeCut g (Some part) = Done cut /\ 0 <= cut <= NumEdges g.
Proof.
  intros Hx Hadj Hunit Hwf Hcov Hsmall. unfold CalculateEdgeCut.
  assert (Hn : 0 <= NumVertices g).
  { unfold NumVertices. rewrite Hx. cbn [len]. destruct Hwf as (_ & Hzero & _).
    apply lookup_lt_Some in Hzero. lia. }
  destruct (cut_vertices_count g xs adj part Hx Hadj Hwf Hcov Hunit Hsmall
              (Z.to_nat (NumVertices g)) 0 0 0) as (c & -> & Hc); try lia.
  { destruct Hwf as (_ & Hzero & _). exact Hzero. }
  cbn [mbind go_mbind go_bind]. eexists. split; [reflexivity|].
  unfold NumEdges. rewrite Hadj. cbn [len]. split.
  - apply Z.quot_pos; lia.
  - apply Z.quot_le_mono; lia.
Qed.

Lemma CalculateEdgeCut_at_most_NumEdges_witness :
  exists cut,
    CalculateEdgeCut {| Xadj := Some [0; 2; 4; 6; 8];
                        Adjncy := Some [1; 2; 0; 3; 0; 3; 1; 2];
                        Vwgt := None; Adjwgt := None |} (Some [0; 0; 1; 1])
    = Done cut /\ 0 <= cut <= 4.
Proof.
  apply (CalculateEdgeCut_at_most_NumEdges
           {| Xadj := Some [0; 2; 4; 6; 8]; Adjncy := Some [1; 2; 0; 3; 0; 3; 1; 2];
              Vwgt := None; Adjwgt := None |}
           [0; 2; 4; 6; 8] [1; 2; 0; 3; 0; 3; 1; 2] [0; 0; 1; 1]);
    try reflexivity.
  - concrete_wellformed.
  - split; [vm_compute; discriminate|].
    repeat constructor; vm_compute; try discriminate; reflexivity.
Defined.

(** X12: when every vertex is in the same part the edge cut is 0, with or
    without edge weights, on every well-formed graph that the partition
    vector covers. *)
Theorem CalculateEdgeCut_one_part (g : Graph) (xs adj part : list Z) (p : Z) :
  Xadj g = Some xs -> Adjncy g = Some adj ->
  xadj_wellformed xs adj ->
  covers part adj (NumVertices g) ->
  Forall (fun q => q = p) part ->
  CalculateEdgeCut g (Some part) = Done 0.
Proof.
  intros Hx Hadj Hwf Hcov Hone. unfold CalculateEdgeCut.
  assert (Hn : 0 <= NumVertices g).
  { unfold NumVertices. rewrite Hx. cbn [len]. destruct Hwf as (_ & Hzero & _).
    apply lookup_lt_Some in Hzero. lia. }
  rewrite (cut_vertices_one_part g xs adj part Hx Hadj Hwf Hcov p Hone); try lia.
  reflexivity.
Qed.

Lemma CalculateEdgeCut_one_part_witness :
  CalculateEdgeCut {| Xadj := Some [0; 1; 2]; Adjncy := Some [1; 0];
                      Vwgt := None; Adjwgt := Some [9; 9] |} (Some [3; 3])
  = Done 0.
Proof.
  apply (CalculateEdgeCut_one_part
           {| Xadj := Some [0; 1; 2]; Adjncy := Some [1; 0];
              Vwgt := None; Adjwgt := Some [9; 9] |} [0; 1; 2] [1; 0] [3; 3] 3);
    try reflexivity.
  - concrete_wellformed.
  - split; [vm_compute; discriminate|].
    repeat constructor; vm_compute; try discriminate; reflexivity.
  - repeat constructor.
Defined.

(** ** Balance statistics of a partition *)

Lemma vertex_weight_no_call (vwgt : slice Z) (i : Z) :
  0 <= i ->
  exists w,
    match vwgt with
    | Some _ => if i <? len vwgt then index vwgt i else Done 1
    | None => Done 1
    end = Done w.
Proof.
  intros Hi. destruct vwgt as [v|]; [|eauto]. cbn [len].
  destruct (Z.ltb_spec i (Z.of_nat (length v))); [|eauto].
  apply index_in_range. lia.
Qed.

Lemma add_weights_returns_iff (vwgt : slice Z) (rest : list Z) :
  forall i partWeights,
    0 <= i ->
    ((exists w, add_weights i rest vwgt partWeights = Done w) <->
     Forall (part_id (Z.of_nat (length partWeights))) rest).
Proof.
  induction rest as [|p rest IH]; intros i partWeights Hi.
  - split; [constructor|]. intros _. eexists. reflexivity.
  - cbn [add_weights].
    destruct (vertex_weight_no_call vwgt i Hi) as (weight & ->).
    cbn [mbind go_mbind go_bind]. split.
    + intros (w & Hw).
      apply bind_Done in Hw. destruct Hw as (x & Hx & Hw).
      apply bind_Done in Hw. destruct Hw as (pw & Hstore & Hw).
      apply index_Done in Hx. destruct Hx as (l & [= <-] & Hp & _).
      apply store_Done in Hstore. destruct Hstore as [Hlen _].
      constructor; [exact Hp|].
      rewrite <- Hlen. apply (IH (i + 1) pw); [lia|eauto].
    + intros Hall. inversion Hall as [|? ? Hp Hrest]; subst.
      destruct (index_in_range partWeights p Hp) as (x & ->).
      cbn [mbind go_mbind go_bind]. unfold store.
      replace ((0 <=? p) && (p <? Z.of_nat (length partWeights))) with true
        by (symmetry; unfold part_id in Hp; rewrite andb_true_iff, Z.leb_le, Z.ltb_lt; lia).
      cbn [mbind go_mbind go_bind].
      apply IH; [lia|]. rewrite length_insert. exact Hrest.
Qed.

Lemma add_weights_length (vwgt : slice Z) (rest : list Z) :
  forall i partWeights w,
    add_weights i rest vwgt partWeights = Done w -> length w = length partWeights.
Proof.
  induction rest as [|p rest IH]; intros i partWeights w Hw.
  - cbn in Hw. now injection Hw as <-.
  - cbn [add_weights] in Hw.
    apply bind_Done in Hw. destruct Hw as (weight & _ & Hw).
    apply bind_Done in Hw. destruct Hw as (x & _ & Hw).
    apply bind_Done in Hw. destruct Hw as (pw & Hstore & Hw).
    apply store_Done in Hstore. destruct Hstore as [Hlen _].
    rewrite (IH _ _ _ Hw). exact Hlen.
Qed.

(** X13: [CalculatePartitionBalance] returns exactly when there is at
    least one part and every entry of [part] is a part id in
    [0 .. nparts-1]; otherwise it panics.  The vertex weights play no
    role in this, whatever their length. *)
Theorem CalculatePartitionBalance_returns_iff (part vwgt : slice Z) (nparts : Z) :
  (exists stats, CalculatePartitionBalance part vwgt nparts = Done stats) <->
  1 <= nparts /\ Forall (part_id nparts) (default [] part).
Proof.
  unfold CalculatePartitionBalance. split.
  - intros (stats & Hs).
    apply bind_Done in Hs. destruct Hs as (pw0 & Hmake & Hs).
    apply bind_Done in Hs. destruct Hs as (pw & Hloop & Hs).
    apply bind_Done in Hs. destruct Hs as (first & Hfirst & _).
    unfold make in Hmake. destruct (Z.ltb_spec nparts 0); [discriminate|].
    injection Hmake as <-.
    pose proof (add_weights_length _ _ _ _ _ Hloop) as Hlen.
    rewrite length_replicate in Hlen.
    apply index_Done in Hfirst. destruct Hfirst as (l & [= <-] & Hrange & _).
    split; [lia|].
    replace nparts with (Z.of_nat (length (replicate (Z.to_nat nparts) 0)))
      by (rewrite length_replicate; lia).
    apply (add_weights_returns_iff vwgt (default [] part) 0); [lia|eauto].
  - intros [Hn Hall].
    rewrite make_nonneg by lia. cbn [mbind go_mbind go_bind].
    destruct (proj2 (add_weights_returns_iff vwgt (default [] part) 0
                       (replicate (Z.to_nat nparts) 0) ltac:(lia))) as (pw & Hpw).
    { rewrite length_replicate, Z2Nat.id by lia. exact Hall. }
    rewrite Hpw. cbn [mbind go_mbind go_bind].
    pose proof (add_weights_length _ _ _ _ _ Hpw) as Hlen.
    rewrite length_replicate in Hlen.
    destruct (index_in_range pw 0) as (first & ->); [lia|].
    cbn [mbind go_mbind go_bind]. eauto.
Qed.

Lemma CalculatePartitionBalance_returns_iff_witness :
  (exists stats, CalculatePartitionBalance (Some [0; 2; 1; 2]) None 3 = Done stats) /\
  ~ (exists stats, CalculatePartitionBalance (Some [0; 3]) None 3 = Done stats).
Proof.
  split.
  - apply CalculatePartitionBalance_returns_iff. split; [lia|].
    repeat constructor; lia.
  - intros Hs. apply CalculatePartitionBalance_returns_iff in Hs.
    destruct Hs as [_ Hall]. inversion Hall as [|? ? _ Hrest]; subst.
    inversion Hrest as [|? ? Hp _]; subst. unfold part_id in Hp. lia.
Defined.

Lemma padded_weight (vwgt : slice Z) (k : nat) (i : Z) :
  0 <= i ->
  match vwgt with
  | Some _ => if i <? len vwgt then index vwgt i else Done 1
  | None => Done 1
  end
  = (if i <? len (Some (default [] vwgt ++ replicate k 1))
     then index (Some (default [] vwgt ++ replicate k 1)) i else Done 1).
Proof.
  intros Hi.
  assert (Hpad : forall v : list Z,
    (if i <? Z.of_nat (length v) then index (Some v) i else Done 1)
    = (if i <? Z.of_nat (length (v ++ replicate k 1))
       then index (Some (v ++ replicate k 1)) i else Done 1)).
  { intros v. rewrite length_app, length_replicate.
    destruct (Z.ltb_spec i (Z.of_nat (length v))) as [Hin|Hout];
      destruct (Z.ltb_spec i (Z.of_nat (length v + k))) as [Hin'|Hout'];
      try lia; try reflexivity.
    - destruct (index_in_range v i) as (x & Hx); [lia|]. rewrite Hx.
      apply index_Done in Hx. destruct Hx as (l & [= <-] & _ & Hx).
      symmetry. apply index_Some; [lia|]. rewrite lookup_app_l by lia. exact Hx.
    - symmetry. apply index_Some; [lia|].
      rewrite lookup_app_r by lia. apply lookup_replicate_2. lia. }
  destruct vwgt as [v|]; cbn [len default].
  - apply Hpad.
  - rewrite <- (Hpad []).
    destruct (Z.ltb_spec i (Z.of_nat (length (@nil Z)))) as [Hneg|]; [|reflexivity].
    cbn in Hneg. lia.
Qed.

Lemma add_weights_padded (vwgt : slice Z) (k : nat) (rest : list Z) :
  forall i partWeights,
    0 <= i ->
    add_weights i rest vwgt partWeights
    = add_weights i rest (Some (default [] vwgt ++ replicate k 1)) partWeights.
Proof.
  induction rest as [|p rest IH]; intros i partWeights Hi; [reflexivity|].
  cbn [add_weights]. rewrite (padded_weight vwgt k i Hi).
  destruct (vertex_weight_no_call (Some (default [] vwgt ++ replicate k 1)) i Hi)
    as (weight & ->).
  cbn [mbind go_mbind go_bind].
  destruct (index_no_call (Some partWeights) p) as [(x & ->)| ->]; [|reflexivity].
  cbn [mbind go_mbind go_bind]. unfold store.
  destruct ((0 <=? p) && (p <? Z.of_nat (length partWeights))); [|reflexivity].
  cbn [mbind go_mbind go_bind]. apply IH. lia.
Qed.

(** X14: vertices without a weight count with weight 1.  A [vwgt] that
    is nil or shorter than [part] gives the same statistics as the array
    padded with any number of 1s. *)
Theorem CalculatePartitionBalance_pads_weights (part vwgt : slice Z)
    (nparts : Z) (k : nat) :
  CalculatePartitionBalance part vwgt nparts
  = CalculatePartitionBalance part (Some (default [] vwgt ++ replicate k 1)) nparts.
Proof.
  unfold CalculatePartitionBalance, make.
  destruct (nparts <? 0); [reflexivity|]. cbn [mbind go_mbind go_bind].
  rewrite <- add_weights_padded by lia. reflexivity.
Qed.

(** With no weights at all every vertex weighs 1. *)
Example CalculatePartitionBalance_nil_is_unit :
  CalculatePartitionBalance (Some [0; 1; 1]) None 2
  = CalculatePartitionBalance (Some [0; 1; 1]) (Some [1; 1; 1]) 2.
Proof. vm_compute. reflexivity. Qed.

Lemma total_cons (z : Z) (l : list Z) : total (z :: l) = z + total l.
Proof. reflexivity. Qed.

Lemma total_insert (l : list Z) :
  forall k x y, l !! k = Some x -> total (<[k := y]> l) = total l - x + y.
Proof.
  induction l as [|z l IH]; intros k x y Hk; [discriminate|].
  destruct k as [|k].
  - change (<[0%nat := y]> (z :: l)) with (y :: l).
    injection Hk as ->. rewrite !total_cons. lia.
  - change (<[S k := y]> (z :: l)) with (z :: <[k := y]> l).
    change (l !! k = Some x) in Hk.
    rewrite !total_cons, (IH k x y Hk). lia.
Qed.

Lemma total_replicate_zero (n : nat) : total (replicate n 0) = 0.
Proof.
  induction n as [|n IH]; [reflexivity|].
  cbn [replicate]. rewrite total_cons. lia.
Qed.

Lemma total_nonneg (l : list Z) : Forall (fun w => 0 <= w) l -> 0 <= total l.
Proof.
  intros Hall. induction Hall as [|w l Hw _ IH]; [reflexivity|].
  rewrite total_cons. lia.
Qed.

Lemma entry_le_total (l : list Z) :
  Forall (fun w => 0 <= w) l ->
  forall k x, l !! k = Some x -> 0 <= x <= total l.
Proof.
  intros Hall. induction Hall as [|z l Hz Hall IH]; intros k x Hk; [discriminate|].
  pose proof (total_nonneg l Hall) as Htl. rewrite total_cons.
  destruct k as [|k].
  - injection Hk as ->. lia.
  - change (l !! k = Some x) in Hk. specialize (IH k x Hk). lia.
Qed.

Lemma total_between (l : list Z) (a b : Z) :
  Forall (fun w => a <= w <= b) l ->
  Z.of_nat (length l) * a <= total l <= Z.of_nat (length l) * b.
Proof.
  intros Hall. induction Hall as [|w l Hw _ IH].
  - cbn. lia.
  - rewrite total_cons. cbn [length]. rewrite Nat2Z.inj_succ. lia.
Qed.

(** Without vertex weights the weight loop adds one unit per vertex. *)
Lemma add_weights_unit_total (rest : list Z) :
  forall i partWeights w,
    add_weights i rest None partWeights = Done w ->
    Forall (fun x => 0 <= x) partWeights ->
    total partWeights + Z.of_nat (length rest) < 2 ^ 63 ->
    Forall (fun x => 0 <= x) w /\
    total w = total partWeights + Z.of_nat (length rest).
Proof.
  induction rest as [|p rest IH]; intros i partWeights w Hw Hpos Hmax.
  - cbn in Hw. injection Hw as <-. split; [assumption|cbn [length]; lia].
  - cbn [add_weights mbind go_mbind go_bind] in Hw.
    apply bind_Done in Hw. destruct Hw as (x & Hx & Hw).
    apply bind_Done in Hw. destruct Hw as (pw & Hstore & Hw).
    apply index_Done in Hx. destruct Hx as (l & [= <-] & Hp & Hx).
    unfold store in Hstore.
    destruct ((0 <=? p) && (p <? Z.of_nat (length partWeights))); [|discriminate].
    injection Hstore as <-.
    destruct (entry_le_total partWeights Hpos _ _ Hx) as [Hx0 Hxt].
    cbn [length] in Hmax. rewrite Nat2Z.inj_succ in Hmax.
    rewrite int64_id in Hw by (unfold is_int64; lia).
    destruct (IH _ _ _ Hw) as [Hpos' Htotal].
    + apply Forall_insert; [assumption|lia].
    + rewrite (total_insert _ _ x) by assumption. lia.
    + split; [assumption|]. rewrite Htotal, (total_insert _ _ x) by assumption.
      cbn [length]. lia.
Qed.

(** The statistics loop [for _, w := range partWeights]. *)
Lemma weight_statistics (l : list Z) :
  forall mn mx t,
    Forall (fun w => 0 <= w) l ->
    0 <= t -> t + total l < 2 ^ 63 -> mn <= mx ->
    exists mn' mx',
      fold_left
        (fun '(minWeight, maxWeight, totalWeight) w =>
           (if w <? minWeight then w else minWeight,
            if maxWeight <? w then w else maxWeight,
            int64 (totalWeight + w)))
        l (mn, mx, t) = (mn', mx', t + total l) /\
      mn' <= mn /\ mx <= mx' /\
      Forall (fun w => mn' <= w <= mx') l /\
      (0 <= mn -> 0 <= mn').
Proof.
  induction l as [|w l IH]; intros mn mx t Hpos Ht Hmax Hle.
  - exists mn, mx. cbn [fold_left]. change (total []) with 0. rewrite Z.add_0_r.
    repeat split; auto; lia.
  - inversion Hpos as [|? ? Hw Hpos']; subst.
    pose proof (total_nonneg l Hpos') as Htl.
    rewrite total_cons in *.
    cbn [fold_left]. rewrite int64_id by (unfold is_int64; lia).
    destruct (IH (if w <? mn then w else mn) (if mx <? w then w else mx) (t + w))
      as (mn' & mx' & Hfold & Hmn & Hmx & Hall & Hnonneg); try assumption; try lia.
    { destruct (Z.ltb_spec w mn); destruct (Z.ltb_spec mx w); lia. }
    exists mn', mx'. rewrite Hfold.
    destruct (Z.ltb_spec w mn); destruct (Z.ltb_spec mx w);
      (split; [f_equal; lia|]); repeat split; try lia;
      try (constructor; [lia|assumption]); intros; apply Hnonneg; lia.
Qed.

(** X15: without vertex weights the statistics that
    [CalculatePartitionBalance] returns satisfy: the total weight is the
    number of vertices, the lightest part is not heavier than the
    heaviest, and the average [totalWeight / nparts] lies between the
    two. *)
Theorem CalculatePartitionBalance_statistics (part : slice Z) (nparts : Z)
    (minWeight maxWeight totalWeight : Z) :
  len part < 2 ^ 63 ->
  CalculatePartitionBalance part None nparts = Done (minWeight, maxWeight, totalWeight) ->
  totalWeight = len part /\
  0 <= minWeight <= maxWeight /\
  nparts * minWeight <= totalWeight <= nparts * maxWeight.
Proof.
  intros Hsize Hs. unfold CalculatePartitionBalance in Hs.
  apply bind_Done in Hs. destruct Hs as (pw0 & Hmake & Hs).
  apply bind_Done in Hs. destruct Hs as (pw & Hloop & Hs).
  apply bind_Done in Hs. destruct Hs as (first & Hfirst & Hs).
  unfold make in Hmake. destruct (Z.ltb_spec nparts 0); [discriminate|].
  injection Hmake as <-.
  pose proof (add_weights_length _ _ _ _ _ Hloop) as Hlen.
  rewrite length_replicate in Hlen.
  assert (Hparts : Z.of_nat (length (default [] part)) = len part)
    by (destruct part; reflexivity).
  destruct (add_weights_unit_total _ _ _ _ Hloop) as [Hpos Htotal].
  { apply Forall_replicate. lia. }
  { rewrite total_replicate_zero. lia. }
  rewrite total_replicate_zero, Hparts in Htotal.
  apply index_Done in Hfirst. destruct Hfirst as (l & [= <-] & Hrange & Hfirst).
  destruct (entry_le_total pw Hpos _ _ Hfirst) as [Hf0 _].
  destruct (weight_statistics pw first first 0 Hpos)
    as (mn & mx & Hfold & Hmn & Hmx & Hall & Hnonneg); try lia.
  rewrite Hfold in Hs. injection Hs as <- <- <-.
  pose proof (total_between pw mn mx Hall) as Hbetween.
  replace (Z.of_nat (length pw)) with nparts in Hbetween by lia.
  repeat split; lia.
Qed.

Lemma CalculatePartitionBalance_statistics_witness :
  CalculatePartitionBalance (Some [0; 0; 1; 2; 0]) None 3 = Done (1, 3, 5) /\
  3 * 1 <= 5 <= 3 * 3.
Proof.
  split; [reflexivity|].
  apply (CalculatePartitionBalance_statistics (Some [0; 0; 1; 2; 0]) 3 1 3 5).
  - vm_compute. reflexivity.
  - reflexivity.
Defined.

(** ** What the graph reader returns *)

Section ReadGraphResults.

Context {R : Type} `{Scanner R}.
Variable Fields : string -> list string.
Variable Atoi : string -> Z * option error.

(** The adjacency fields of a line add at least as many neighbours as
    edge weights: the fields alternate, starting with a neighbour. *)
Lemma read_adjacency_lengths (i : Z) (he : bool) (fieldIdx : Z) (rest : list string) :
  forall j adjncy0 adjwgt0 adjncy1 adjwgt1,
    read_adjacency Atoi i he fieldIdx j rest adjncy0 adjwgt0 = inl (adjncy1, adjwgt1) ->
    (length adjncy0 <= length adjncy1)%nat /\
    (length adjwgt0 <= length adjwgt1)%nat /\
    (length adjwgt1 - length adjwgt0
     <= length adjncy1 - length adjncy0
        + (if (Z.rem (j - fieldIdx) 2 =? 1)%Z then 1 else 0))%nat /\
    (he = false -> adjwgt1 = adjwgt0).
Proof.
  induction rest as [|f rest IH]; intros j a0 w0 a1 w1 Hread.
  - cbn in Hread. injection Hread as <- <-.
    repeat split; try lia; destruct (_ =? _); lia.
  - cbn [read_adjacency] in Hread.
    assert (Hparity : (Z.rem (j - fieldIdx) 2 =? 1) = true ->
                      (Z.rem (j + 1 - fieldIdx) 2 =? 1) = true -> False).
    { rewrite !Z.eqb_eq. intros H1 H2.
      pose proof (Z.quot_rem' (j - fieldIdx) 2).
      pose proof (Z.quot_rem' (j + 1 - fieldIdx) 2). lia. }
    destruct he; cbn [andb] in Hread.
    + destruct (Z.rem (j - fieldIdx) 2 =? 1) eqn:Hodd.
      * destruct (Atoi f) as [w [e|]]; [discriminate|].
        apply IH in Hread. destruct Hread as (Ha & Hw & Hdiff & _).
        rewrite length_app in *. cbn [length] in *.
        repeat split; try lia; try discriminate.
        destruct (Z.rem (j + 1 - fieldIdx) 2 =? 1) eqn:Hnext; [|lia].
        exfalso. now apply Hparity.
      * destruct (Atoi f) as [v [e|]]; [discriminate|].
        apply IH in Hread. destruct Hread as (Ha & Hw & Hdiff & _).
        rewrite length_app in *. cbn [length] in *.
        repeat split; try lia; try discriminate.
        destruct (Z.rem (j + 1 - fieldIdx) 2 =? 1); lia.
    + destruct (Atoi f) as [v [e|]]; [discriminate|].
      apply IH in Hread. destruct Hread as (Ha & Hw & Hdiff & Hsame).
      rewrite length_app in *. cbn [length] in *.
      specialize (Hsame eq_refl). subst w1.
      repeat split; try lia; destruct (_ =? _); lia.
Qed.

(** One pass of the vertex loop, with what it does to each array. *)
Lemma read_vertices_step_arrays n i hv he (st st' : reader_state) :
  read_vertices Fields Atoi (S n) i hv he st = Done (inl st') ->
  exists st1,
    Scan (scanner st) = (true, scanner st1) /\
    read_vertices Fields Atoi n (i + 1) hv he st1 = Done (inl st') /\
    length (xadj st1) = length (xadj st) /\
    (forall k, k <> Z.to_nat (i + 1) -> xadj st1 !! k = xadj st !! k) /\
    (length (adjncy st) <= length (adjncy st1))%nat /\
    (length (adjwgt st) <= length (adjwgt st1))%nat /\
    (length (adjwgt st1) - length (adjwgt st)
     <= length (adjncy st1) - length (adjncy st))%nat /\
    (Fields (Text (scanner st1)) <> [] ->
     0 <= i + 1 /\
     xadj st1 !! Z.to_nat (i + 1) = Some (int32 (Z.of_nat (length (adjncy st1)))) /\
     length (vwgt st1) = (length (vwgt st) + if hv then 1 else 0)%nat) /\
    (Fields (Text (scanner st1)) = [] -> vwgt st1 = vwgt st).
Proof.
  simpl. destruct (Scan (scanner st)) as [more sc]. destruct more; [|discriminate].
  cbn [negb].
  destruct (Z.eqb_spec (Z.of_nat (length (Fields (Text sc)))) 0) as [Hblank|Hfields].
  - intros Hrest.
    exists {| scanner := sc; xadj := xadj st; adjncy := adjncy st;
              vwgt := vwgt st; adjwgt := adjwgt st |}.
    split; [reflexivity|]. split; [exact Hrest|]. cbn.
    do 5 (split; [first [reflexivity | lia | auto]|]).
    split; [|reflexivity].
    intros Hne. destruct (Fields (Text sc)); [contradiction|cbn in Hblank; lia].
  - intros Hrest. apply bind_Done in Hrest. destruct Hrest as (weighed & Hweighed & Hrest).
    destruct weighed as [[vwgt' fieldIdx]|e]; [|discriminate].
    destruct (read_adjacency Atoi i he fieldIdx fieldIdx _ _ _)
      as [[adjncy' adjwgt']|e] eqn:Hadj; [|discriminate].
    apply bind_Done in Hrest. destruct Hrest as (xadj' & Hstore & Hrest).
    apply read_adjacency_lengths in Hadj. destruct Hadj as (Ha & Hw & Hdiff & _).
    rewrite Z.sub_diag in Hdiff.
    change (Z.rem 0 2 =? 1) with false in Hdiff. cbv iota in Hdiff.
    assert (Hvw : length vwgt' = (length (vwgt st) + if hv then 1 else 0)%nat).
    { destruct hv.
      - apply bind_Done in Hweighed. destruct Hweighed as (f & _ & Hweighed).
        destruct (Atoi f) as [w [e|]]; [discriminate|].
        injection Hweighed as <- _. rewrite length_app. reflexivity.
      - injection Hweighed as <- _. lia. }
    unfold store in Hstore.
    destruct (Z.leb_spec 0 (i + 1));
      destruct (Z.ltb_spec (i + 1) (Z.of_nat (length (xadj st))));
      cbn [andb] in Hstore; try discriminate.
    injection Hstore as <-.
    exists {| scanner := sc; xadj := <[Z.to_nat (i + 1) :=
                                       int32 (Z.of_nat (length adjncy'))]> (xadj st);
              adjncy := adjncy'; vwgt := vwgt'; adjwgt := adjwgt' |}.
    split; [reflexivity|]. split; [exact Hrest|]. cbn.
    split; [apply length_insert|].
    split; [intros k Hk; apply list_lookup_insert_ne; congruence|].
    do 3 (split; [lia|]).
    split.
    + intros _. split; [lia|]. split; [|exact Hvw].
      apply list_lookup_insert_eq. lia.
    + intros Hnone. rewrite Hnone in Hfields. cbn in Hfields. lia.
Qed.

(** The loop only appends: no array gets shorter, there are never more
    new edge weights than new neighbours, and at most one vertex weight
    is added per line. *)
Lemma read_vertices_grows n : forall i hv he (st st' : reader_state),
  read_vertices Fields Atoi n i hv he st = Done (inl st') ->
  (length (adjncy st) <= length (adjncy st'))%nat /\
  (length (adjwgt st) <= length (adjwgt st'))%nat /\
  (length (adjwgt st') - length (adjwgt st)
   <= length (adjncy st') - length (adjncy st))%nat /\
  (length (vwgt st) <= length (vwgt st'))%nat /\
  (length (vwgt st') <= length (vwgt st) + n)%nat.
Proof.
  induction n as [|n IH]; intros i hv he st st' Hloop.
  - simpl in Hloop. injection Hloop as <-. lia.
  - apply read_vertices_step_arrays in Hloop.
    destruct Hloop as (st1 & _ & Hrest & _ & _ & Ha & Hw & Hdiff & Hfull & Hblank).
    apply IH in Hrest. destruct Hrest as (Ha' & Hw' & Hdiff' & Hv' & Hv'').
    assert (Hv : (length (vwgt st) <= length (vwgt st1) <= length (vwgt st) + 1)%nat).
    { assert (Hcase : Fields (Text (scanner st1)) = [] \/ Fields (Text (scanner st1)) <> [])
        by (destruct (Fields (Text (scanner st1))); [left; reflexivity|right; discriminate]).
      destruct Hcase as [Hb|Hf].
      - rewrite (Hblank Hb). lia.
      - destruct (Hfull Hf) as (_ & _ & ->). destruct hv; lia. }
    lia.
Qed.

(** The loop reads one line for each of its passes. *)
Lemma read_vertices_lines n : forall i hv he (st st' : reader_state) j,
  read_vertices Fields Atoi n i hv he st = Done (inl st') ->
  (j < n)%nat ->
  exists sc, scans (S j) (scanner st) = Some sc.
Proof.
  induction n as [|n IH]; intros i hv he st st' j Hloop Hj; [lia|].
  apply read_vertices_step_arrays in Hloop.
  destruct Hloop as (st1 & Hscan & Hrest & _).
  destruct j as [|j].
  - exists (scanner st1). simpl. rewrite Hscan. reflexivity.
  - destruct (IH _ _ _ _ _ j Hrest ltac:(lia)) as [sc Hsc].
    exists sc.
    change (scans (S (S j)) (scanner st))
      with (let '(more, sc') := Scan (scanner st) in
            if more then scans (S j) sc' else None).
    rewrite Hscan. exact Hsc.
Qed.

(** When no line of the remaining vertices is blank and the adjacency
    array stays below 2^31 entries, the loop extends a well-formed prefix
    of the index array by one entry per vertex, and adds one vertex
    weight per vertex when the file has them. *)
Lemma read_vertices_csr n : forall i hv he (st st' : reader_state),
  0 <= i ->
  read_vertices Fields Atoi n i hv he st = Done (inl st') ->
  (forall j sc, (j < n)%nat -> scans (S j) (scanner st) = Some sc ->
                Fields (Text sc) <> []) ->
  Z.of_nat (length (adjncy st')) < 2 ^ 31 ->
  csr_prefix (xadj st) (Z.to_nat i) (Z.of_nat (length (adjncy st))) ->
  csr_prefix (xadj st') (Z.to_nat i + n) (Z.of_nat (length (adjncy st'))) /\
  length (vwgt st') = (length (vwgt st) + if hv then n else 0)%nat.
Proof.
  induction n as [|n IH]; intros i hv he st st' Hi Hloop Hlines Hsmall Hpre.
  - simpl in Hloop. injection Hloop as <-. rewrite Nat.add_0_r.
    split; [exact Hpre|destruct hv; lia].
  - apply read_vertices_step_arrays in Hloop.
    destruct Hloop as (st1 & Hscan & Hrest & Hlen & Hother & Ha & _ & _ & Hfull & _).
    assert (Hline : Fields (Text (scanner st1)) <> []).
    { apply (Hlines O); [lia|]. simpl. rewrite Hscan. reflexivity. }
    destruct (Hfull Hline) as (_ & Hentry & Hv).
    pose proof (read_vertices_grows _ _ _ _ _ _ Hrest) as (Ha' & _).
    rewrite int32_id in Hentry by (unfold is_int32; lia).
    assert (Hpre1 : csr_prefix (xadj st1) (Z.to_nat (i + 1))
                      (Z.of_nat (length (adjncy st1)))).
    { destruct Hpre as (Hzero & Hlast & Hmono). split; [|split].
      - rewrite Hother by lia. exact Hzero.
      - exact Hentry.
      - intros k a b Hk Hka Hkb.
        destruct (Nat.eq_dec (S k) (Z.to_nat (i + 1))) as [Heq|Hne].
        + rewrite Heq in Hkb. rewrite Hentry in Hkb. injection Hkb as <-.
          rewrite Hother in Hka by lia.
          replace k with (Z.to_nat i) in Hka by lia.
          rewrite Hlast in Hka. injection Hka as <-. lia.
        + rewrite Hother in Hka by lia. rewrite Hother in Hkb by lia.
          apply (Hmono k); [lia|assumption|assumption]. }
    destruct (IH (i + 1) hv he st1 st') as [Hcsr Hvw];
      [lia|exact Hrest| |exact Hsmall|exact Hpre1|].
    + intros j sc Hj Hsc. apply (Hlines (S j)); [lia|].
      change (scans (S (S j)) (scanner st))
        with (let '(more, sc') := Scan (scanner st) in
              if more then scans (S j) sc' else None).
      rewrite Hscan. exact Hsc.
    + replace (Z.to_nat i + S n)%nat with (Z.to_nat (i + 1) + n)%nat by lia.
      split; [exact Hcsr|]. rewrite Hvw, Hv. destruct hv; lia.
Qed.

(** Every way out of [ReadGraphFile] hands back a graph or an error,
    never both and never neither. *)
Lemma ReadGraphFile_result (r : R) (g : option Graph) (e : option error) :
  ReadGraphFile Fields Atoi r = Done (g, e) ->
  (g = None /\ e <> None) \/
  (e = None /\ exists g', g = Some g' /\ Xadj g' <> None /\ Adjncy g' <> None).
Proof.
  intros Hread. unfold ReadGraphFile in Hread.
  destruct (Scan r) as [more sc]. destruct more; cbn [negb] in Hread;
    [|injection Hread as <- <-; left; split; [reflexivity|discriminate]].
  destruct (Z.of_nat (length (Fields (Text sc))) <? 2);
    [injection Hread as <- <-; left; split; [reflexivity|discriminate]|].
  apply bind_Done in Hread. destruct Hread as (h0 & _ & Hread).
  destruct (Atoi h0) as [nvtxs [e0|]];
    [injection Hread as <- <-; left; split; [reflexivity|discriminate]|].
  apply bind_Done in Hread. destruct Hread as ([hv he] & _ & Hread).
  apply bind_Done in Hread. destruct Hread as (xadj0 & _ & Hread).
  apply bind_Done in Hread. destruct Hread as (xadj1 & _ & Hread).
  apply bind_Done in Hread. destruct Hread as (loop & _ & Hread).
  destruct loop as [st|e1];
    [|injection Hread as <- <-; left; split; [reflexivity|discriminate]].
  destruct (Err (scanner st));
    [injection Hread as <- <-; left; split; [reflexivity|discriminate]|].
  injection Hread as <- <-. right. split; [reflexivity|].
  eexists. split; [reflexivity|]. cbn. split; discriminate.
Qed.

(** A header whose vertex count is negative makes [ReadGraphFile]
    panic: [make] refuses a negative length, and for -1 the store to
    [xadj[0]] is out of range. *)
Lemma ReadGraphFile_negative (r sc : R) (h0 : string) (hs : list string) (nvtxs : Z) :
  Scan r = (true, sc) ->
  Fields (Text sc) = h0 :: hs -> hs <> [] ->
  Atoi h0 = (nvtxs, None) ->
  - 2 ^ 63 <= nvtxs < 0 ->
  ReadGraphFile Fields Atoi r = Panic.
Proof.
  intros Hscan Hheader Hhs Hatoi Hneg. unfold ReadGraphFile.
  rewrite Hscan. cbn [negb]. rewrite Hheader.
  destruct hs as [|h1 hs]; [contradiction|].
  replace (Z.of_nat (length (h0 :: h1 :: hs)) <? 2) with false
    by (symmetry; apply Z.ltb_ge; cbn [length]; lia).
  rewrite (index_Some (h0 :: h1 :: hs) 0 h0) by (reflexivity || lia).
  cbn [mbind go_mbind go_bind]. rewrite Hatoi.
  match goal with
  | |- ?flags ≫= _ = _ => assert (Hflags : exists fl : bool * bool, flags = Done fl)
  end.
  { destruct (Z.leb_spec 3 (Z.of_nat (length (h0 :: h1 :: hs)))) as [Hthree|_];
      [|eexists; reflexivity].
    destruct (index_in_range (h0 :: h1 :: hs) 2) as [h2 Hh2]; [lia|].
    rewrite Hh2. eexists. reflexivity. }
  destruct Hflags as [[hv he] ->]. cbn [mbind go_mbind go_bind].
  unfold make.
  assert (Hnext : int64 (nvtxs + 1) = nvtxs + 1) by (apply int64_id; unfold is_int64; lia).
  rewrite Hnext.
  destruct (Z.ltb_spec (nvtxs + 1) 0) as [|Hzero]; [reflexivity|].
  replace (nvtxs + 1) with 0 by lia. reflexivity.
Qed.

(** [Atoi] returns a Go [int]. *)
Hypothesis Atoi_int : forall s, is_int64 (fst (Atoi s)).

(** What a returned graph says about the run that produced it. *)
Lemma ReadGraphFile_success (r : R) (g : Graph) :
  ReadGraphFile Fields Atoi r = Done (Some g, None) ->
  exists sc h0 hs nvtxs hv he st,
    Scan r = (true, sc) /\
    Fields (Text sc) = h0 :: hs /\ hs <> [] /\
    Atoi h0 = (nvtxs, None) /\ 0 <= nvtxs /\
    read_vertices Fields Atoi (Z.to_nat nvtxs) 0 hv he
      {| scanner := sc; xadj := <[O := 0]> (replicate (Z.to_nat (nvtxs + 1)) 0);
         adjncy := []; vwgt := []; adjwgt := [] |} = Done (inl st) /\
    g = {| Xadj := Some (xadj st); Adjncy := Some (adjncy st);
           Vwgt := if hv then Some (vwgt st) else None;
           Adjwgt := if he then Some (adjwgt st) else None |}.
Proof.
  intros Hread. unfold ReadGraphFile in Hread.
  destruct (Scan r) as [more sc]. destruct more; [|discriminate].
  cbn [negb] in Hread.
  destruct (Z.ltb_spec (Z.of_nat (length (Fields (Text sc)))) 2) as [|Hheader];
    [discriminate|].
  apply bind_Done in Hread. destruct Hread as (h0 & Hh0 & Hread).
  apply index_Done in Hh0. destruct Hh0 as (header & Hsome & _ & Hh0).
  injection Hsome as <-.
  pose proof (Atoi_int h0) as Hnv.
  destruct (Atoi h0) as [nvtxs [e|]] eqn:Hatoi; [discriminate|]. cbn [fst] in Hnv.
  apply bind_Done in Hread. destruct Hread as ([hv he] & _ & Hread).
  apply bind_Done in Hread. destruct Hread as (xadj0 & Hmake & Hread).
  apply bind_Done in Hread. destruct Hread as (xadj1 & Hstore & Hread).
  apply bind_Done in Hread. destruct Hread as (loop & Hloop & Hread).
  destruct loop as [st|e]; [|discriminate].
  destruct (Err (scanner st)); [discriminate|].
  injection Hread as <-.
  unfold make in Hmake.
  destruct (Z.ltb_spec (int64 (nvtxs + 1)) 0) as [|Hsize]; [discriminate|].
  injection Hmake as <-.
  assert (Hnext : int64 (nvtxs + 1) = nvtxs + 1).
  { unfold is_int64 in Hnv. destruct (Z.eq_dec (nvtxs + 1) (2 ^ 63)) as [Hmax|Hmax].
    - rewrite Hmax in Hsize. vm_compute in Hsize. contradiction.
    - apply int64_id. unfold is_int64. lia. }
  rewrite Hnext in *.
  unfold store in Hstore.
  destruct (Z.ltb_spec 0 (Z.of_nat (length (replicate (Z.to_nat (nvtxs + 1)) 0))))
    as [Hroom|]; cbn [Z.leb andb] in Hstore; [|discriminate].
  injection Hstore as <-. rewrite length_replicate in Hroom.
  destruct (Fields (Text sc)) as [|h [|h1 hs]] eqn:Hfields;
    [discriminate|cbn [length] in Hheader; lia|].
  injection Hh0 as ->.
  exists sc, h0, (h1 :: hs), nvtxs, hv, he, st.
  split; [reflexivity|]. split; [exact Hfields|]. split; [discriminate|].
  split; [exact Hatoi|]. split; [lia|]. split; [exact Hloop|reflexivity].
Qed.

End ReadGraphResults.

(** X16: whenever [ReadGraphFile] returns, it returns a graph with
    non-nil [Xadj] and [Adjncy] and a nil error, or a nil graph and an
    error; this holds for every reader and every behaviour of
    [strings.Fields] and [strconv.Atoi]. *)
Theorem ReadGraphFile_graph_or_error :
  forall (R : Type) (sc : Scanner R)
         (Fields : string -> list string) (Atoi : string -> Z * option error)
         (r : R) (g : option Graph) (e : option error),
    ReadGraphFile Fields Atoi r = Done (g, e) ->
    (g = None /\ e <> None) \/
    (e = None /\ exists g', g = Some g' /\ Xadj g' <> None /\ Adjncy g' <> None).
Proof.
  intros R sc Fields Atoi. apply ReadGraphFile_result.
Qed.

Lemma ReadGraphFile_graph_or_error_witness :
  GoLib.ReadGraphString "" = Done (None, Some (fmt_Errorf "empty file" [])) /\
  ((@None Graph = None /\ Some (fmt_Errorf "empty file" []) <> None) \/
   (Some (fmt_Errorf "empty file" []) = None /\
    exists g', None = Some g' /\ Xadj g' <> None /\ Adjncy g' <> None)).
Proof.
  assert (Hrun : GoLib.ReadGraphString "" = Done (None, Some (fmt_Errorf "empty file" [])))
    by (vm_compute; reflexivity).
  split; [exact Hrun|].
  exact (ReadGraphFile_graph_or_error GoLib.LineScanner GoLib.line_scanner
           GoLib.Fields GoLib.Atoi (GoLib.NewScanner "") _ _ Hrun).
Defined.

(** X17: a graph returned by [ReadGraphFile] has as many vertices as the
    first field of the header says, that number is not negative, its
    [Xadj] starts with 0, and the file had a line for every vertex. *)
Theorem ReadGraphFile_vertex_count :
  forall (R : Type) (sc : Scanner R)
         (Fields : string -> list string) (Atoi : string -> Z * option error),
    (forall s, is_int64 (fst (Atoi s))) ->
    forall (r : R) (g : Graph),
      ReadGraphFile Fields Atoi r = Done (Some g, None) ->
      exists header h0 hs,
        scans 1 r = Some header /\ Fields (Text header) = h0 :: hs /\
        snd (Atoi h0) = None /\
        NumVertices g = fst (Atoi h0) /\ 0 <= NumVertices g /\
        index (Xadj g) 0 = Done 0 /\
        forall i, 0 <= i < NumVertices g ->
                  exists line, vertex_line r (Z.to_nat i) = Some line.
Proof.
  intros R sc Fields Atoi HAtoi r g Hread.
  destruct (ReadGraphFile_success Fields Atoi HAtoi r g Hread)
    as (hd & h0 & hs & nvtxs & hv & he & st & Hscan & Hheader & _ & Hatoi & Hn & Hloop & ->).
  pose proof (read_vertices_length Fields Atoi _ _ _ _ _ _ Hloop) as Hlen.
  cbn [xadj] in Hlen. rewrite length_insert, length_replicate in Hlen.
  exists hd, h0, hs. unfold NumVertices. cbn [Xadj len]. rewrite Hatoi. cbn [fst snd].
  split; [simpl; rewrite Hscan; reflexivity|]. split; [exact Hheader|].
  split; [reflexivity|]. split; [lia|]. split; [lia|]. split.
  - apply index_Some; [lia|].
    change (Z.to_nat 0) with O.
    rewrite (read_vertices_below Fields Atoi _ 0 _ _ _ _ O (Z.le_refl 0) Hloop
               (Nat.le_0_l _)).
    cbn [xadj]. apply list_lookup_insert_eq. rewrite length_replicate. lia.
  - intros i Hi.
    assert (Hlt : (Z.to_nat i < Z.to_nat nvtxs)%nat) by lia.
    destruct (read_vertices_lines Fields Atoi _ _ _ _ _ _ (Z.to_nat i) Hloop Hlt)
      as [line Hline].
    exists (Text line). unfold vertex_line.
    change (scans (2 + Z.to_nat i) r)
      with (let '(more, sc') := Scan r in
            if more then scans (S (Z.to_nat i)) sc' else None).
    rewrite Hscan. cbn [scanner] in Hline. rewrite Hline. reflexivity.
Qed.

Lemma ReadGraphFile_vertex_count_witness :
  exists g,
    GoLib.ReadGraphString weighted_file = Done (Some g, None) /\
    NumVertices g = 3 /\ index (Xadj g) 0 = Done 0.
Proof.
  exists {| Xadj := Some [0; 1; 3; 4]; Adjncy := Some [1; 0; 2; 1];
            Vwgt := Some [5; 6; 4]; Adjwgt := Some [7; 7; 9; 9] |}.
  assert (Hrun : GoLib.ReadGraphString weighted_file
                 = Done (Some {| Xadj := Some [0; 1; 3; 4]; Adjncy := Some [1; 0; 2; 1];
                                 Vwgt := Some [5; 6; 4]; Adjwgt := Some [7; 7; 9; 9] |},
                         None)) by (vm_compute; reflexivity).
  split; [exact Hrun|].
  destruct (ReadGraphFile_vertex_count GoLib.LineScanner GoLib.line_scanner
              GoLib.Fields GoLib.Atoi GoLib_Atoi_int _ _ Hrun)
    as (header & h0 & hs & _ & _ & _ & _ & _ & Hzero & _).
  split; [reflexivity|exact Hzero].
Defined.

(** X18: a graph returned by [ReadGraphFile] never has more vertex
    weights than vertices nor more edge weights than adjacency entries. *)
Theorem ReadGraphFile_weights_bounded :
  forall (R : Type) (sc : Scanner R)
         (Fields : string -> list string) (Atoi : string -> Z * option error),
    (forall s, is_int64 (fst (Atoi s))) ->
    forall (r : R) (g : Graph),
      ReadGraphFile Fields Atoi r = Done (Some g, None) ->
      len (Vwgt g) <= NumVertices g /\ len (Adjwgt g) <= len (Adjncy g).
Proof.
  intros R sc Fields Atoi HAtoi r g Hread.
  destruct (ReadGraphFile_success Fields Atoi HAtoi r g Hread)
    as (hd & h0 & hs & nvtxs & hv & he & st & _ & _ & _ & _ & Hn & Hloop & ->).
  pose proof (read_vertices_length Fields Atoi _ _ _ _ _ _ Hloop) as Hlen.
  cbn [xadj] in Hlen. rewrite length_insert, length_replicate in Hlen.
  pose proof (read_vertices_grows Fields Atoi _ _ _ _ _ _ Hloop) as (_ & _ & Hw & _ & Hv).
  cbn [adjncy adjwgt vwgt length] in Hw, Hv.
  unfold NumVertices. cbn [Xadj Adjncy Vwgt Adjwgt].
  split; [destruct hv|destruct he]; cbn [len]; lia.
Qed.

Lemma ReadGraphFile_weights_bounded_witness :
  exists g,
    GoLib.ReadGraphString weighted_file = Done (Some g, None) /\
    len (Vwgt g) <= NumVertices g /\ len (Adjwgt g) <= len (Adjncy g).
Proof.
  exists {| Xadj := Some [0; 1; 3; 4]; Adjncy := Some [1; 0; 2; 1];
            Vwgt := Some [5; 6; 4]; Adjwgt := Some [7; 7; 9; 9] |}.
  assert (Hrun : GoLib.ReadGraphString weighted_file
                 = Done (Some {| Xadj := Some [0; 1; 3; 4]; Adjncy := Some [1; 0; 2; 1];
                                 Vwgt := Some [5; 6; 4]; Adjwgt := Some [7; 7; 9; 9] |},
                         None)) by (vm_compute; reflexivity).
  split; [exact Hrun|].
  exact (ReadGraphFile_weights_bounded GoLib.LineScanner GoLib.line_scanner
           GoLib.Fields GoLib.Atoi GoLib_Atoi_int _ _ Hrun).
Defined.

(** X19: when no vertex line of the file is blank and fewer than 2^31
    adjacency entries were read, the graph returned by [ReadGraphFile]
    satisfies the CSR invariants ([Xadj] starts at 0, does not decrease
    and ends at [len(Adjncy)]), and a non-nil [Vwgt] has one entry per
    vertex. *)
Theorem ReadGraphFile_wellformed_without_blank_lines :
  forall (R : Type) (sc : Scanner R)
         (Fields : string -> list string) (Atoi : string -> Z * option error),
    (forall s, is_int64 (fst (Atoi s))) ->
    forall (r : R) (g : Graph),
      ReadGraphFile Fields Atoi r = Done (Some g, None) ->
      (forall i line, 0 <= i < NumVertices g ->
                      vertex_line r (Z.to_nat i) = Some line -> Fields line <> []) ->
      len (Adjncy g) < 2 ^ 31 ->
      exists xs adj,
        Xadj g = Some xs /\ Adjncy g = Some adj /\ xadj_wellformed xs adj /\
        (Vwgt g = None \/ len (Vwgt g) = NumVertices g).
Proof.
  intros R sc Fields Atoi HAtoi r g Hread Hlines Hsmall.
  destruct (ReadGraphFile_success Fields Atoi HAtoi r g Hread)
    as (hd & h0 & hs & nvtxs & hv & he & st & Hscan & _ & _ & _ & Hn & Hloop & ->).
  pose proof (read_vertices_length Fields Atoi _ _ _ _ _ _ Hloop) as Hlen.
  cbn [xadj] in Hlen. rewrite length_insert, length_replicate in Hlen.
  unfold NumVertices in *. cbn [Xadj Adjncy Vwgt len] in *.
  destruct (read_vertices_csr Fields Atoi _ 0 hv he _ st (Z.le_refl 0) Hloop)
    as [(Hzero & Hlast & Hmono) Hvw]; [ |exact Hsmall| |].
  - intros j line Hj Hline.
    apply (Hlines (Z.of_nat j) (Text line)); [lia|].
    unfold vertex_line. rewrite Nat2Z.id.
    change (scans (2 + j) r)
      with (let '(more, sc') := Scan r in if more then scans (S j) sc' else None).
    rewrite Hscan. cbn [scanner] in Hline. rewrite Hline. reflexivity.
  - cbn [xadj adjncy length]. split; [|split].
    + apply list_lookup_insert_eq. rewrite length_replicate. lia.
    + apply list_lookup_insert_eq. rewrite length_replicate. lia.
    + intros k a b Hk. cbn in Hk. lia.
  - exists (xadj st), (adjncy st).
    split; [reflexivity|]. split; [reflexivity|]. split.
    + split; [|split].
      * intros i a b Ha Hb. apply (Hmono i); [|exact Ha|exact Hb].
        apply lookup_lt_Some in Hb. cbn in *. lia.
      * exact Hzero.
      * rewrite last_lookup. rewrite Hlen.
        replace (Nat.pred (Z.to_nat (nvtxs + 1))) with (Z.to_nat 0 + Z.to_nat nvtxs)%nat by lia.
        exact Hlast.
    + destruct hv; [right|left; reflexivity].
      cbn [len vwgt length] in *. lia.
Qed.

Lemma ReadGraphFile_wellformed_without_blank_lines_witness :
  exists xs adj,
    GoLib.ReadGraphString weighted_file
      = Done (Some {| Xadj := Some xs; Adjncy := Some adj;
                      Vwgt := Some [5; 6; 4]; Adjwgt := Some [7; 7; 9; 9] |}, None) /\
    xadj_wellformed xs adj.
Proof.
  exists [0; 1; 3; 4], [1; 0; 2; 1].
  assert (Hrun : GoLib.ReadGraphString weighted_file
                 = Done (Some {| Xadj := Some [0; 1; 3; 4]; Adjncy := Some [1; 0; 2; 1];
                                 Vwgt := Some [5; 6; 4]; Adjwgt := Some [7; 7; 9; 9] |},
                         None)) by (vm_compute; reflexivity).
  split; [exact Hrun|].
  destruct (ReadGraphFile_wellformed_without_blank_lines
              GoLib.LineScanner GoLib.line_scanner
              GoLib.Fields GoLib.Atoi GoLib_Atoi_int _ _ Hrun)
    as (xs & adj & Hxs & Hadj & Hwf & _).
  - intros i line Hi Hline. unfold NumVertices in Hi. cbn in Hi.
    assert (Hcases : i = 0 \/ i = 1 \/ i = 2) by lia.
    destruct Hcases as [-> | [-> | ->]]; vm_compute in Hline;
      injection Hline as <-; vm_compute; discriminate.
  - vm_compute. reflexivity.
  - cbn in Hxs, Hadj. injection Hxs as <-. injection Hadj as <-. exact Hwf.
Defined.

(** X20: a header with a negative vertex count is not reported as an
    error: [ReadGraphFile] panics (in [make], or at [xadj[0] = 0] when
    the count is -1). *)
Theorem ReadGraphFile_negative_count_panics :
  forall (R : Type) (sc : Scanner R)
         (Fields : string -> list string) (Atoi : string -> Z * option error)
         (r header : R) (h0 : string) (hs : list string) (nvtxs : Z),
    Scan r = (true, header) ->
    Fields (Text header) = h0 :: hs -> hs <> [] ->
    Atoi h0 = (nvtxs, None) ->
    - 2 ^ 63 <= nvtxs < 0 ->
    ReadGraphFile Fields Atoi r = Panic.
Proof.
  intros R sc Fields Atoi. apply ReadGraphFile_negative.
Qed.

Lemma ReadGraphFile_negative_count_panics_witness :
  GoLib.ReadGraphString negative_count_file = Panic.
Proof.
  apply (ReadGraphFile_negative_count_panics GoLib.LineScanner GoLib.line_scanner
           GoLib.Fields GoLib.Atoi (GoLib.NewScanner negative_count_file)
           {| GoLib.pending := []; GoLib.token := "-3 0" |} "-3" ["0"] (-3)).
  - vm_compute. reflexivity.
  - vm_compute. reflexivity.
  - discriminate.
  - vm_compute. reflexivity.
  - lia.
Defined.

(** ** The ordering check of the test suite *)

(** The loop of [verifyND] runs to its end exactly when both look-ups
    succeed and give back the index at each of its passes. *)
Lemma verifyND_from_zero (perm iperm : slice Z) n : forall i,
  verifyND_from n i perm iperm = Done 0 <->
  forall k, (k < n)%nat ->
    exists a c,
      index iperm (i + Z.of_nat k) = Done a /\
      index perm a = Done (int32 (i + Z.of_nat k)) /\
      index perm (i + Z.of_nat k) = Done c /\
      index iperm c = Done (int32 (i + Z.of_nat k)).
Proof.
  induction n as [|n IH]; intros i.
  - split; [intros _ k Hk; lia|reflexivity].
  - cbn [verifyND_from]. split.
    + intros Hrun.
      apply bind_Done in Hrun. destruct Hrun as (a & Ha & Hrun).
      apply bind_Done in Hrun. destruct Hrun as (b & Hb & Hrun).
      destruct (Z.eqb_spec (int32 i) b) as [<-|]; cbn [negb] in Hrun; [|discriminate].
      apply bind_Done in Hrun. destruct Hrun as (c & Hc & Hrun).
      apply bind_Done in Hrun. destruct Hrun as (d & Hd & Hrun).
      destruct (Z.eqb_spec (int32 i) d) as [<-|]; cbn [negb] in Hrun; [|discriminate].
      intros [|k] Hk.
      * change (Z.of_nat 0) with 0. rewrite Z.add_0_r. exists a, c. auto.
      * assert (Hkn : (k < n)%nat) by lia.
        destruct (proj1 (IH (i + 1)) Hrun k Hkn) as (a' & c' & Hinv).
        replace (i + Z.of_nat (S k)) with (i + 1 + Z.of_nat k) by lia.
        exists a', c'. exact Hinv.
    + intros Hall.
      destruct (Hall O (Nat.lt_0_succ n)) as (a & c & Ha & Hb & Hc & Hd).
      change (Z.of_nat 0) with 0 in Ha, Hb, Hc, Hd. rewrite Z.add_0_r in Ha, Hb, Hc, Hd.
      rewrite Ha. cbn [mbind go_mbind go_bind].
      rewrite Hb. cbn [mbind go_mbind go_bind]. rewrite Z.eqb_refl. cbn [negb].
      rewrite Hc. cbn [mbind go_mbind go_bind].
      rewrite Hd. cbn [mbind go_mbind go_bind]. rewrite Z.eqb_refl. cbn [negb].
      apply IH. intros k Hk.
      assert (Hkn : (S k < S n)%nat) by lia.
      destruct (Hall (S k) Hkn) as (a' & c' & Hinv).
      replace (i + 1 + Z.of_nat k) with (i + Z.of_nat (S k)) by lia.
      exists a', c'. exact Hinv.
Qed.

(** The check of [verifyND], vertex by vertex. *)
Lemma verifyND_inverse (nvtxs : Z) (perm iperm : slice Z) :
  0 <= nvtxs < 2 ^ 31 ->
  (verifyND nvtxs perm iperm = Done 0 <->
   forall i, 0 <= i < nvtxs ->
     exists a c,
       index iperm i = Done a /\ index perm a = Done i /\
       index perm i = Done c /\ index iperm c = Done i).
Proof.
  intros Hn. unfold verifyND. rewrite verifyND_from_zero. split.
  - intros Hall i Hi.
    assert (Hk : (Z.to_nat i < Z.to_nat nvtxs)%nat) by lia.
    destruct (Hall (Z.to_nat i) Hk) as (a & c & Hinv).
    rewrite Z.add_0_l, Z2Nat.id in Hinv by lia.
    rewrite int32_id in Hinv by (unfold is_int32; lia).
    exists a, c. exact Hinv.
  - intros Hall k Hk.
    assert (Hi : 0 <= Z.of_nat k < nvtxs) by lia.
    destruct (Hall (Z.of_nat k) Hi) as (a & c & Hinv).
    rewrite Z.add_0_l. rewrite int32_id by (unfold is_int32; lia).
    exists a, c. exact Hinv.
Qed.

(** X21: for fewer than 2^31 vertices, [verifyND] returns 0 exactly when
    for every vertex [i] the entries [iperm[i]] and [perm[i]] are valid
    indices and [perm[iperm[i]] = i = iperm[perm[i]]]. *)
Theorem verifyND_accepts_iff_inverse (nvtxs : Z) (perm iperm : slice Z) :
  0 <= nvtxs < 2 ^ 31 ->
  (verifyND nvtxs perm iperm = Done 0 <->
   forall i, 0 <= i < nvtxs ->
     exists a c,
       index iperm i = Done a /\ index perm a = Done i /\
       index perm i = Done c /\ index iperm c = Done i).
Proof. exact (verifyND_inverse nvtxs perm iperm). Qed.

Lemma verifyND_accepts_iff_inverse_witness :
  exists a c,
    index (Some [1; 2; 0]) 1 = Done a /\ index (Some [2; 0; 1]) a = Done 1 /\
    index (Some [2; 0; 1]) 1 = Done c /\ index (Some [1; 2; 0]) c = Done 1.
Proof.
  assert (Hn : 0 <= 3 < 2 ^ 31) by lia.
  assert (Hi : 0 <= 1 < 3) by lia.
  exact (proj1 (verifyND_accepts_iff_inverse 3 (Some [2; 0; 1]) (Some [1; 2; 0]) Hn)
           eq_refl 1 Hi).
Defined.

(** X22: when [perm] and [iperm] have [nvtxs] entries each and
    [verifyND] returns 0, both are permutations of the vertices: every
    entry is a vertex, no entry occurs twice and every vertex occurs. *)
Theorem verifyND_accepts_permutations (nvtxs : Z) (perm iperm : list Z) :
  0 <= nvtxs < 2 ^ 31 ->
  Z.of_nat (length perm) = nvtxs -> Z.of_nat (length iperm) = nvtxs ->
  verifyND nvtxs (Some perm) (Some iperm) = Done 0 ->
  (NoDup perm /\ Forall (fun x => 0 <= x < nvtxs) perm /\
   forall i, 0 <= i < nvtxs -> i ∈ perm) /\
  (NoDup iperm /\ Forall (fun x => 0 <= x < nvtxs) iperm /\
   forall i, 0 <= i < nvtxs -> i ∈ iperm).
Proof.
  intros Hn Hperm Hiperm Hrun.
  pose proof (proj1 (verifyND_inverse nvtxs _ _ Hn) Hrun) as Hall.
  assert (Hat : forall (l : list Z) (i : nat) (x : Z),
            Z.of_nat (length l) = nvtxs -> l !! i = Some x ->
            0 <= Z.of_nat i < nvtxs /\ index (Some l) (Z.of_nat i) = Done x).
  { intros l i x Hl Hx. pose proof (lookup_lt_Some _ _ _ Hx) as Hlt.
    split; [lia|]. apply index_Some; [lia|]. rewrite Nat2Z.id. exact Hx. }
  assert (Hin : forall (l : list Z) (a x : Z),
            Z.of_nat (length l) = nvtxs -> index (Some l) a = Done x ->
            0 <= a < nvtxs /\ l !! Z.to_nat a = Some x).
  { intros l a x Hl Hx. apply index_Done in Hx.
    destruct Hx as (l' & Hsome & Ha & Hx). injection Hsome as <-. split; [lia|exact Hx]. }
  split; (split; [|split]).
  - apply NoDup_alt. intros i j x Hi Hj.
    destruct (Hat _ _ _ Hperm Hi) as [Hri Hxi]. destruct (Hat _ _ _ Hperm Hj) as [Hrj Hxj].
    destruct (Hall _ Hri) as (_ & c & _ & _ & Hc & Hback).
    destruct (Hall _ Hrj) as (_ & d & _ & _ & Hd & Hback').
    rewrite Hxi in Hc. injection Hc as <-. rewrite Hxj in Hd. injection Hd as <-.
    rewrite Hback in Hback'. injection Hback' as Heq. lia.
  - apply Forall_lookup. intros i x Hi.
    destruct (Hat _ _ _ Hperm Hi) as [Hri Hxi].
    destruct (Hall _ Hri) as (_ & c & _ & _ & Hc & Hback).
    rewrite Hxi in Hc. injection Hc as <-.
    destruct (Hin _ _ _ Hiperm Hback) as [Hrange _]. exact Hrange.
  - intros i Hi. destruct (Hall _ Hi) as (a & _ & _ & Ha & _).
    destruct (Hin _ _ _ Hperm Ha) as [_ Hlook].
    apply (list_elem_of_lookup_2 _ (Z.to_nat a)). exact Hlook.
  - apply NoDup_alt. intros i j x Hi Hj.
    destruct (Hat _ _ _ Hiperm Hi) as [Hri Hxi]. destruct (Hat _ _ _ Hiperm Hj) as [Hrj Hxj].
    destruct (Hall _ Hri) as (a & _ & Ha & Hback & _).
    destruct (Hall _ Hrj) as (b & _ & Hb & Hback' & _).
    rewrite Hxi in Ha. injection Ha as <-. rewrite Hxj in Hb. injection Hb as <-.
    rewrite Hback in Hback'. injection Hback' as Heq. lia.
  - apply Forall_lookup. intros i x Hi.
    destruct (Hat _ _ _ Hiperm Hi) as [Hri Hxi].
    destruct (Hall _ Hri) as (a & _ & Ha & Hback & _).
    rewrite Hxi in Ha. injection Ha as <-.
    destruct (Hin _ _ _ Hperm Hback) as [Hrange _]. exact Hrange.
  - intros i Hi. destruct (Hall _ Hi) as (_ & c & _ & _ & _ & Hc).
    destruct (Hin _ _ _ Hiperm Hc) as [_ Hlook].
    apply (list_elem_of_lookup_2 _ (Z.to_nat c)). exact Hlook.
Qed.

Lemma verifyND_accepts_permutations_witness :
  NoDup [2; 0; 1] /\ NoDup [1; 2; 0].
Proof.
  assert (Hn : 0 <= 3 < 2 ^ 31) by lia.
  destruct (verifyND_accepts_permutations 3 [2; 0; 1] [1; 2; 0] Hn eq_refl eq_refl eq_refl)
    as [(Hperm & _) (Hiperm & _)].
  split; assumption.
Defined.

(** ** Default options *)

(** X23: [SetDefaultOptions] never changes the length of the caller's
    array; an array of the wrong length is left as it is and reported,
    whatever the library would do; and an array for which it returns no
    error has [NoOptions] entries, so that the wrappers hand it to the
    library instead of dropping it. *)
Theorem SetDefaultOptions_result `{MetisHeader} (library : list Z -> metis_reply)
    (opts opts' : slice Z) (e : option error) :
  SetDefaultOptions library opts = Done (opts', e) ->
  len opts' = len opts /\
  (len opts <> NoOptions -> opts' = opts /\ e <> None) /\
  (e = None -> len opts' = NoOptions /\ options_ptr opts' = Done opts').
Proof.
  unfold SetDefaultOptions.
  destruct (Z.eqb_spec (len opts) NoOptions) as [Hlen|Hlen]; cbn [negb].
  - destruct opts as [[|x l]|]; cbn [addr0 mbind go_mbind go_bind];
      [discriminate| |discriminate].
    assert (Hkeep : len (Some (written (array_out1 (library (x :: l))) (x :: l)))
                    = len (Some (x :: l))).
    { unfold written. cbn [len]. rewrite length_imap. reflexivity. }
    assert (Hptr : options_ptr (Some (written (array_out1 (library (x :: l))) (x :: l)))
                   = Done (Some (written (array_out1 (library (x :: l))) (x :: l)))).
    { unfold options_ptr. rewrite Hkeep, Hlen, Z.eqb_refl. reflexivity. }
    destruct (ret (library (x :: l)) =? OK); cbn [negb]; intros Hrun;
      injection Hrun as <- <-.
    + split; [exact Hkeep|]. split; [intros Hne; contradiction|].
      intros _. split; [rewrite Hkeep; exact Hlen|exact Hptr].
    + split; [exact Hkeep|]. split; [intros Hne; contradiction|discriminate].
  - intros Hrun. injection Hrun as <- <-.
    split; [reflexivity|]. split; [|discriminate].
    intros _. split; [reflexivity|discriminate].
Qed.

Lemma SetDefaultOptions_result_witness :
  @SetDefaultOptions metis_5_1_0 metis_defaults (Some (replicate 40 0))
    = Done (Some (replicate 40 (-1)), None) /\
  @options_ptr metis_5_1_0 (Some (replicate 40 (-1))) = Done (Some (replicate 40 (-1))).
Proof.
  assert (Hrun : @SetDefaultOptions metis_5_1_0 metis_defaults (Some (replicate 40 0))
                 = Done (Some (replicate 40 (-1)), None)) by (vm_compute; reflexivity).
  split; [exact Hrun|].
  exact (proj2 (proj2 (proj2 (@SetDefaultOptions_result metis_5_1_0 metis_defaults
                                _ _ _ Hrun)) eq_refl)).
Defined.

(** ** Writing a partition *)

Section WritePartitionFacts.

Context {W : Type} `{Writer W}.
Variable Itoa : Z -> string.

(** Writing [a ++ b] is writing [a] and, when that went well, writing
    [b] to what the writer has become. *)
Lemma write_entries_app (a b : list Z) : forall w,
  write_entries Itoa w (a ++ b)
  = let '(w1, e) := write_entries Itoa w a in
    match e with
    | None => write_entries Itoa w1 b
    | Some _ => (w1, e)
    end.
Proof.
  induction a as [|p a IH]; intros w; [reflexivity|].
  cbn [app write_entries].
  destruct (Write w (Itoa p ++ GoLib.nl)) as [w' [e|]]; [reflexivity|apply IH].
Qed.

Lemma write_entries_all (part : list Z) :
  (forall w s, snd (Write w s) = None) ->
  forall w,
    write_entries Itoa w part
    = (fold_left (fun w p => fst (Write w (Itoa p ++ GoLib.nl))) part w, None).
Proof.
  intros Hgood. induction part as [|p part IH]; intros w; [reflexivity|].
  cbn [write_entries fold_left]. specialize (Hgood w (Itoa p ++ GoLib.nl)%string).
  destruct (Write w (Itoa p ++ GoLib.nl)) as [w' e]. cbn [fst snd] in *. subst e.
  apply IH.
Qed.

End WritePartitionFacts.

(** X24: [WritePartitioning] stops at the first write that fails and
    returns its error: the entries after it are never written, and the
    writer is left as that write left it. *)
Theorem WritePartitioning_stops_at_first_error :
  forall (W : Type) (wr : Writer W) (Itoa : Z -> string)
         (w w1 w2 : W) (before : list Z) (p : Z) (e : error),
    WritePartitioning Itoa w (Some before) = (w1, None) ->
    Write w1 (Itoa p ++ GoLib.nl) = (w2, Some e) ->
    forall after,
      WritePartitioning Itoa w (Some (before ++ p :: after)) = (w2, Some e).
Proof.
  intros W wr Itoa w w1 w2 before p e Hbefore Hfail after.
  change (write_entries Itoa w before = (w1, None)) in Hbefore.
  change (write_entries Itoa w (before ++ p :: after) = (w2, Some e)).
  rewrite write_entries_app, Hbefore. cbn [write_entries]. rewrite Hfail. reflexivity.
Qed.

Lemma WritePartitioning_stops_at_first_error_witness :
  WritePartitioning GoFmt.Itoa {| GoFmt.room := 5; GoFmt.contents := "" |}
    (Some [0; 1; 10; 2; 3])
  = ({| GoFmt.room := 1; GoFmt.contents := "0" ++ GoLib.nl ++ "1" ++ GoLib.nl |},
     Some (errors_New "short write")).
Proof.
  apply (WritePartitioning_stops_at_first_error GoFmt.LimitedWriter GoFmt.limited_writer
           GoFmt.Itoa {| GoFmt.room := 5; GoFmt.contents := "" |}
           {| GoFmt.room := 1; GoFmt.contents := "0" ++ GoLib.nl ++ "1" ++ GoLib.nl |}
           {| GoFmt.room := 1; GoFmt.contents := "0" ++ GoLib.nl ++ "1" ++ GoLib.nl |}
           [0; 1] 10 (errors_New "short write")).
  - vm_compute. reflexivity.
  - vm_compute. reflexivity.
Defined.

(** X25: on a writer that never fails, [WritePartitioning] returns nil
    after one write per entry of [part], first entry first, each the
    decimal form of the entry followed by a line feed. *)
Theorem WritePartitioning_writes_every_entry :
  forall (W : Type) (wr : Writer W) (Itoa : Z -> string),
    (forall w s, snd (Write w s) = None) ->
    forall (w : W) (part : slice Z),
      WritePartitioning Itoa w part
      = (fold_left (fun w p => fst (Write w (Itoa p ++ GoLib.nl))) (default [] part) w,
         None).
Proof.
  intros W wr Itoa Hgood w part. unfold WritePartitioning.
  apply write_entries_all. exact Hgood.
Qed.

Lemma WritePartitioning_writes_every_entry_witness :
  WritePartitioning GoFmt.Itoa "" (Some [0; 12; -3])
  = (("0" ++ GoLib.nl ++ "12" ++ GoLib.nl ++ "-3" ++ GoLib.nl)%string, None).
Proof.
  rewrite (WritePartitioning_writes_every_entry string GoFmt.buffer GoFmt.Itoa
             (fun w s => eq_refl) "" (Some [0; 12; -3])).
  vm_compute. reflexivity.
Defined.

(** ** The statistics of the partition example *)

Lemma store_exact {A} (l l' : list A) (i : Z) (x : A) :
  store l i x = Done l' ->
  0 <= i < Z.of_nat (length l) /\ l' = <[Z.to_nat i := x]> l.
Proof.
  unfold store.
  destruct (Z.leb_spec 0 i); destruct (Z.ltb_spec i (Z.of_nat (length l)));
    cbn [andb]; try discriminate.
  intros [= <-]. split; [lia|reflexivity].
Qed.

Lemma store_in_range {A} (l : list A) (i : Z) (x : A) :
  0 <= i < Z.of_nat (length l) -> store l i x = Done (<[Z.to_nat i := x]> l).
Proof.
  intros Hi. unfold store.
  destruct (Z.leb_spec 0 i); destruct (Z.ltb_spec i (Z.of_nat (length l)));
    cbn [andb]; try lia. reflexivity.
Qed.

Module PartitionExampleFacts.
Import PartitionExample.

(** One pass of the loop of [calculatePartitionStats] that goes on: the
    part id indexes [stats], and the entry of that part gets one more
    vertex and the weight of the vertex. *)
Lemma count_vertices_step (vwgt : slice Z) (i p : Z) (rest : list Z)
    (stats stats' : list partitionInfo) :
  count_vertices i (p :: rest) vwgt stats = Done stats' ->
  exists s x,
    0 <= p < Z.of_nat (length stats) /\
    stats !! Z.to_nat p = Some s /\
    match vwgt with
    | Some _ => if i <? len vwgt then index vwgt i else Done 1
    | None => Done 1
    end = Done x /\
    count_vertices (i + 1) rest vwgt
      (<[Z.to_nat p := {| count := int64 (count s + 1);
                          weight := int64 (weight s + x) |}]> stats) = Done stats'.
Proof.
  cbn [count_vertices]. intros Hrun.
  apply bind_Done in Hrun. destruct Hrun as (s & Hs & Hrun).
  apply index_Done in Hs. destruct Hs as (l & Hsome & Hp & Hs). injection Hsome as <-.
  apply bind_Done in Hrun. destruct Hrun as (stats1 & Hstore & Hrun).
  apply store_exact in Hstore. destruct Hstore as [_ ->].
  apply bind_Done in Hrun. destruct Hrun as (stats2 & Hbranch & Hrun).
  assert (Hadd : exists x,
                   match vwgt with
                   | Some _ => if i <? len vwgt then index vwgt i else Done 1
                   | None => Done 1
                   end = Done x /\
                   add_weight (<[Z.to_nat p := {| count := int64 (count s + 1);
                                                  weight := weight s |}]> stats) p x
                   = Done stats2).
  { destruct vwgt as [v|]; [|eauto].
    destruct (i <? len (Some v)); [|eauto].
    apply bind_Done in Hbranch. destruct Hbranch as (x & Hx & Hbranch). eauto. }
  destruct Hadd as (x & Hx & Hadd).
  unfold add_weight in Hadd.
  apply bind_Done in Hadd. destruct Hadd as (s1 & Hs1 & Hadd).
  apply index_Done in Hs1. destruct Hs1 as (l & Hsome & _ & Hs1). injection Hsome as <-.
  rewrite list_lookup_insert_eq in Hs1 by lia. injection Hs1 as <-.
  apply store_exact in Hadd. destruct Hadd as [_ ->].
  rewrite list_insert_insert_eq in Hrun. cbn [count weight] in Hrun.
  exists s, x. split; [exact Hp|]. split; [exact Hs|]. split; [exact Hx|exact Hrun].
Qed.

(** The weights that [calculatePartitionStats] collects are the part
    weights of [CalculatePartitionBalance]. *)
Lemma count_vertices_weights (vwgt : slice Z) (rest : list Z) :
  forall i stats stats',
    count_vertices i rest vwgt stats = Done stats' ->
    add_weights i rest vwgt (weight <$> stats) = Done (weight <$> stats').
Proof.
  induction rest as [|p rest IH]; intros i stats stats' Hrun.
  - cbn in Hrun. injection Hrun as <-. reflexivity.
  - apply count_vertices_step in Hrun.
    destruct Hrun as (s & x & Hp & Hs & Hx & Hrun).
    apply IH in Hrun. rewrite list_fmap_insert in Hrun. cbn [weight] in Hrun.
    cbn [add_weights]. rewrite Hx.
    cbn [mbind go_mbind go_bind].
    rewrite (index_Some (weight <$> stats) p (weight s))
      by (lia || (rewrite list_lookup_fmap, Hs; reflexivity)).
    cbn [mbind go_mbind go_bind].
    rewrite store_in_range by (rewrite length_fmap; lia).
    cbn [mbind go_mbind go_bind]. exact Hrun.
Qed.

(** The loop counts every vertex once. *)
Lemma count_vertices_counts (vwgt : slice Z) (rest : list Z) :
  forall i stats stats',
    count_vertices i rest vwgt stats = Done stats' ->
    length stats' = length stats /\
    (Forall (fun s => 0 <= count s) stats ->
     total (count <$> stats) + Z.of_nat (length rest) < 2 ^ 63 ->
     Forall (fun s => 0 <= count s) stats' /\
     total (count <$> stats') = total (count <$> stats) + Z.of_nat (length rest)).
Proof.
  induction rest as [|p rest IH]; intros i stats stats' Hrun.
  - cbn in Hrun. injection Hrun as <-. split; [reflexivity|].
    intros Hpos _. split; [exact Hpos|cbn [length]; lia].
  - apply count_vertices_step in Hrun.
    destruct Hrun as (s & x & Hp & Hs & _ & Hrun).
    apply IH in Hrun. destruct Hrun as [Hlen Hcount].
    rewrite length_insert in Hlen. split; [exact Hlen|].
    intros Hpos Hmax. cbn [length] in Hmax. rewrite Nat2Z.inj_succ in Hmax.
    assert (Hcs : 0 <= count s <= total (count <$> stats)).
    { apply (entry_le_total (count <$> stats)) with (k := Z.to_nat p).
      - apply Forall_fmap. exact Hpos.
      - rewrite list_lookup_fmap, Hs. reflexivity. }
    assert (Hone : int64 (count s + 1) = count s + 1)
      by (apply int64_id; unfold is_int64; lia).
    rewrite Hone in Hcount.
    assert (Htotal : total (count <$> <[Z.to_nat p := {| count := count s + 1;
                                                         weight := int64 (weight s + x) |}]> stats)
                     = total (count <$> stats) + 1).
    { rewrite list_fmap_insert. cbn [count].
      rewrite (total_insert _ (Z.to_nat p) (count s))
        by (rewrite list_lookup_fmap, Hs; reflexivity).
      lia. }
    destruct Hcount as [Hpos' Htotal'].
    + apply Forall_insert; [exact Hpos|cbn [count]; lia].
    + rewrite Htotal. lia.
    + split; [exact Hpos'|]. rewrite Htotal', Htotal.
      cbn [length]. rewrite Nat2Z.inj_succ. lia.
Qed.

(** The loop goes on exactly as long as the part ids index [stats]. *)
Lemma count_vertices_returns_iff (vwgt : slice Z) (rest : list Z) :
  forall i stats,
    0 <= i ->
    ((exists stats', count_vertices i rest vwgt stats = Done stats') <->
     Forall (part_id (Z.of_nat (length stats))) rest).
Proof.
  induction rest as [|p rest IH]; intros i stats Hi.
  - split; [constructor|]. intros _. eexists. reflexivity.
  - split.
    + intros (stats' & Hrun). apply count_vertices_step in Hrun.
      destruct Hrun as (s & x & Hp & _ & _ & Hrun).
      constructor; [exact Hp|].
      assert (Hnext : 0 <= i + 1) by lia.
      pose proof (proj1 (IH (i + 1) _ Hnext) (ex_intro _ stats' Hrun)) as Hall.
      rewrite length_insert in Hall. exact Hall.
    + intros Hall. inversion Hall as [|p' rest' Hp Hrest]; subst.
      unfold part_id in Hp.
      destruct (lookup_lt_is_Some_2 stats (Z.to_nat p)) as [s Hs]; [lia|].
      destruct (vertex_weight_no_call vwgt i Hi) as (x & Hx).
      assert (Hnext : 0 <= i + 1) by lia.
      destruct (proj2 (IH (i + 1)
                  (<[Z.to_nat p := {| count := int64 (count s + 1);
                                      weight := int64 (weight s + x) |}]> stats) Hnext))
        as (stats' & Hrun); [rewrite length_insert; exact Hrest|].
      exists stats'. cbn [count_vertices].
      rewrite (index_Some stats p s) by (lia || exact Hs).
      cbn [mbind go_mbind go_bind].
      rewrite store_in_range by lia. cbn [mbind go_mbind go_bind].
      assert (Hadd : add_weight (<[Z.to_nat p := {| count := int64 (count s + 1);
                                                    weight := weight s |}]> stats) p x
                     = Done (<[Z.to_nat p := {| count := int64 (count s + 1);
                                                weight := int64 (weight s + x) |}]> stats)).
      { unfold add_weight.
        rewrite (index_Some _ p {| count := int64 (count s + 1); weight := weight s |})
          by (lia || (apply list_lookup_insert_eq; lia)).
        cbn [mbind go_mbind go_bind].
        rewrite store_in_range by (rewrite length_insert; lia).
        rewrite list_insert_insert_eq. reflexivity. }
      destruct vwgt as [v|].
      * destruct (i <? len (Some v)).
        -- rewrite Hx. cbn [mbind go_mbind go_bind]. rewrite Hadd.
           cbn [mbind go_mbind go_bind]. exact Hrun.
        -- injection Hx as <-. rewrite Hadd. cbn [mbind go_mbind go_bind]. exact Hrun.
      * injection Hx as <-. rewrite Hadd. cbn [mbind go_mbind go_bind]. exact Hrun.
Qed.

End PartitionExampleFacts.

(** X26: the example's [calculatePartitionStats] and the package's
    [CalculatePartitionBalance] agree: for at least one part, when the
    first returns, the second returns the minimum, the maximum and the
    total of the weights that the first lists. *)
Theorem calculatePartitionStats_weights_agree (part vwgt : slice Z) (nparts : Z)
    (stats : list PartitionExample.partitionInfo) :
  PartitionExample.calculatePartitionStats part vwgt nparts = Done stats ->
  1 <= nparts ->
  exists first,
    (PartitionExample.weight <$> stats) !! O = Some first /\
    CalculatePartitionBalance part vwgt nparts
    = Done (fold_left
              (fun '(minWeight, maxWeight, totalWeight) w =>
                 (if w <? minWeight then w else minWeight,
                  if maxWeight <? w then w else maxWeight,
                  int64 (totalWeight + w)))
              (PartitionExample.weight <$> stats) (first, first, 0)).
Proof.
  intros Hrun Hparts. unfold PartitionExample.calculatePartitionStats in Hrun.
  apply bind_Done in Hrun. destruct Hrun as (stats0 & Hmake & Hrun).
  unfold PartitionExample.make_stats in Hmake.
  destruct (Z.ltb_spec nparts 0); [discriminate|]. injection Hmake as <-.
  pose proof (PartitionExampleFacts.count_vertices_counts _ _ _ _ _ Hrun) as [Hlen _].
  rewrite length_replicate in Hlen.
  apply PartitionExampleFacts.count_vertices_weights in Hrun.
  rewrite fmap_replicate in Hrun. cbn [PartitionExample.weight] in Hrun.
  destruct (lookup_lt_is_Some_2 (PartitionExample.weight <$> stats) O) as [first Hfirst].
  { rewrite length_fmap. lia. }
  exists first. split; [exact Hfirst|].
  unfold CalculatePartitionBalance, make.
  destruct (Z.ltb_spec nparts 0); [lia|]. cbn [mbind go_mbind go_bind].
  rewrite Hrun. cbn [mbind go_mbind go_bind].
  rewrite (index_Some _ 0 first) by (lia || exact Hfirst).
  reflexivity.
Qed.

Lemma calculatePartitionStats_weights_agree_witness :
  CalculatePartitionBalance (Some [0; 1; 1; 0; 1]) (Some [5; 2; 2]) 2 = Done (5, 6, 11).
Proof.
  destruct (calculatePartitionStats_weights_agree (Some [0; 1; 1; 0; 1]) (Some [5; 2; 2]) 2
              [{| PartitionExample.count := 2; PartitionExample.weight := 6 |};
               {| PartitionExample.count := 3; PartitionExample.weight := 5 |}])
    as (first & Hfirst & Hrun).
  - vm_compute. reflexivity.
  - lia.
  - injection Hfirst as <-. rewrite Hrun. vm_compute. reflexivity.
Defined.

(** X27: [calculatePartitionStats] returns exactly when [nparts] is not
    negative and every entry of [part] is a part id below [nparts]
    (otherwise it panics); the list it returns has one entry per part,
    and its vertex counts are not negative and add up to the number of
    vertices. *)
Theorem calculatePartitionStats_counts (part vwgt : slice Z) (nparts : Z) :
  len part < 2 ^ 63 ->
  ((exists stats, PartitionExample.calculatePartitionStats part vwgt nparts = Done stats) <->
   0 <= nparts /\ Forall (part_id nparts) (default [] part)) /\
  (forall stats,
     PartitionExample.calculatePartitionStats part vwgt nparts = Done stats ->
     Z.of_nat (length stats) = nparts /\
     Forall (fun s => 0 <= PartitionExample.count s) stats /\
     total (PartitionExample.count <$> stats) = len part).
Proof.
  intros Hsmall. unfold PartitionExample.calculatePartitionStats, PartitionExample.make_stats.
  assert (Hlen : len part = Z.of_nat (length (default [] part)))
    by (destruct part; reflexivity).
  destruct (Z.ltb_spec nparts 0) as [Hneg|Hparts]; cbn [mbind go_mbind go_bind].
  - split; [|intros stats Hrun; discriminate].
    split; [intros (stats & Hrun); discriminate|lia].
  - split.
    + rewrite (PartitionExampleFacts.count_vertices_returns_iff vwgt _ 0 _ (Z.le_refl 0)).
      rewrite length_replicate, Z2Nat.id by lia. tauto.
    + intros stats Hrun.
      apply PartitionExampleFacts.count_vertices_counts in Hrun.
      destruct Hrun as [Hsize Hcount]. rewrite length_replicate in Hsize.
      split; [lia|].
      rewrite fmap_replicate in Hcount. cbn [PartitionExample.count] in Hcount.
      rewrite total_replicate_zero in Hcount. rewrite Hlen.
      apply Hcount; [|lia].
      apply Forall_replicate. cbn. lia.
Qed.

Lemma calculatePartitionStats_counts_witness :
  total (PartitionExample.count <$>
           [{| PartitionExample.count := 2; PartitionExample.weight := 6 |};
            {| PartitionExample.count := 3; PartitionExample.weight := 5 |}])
  = len (Some [0; 1; 1; 0; 1]).
Proof.
  assert (Hsmall : len (Some [0; 1; 1; 0; 1]) < 2 ^ 63) by (cbn; lia).
  apply (proj2 (calculatePartitionStats_counts (Some [0; 1; 1; 0; 1]) (Some [5; 2; 2]) 2
                  Hsmall)).
  vm_compute. reflexivity.
Defined.

Module DegreeStatsFacts.
Import PartitionExample.

(** On a well-formed graph the degree loop, started at vertex [i] with
    the total [xadj[i]], ends with the total [xadj[i + n]], a minimum and
    a maximum that bound the degree of every vertex it has seen. *)
Lemma degree_stats_wellformed (g : Graph) (xs adj : list Z) :
  Xadj g = Some xs -> xadj_wellformed xs adj -> Z.of_nat (length adj) < 2 ^ 31 ->
  forall n i mn mx t,
    0 <= i -> (Z.to_nat i + n < length xs)%nat ->
    xs !! Z.to_nat i = Some t -> 0 <= mn <= mx ->
    exists mn' mx' last,
      degree_stats n g i mn mx t = Done (mn', mx', last) /\
      xs !! (Z.to_nat i + n)%nat = Some last /\
      0 <= mn' <= mn /\ mx <= mx' /\
      Z.of_nat n * mn' <= last - t <= Z.of_nat n * mx' /\
      forall k a b, (Z.to_nat i <= k < Z.to_nat i + n)%nat ->
                    xs !! k = Some a -> xs !! S k = Some b -> mn' <= b - a <= mx'.
Proof.
  intros Hxs Hwf Hsmall. induction n as [|n IH]; intros i mn mx t Hi Hn Ht Hmm.
  - exists mn, mx, t. cbn [degree_stats]. rewrite Nat.add_0_r.
    split; [reflexivity|]. split; [exact Ht|]. split; [lia|]. split; [lia|].
    split; [lia|]. intros k a b Hk. lia.
  - destruct (lookup_lt_is_Some_2 xs (S (Z.to_nat i))) as [a Ha]; [lia|].
    destruct (wellformed_bounds xs adj (Z.to_nat i) t a Hwf Ht Ha) as [Hta Hadj].
    assert (Hnext : xs !! Z.to_nat (i + 1) = Some a)
      by (replace (Z.to_nat (i + 1)) with (S (Z.to_nat i)) by lia; exact Ha).
    cbn [degree_stats]. rewrite Hxs.
    rewrite (index_Some xs (i + 1) a) by (lia || exact Hnext).
    cbn [mbind go_mbind go_bind].
    rewrite (index_Some xs i t) by (lia || exact Ht).
    cbn [mbind go_mbind go_bind].
    rewrite (int32_id (a - t)) by (unfold is_int32; lia).
    rewrite (int64_id (t + (a - t))) by (unfold is_int64; lia).
    replace (t + (a - t)) with a by lia.
    assert (Hbounds : 0 <= (if a - t <? mn then a - t else mn)
                      <= (if mx <? a - t then a - t else mx))
      by (destruct (Z.ltb_spec (a - t) mn); destruct (Z.ltb_spec mx (a - t)); lia).
    assert (Hi1 : 0 <= i + 1) by lia.
    assert (Hn1 : (Z.to_nat (i + 1) + n < length xs)%nat) by lia.
    destruct (IH (i + 1) _ _ a Hi1 Hn1 Hnext Hbounds)
      as (mn' & mx' & last & Hrun & Hlast & Hmn & Hmx & Hsum & Hall).
    exists mn', mx', last. rewrite Hrun. split; [reflexivity|].
    replace (Z.to_nat (i + 1) + n)%nat with (Z.to_nat i + S n)%nat in Hlast by lia.
    split; [exact Hlast|].
    assert (Hdeg : mn' <= a - t <= mx')
      by (destruct (Z.ltb_spec (a - t) mn); destruct (Z.ltb_spec mx (a - t)); lia).
    split; [destruct (Z.ltb_spec (a - t) mn); lia|].
    split; [destruct (Z.ltb_spec mx (a - t)); lia|].
    split; [rewrite Nat2Z.inj_succ, !Z.mul_succ_l; lia|].
    intros k a' b' Hk Ha' Hb'.
    destruct (Nat.eq_dec k (Z.to_nat i)) as [->|Hne].
    + rewrite Ht in Ha'. rewrite Ha in Hb'. injection Ha' as <-. injection Hb' as <-.
      exact Hdeg.
    + apply (Hall k a' b'); [lia|assumption|assumption].
Qed.

(** The degree loop never leaves the index array as long as it stays
    below the number of vertices. *)
Lemma degree_stats_returns (g : Graph) (xs : list Z) :
  Xadj g = Some xs ->
  forall n i mn mx t,
    0 <= i -> (Z.to_nat i + n < length xs)%nat ->
    exists stats, degree_stats n g i mn mx t = Done stats.
Proof.
  intros Hxs. induction n as [|n IH]; intros i mn mx t Hi Hn.
  - eexists. reflexivity.
  - cbn [degree_stats]. rewrite Hxs.
    destruct (index_in_range xs (i + 1)) as (a & ->); [lia|].
    destruct (index_in_range xs i) as (b & ->); [lia|].
    cbn [mbind go_mbind go_bind]. apply IH; lia.
Qed.

End DegreeStatsFacts.

(** X28: on a graph that satisfies the CSR invariants, with at least one
    vertex and fewer than 2^31 adjacency entries, the example's
    [calculateDegreeStats] finds the total degree [len(Adjncy)], and a
    minimum and a maximum between which the result of [Degree] lies for
    every vertex and the average degree as well. *)
Theorem calculateDegreeStats_wellformed (g : Graph) (xs adj : list Z) :
  Xadj g = Some xs -> Adjncy g = Some adj ->
  xadj_wellformed xs adj -> Z.of_nat (length adj) < 2 ^ 31 ->
  len (Xadj g) <= max_int64 ->
  1 <= NumVertices g ->
  exists mn mx,
    PartitionExample.calculateDegreeStats g = Done (mn, mx, len (Adjncy g)) /\
    0 <= mn <= mx /\
    NumVertices g * mn <= len (Adjncy g) <= NumVertices g * mx /\
    forall v, 0 <= v < NumVertices g ->
              exists d, Degree g v = Done d /\ mn <= d <= mx.
Proof.
  intros Hxs Hadj Hwf Hsmall Hmax Hn.
  unfold PartitionExample.calculateDegreeStats, Degree, NumVertices, max_int64 in *.
  rewrite Hxs, Hadj in *. cbn [len] in *.
  destruct (Z.eqb_spec (Z.of_nat (length xs) - 1) 0); [lia|].
  pose proof Hwf as (_ & Hzero & Hend).
  destruct (lookup_lt_is_Some_2 xs 1) as [a1 H1]; [lia|].
  destruct (wellformed_bounds xs adj 0 0 a1 Hwf Hzero H1) as [Hfirst Hadj1].
  rewrite (index_Some xs 1 a1) by (lia || exact H1). cbn [mbind go_mbind go_bind].
  rewrite (index_Some xs 0 0) by (lia || exact Hzero). cbn [mbind go_mbind go_bind].
  rewrite (int32_id (a1 - 0)) by (unfold is_int32; lia).
  assert (Hrange : (Z.to_nat 0 + Z.to_nat (Z.of_nat (length xs) - 1) < length xs)%nat)
    by lia.
  assert (Hdeg0 : 0 <= a1 - 0 <= a1 - 0) by lia.
  destruct (DegreeStatsFacts.degree_stats_wellformed g xs adj Hxs Hwf Hsmall
              (Z.to_nat (Z.of_nat (length xs) - 1)) 0 (a1 - 0) (a1 - 0) 0
              (Z.le_refl 0) Hrange Hzero Hdeg0)
    as (mn & mx & last & Hrun & Hlast & Hmn & Hmx & Hsum & Hall).
  rewrite last_lookup in Hend.
  replace (Z.to_nat 0 + Z.to_nat (Z.of_nat (length xs) - 1))%nat
    with (Nat.pred (length xs)) in Hlast by lia.
  rewrite Hend in Hlast. injection Hlast as <-.
  exists mn, mx. rewrite Hrun. split; [reflexivity|].
  rewrite Z2Nat.id in Hsum by lia.
  split; [lia|]. split; [lia|].
  intros v Hv.
  rewrite int64_id by (unfold is_int64; lia).
  destruct (lookup_lt_is_Some_2 xs (Z.to_nat v)) as [a Ha]; [lia|].
  destruct (lookup_lt_is_Some_2 xs (S (Z.to_nat v))) as [b Hb]; [lia|].
  destruct (wellformed_bounds xs adj (Z.to_nat v) a b Hwf Ha Hb) as [Hab Hbadj].
  rewrite (index_Some xs (v + 1) b)
    by (lia || (replace (Z.to_nat (v + 1)) with (S (Z.to_nat v)) by lia; exact Hb)).
  cbn [mbind go_mbind go_bind].
  rewrite (index_Some xs v a) by (lia || exact Ha). cbn [mbind go_mbind go_bind].
  exists (b - a). rewrite int32_id by (unfold is_int32; lia).
  split; [reflexivity|]. apply (Hall (Z.to_nat v) a b); [lia|exact Ha|exact Hb].
Qed.

Lemma calculateDegreeStats_wellformed_witness :
  exists mn mx,
    PartitionExample.calculateDegreeStats
      {| Xadj := Some [0; 1; 3; 4]; Adjncy := Some [1; 0; 2; 1];
         Vwgt := None; Adjwgt := None |} = Done (mn, mx, 4) /\
    0 <= mn <= mx.
Proof.
  assert (Hwf : xadj_wellformed [0; 1; 3; 4] [1; 0; 2; 1]) by concrete_wellformed.
  assert (Hsmall : Z.of_nat (length [1; 0; 2; 1]) < 2 ^ 31) by (cbn; lia).
  assert (Hmax : len (Some [0; 1; 3; 4]) <= max_int64) by (vm_compute; discriminate).
  assert (Hn : 1 <= NumVertices {| Xadj := Some [0; 1; 3; 4]; Adjncy := Some [1; 0; 2; 1];
                                   Vwgt := None; Adjwgt := None |})
    by (vm_compute; discriminate).
  destruct (calculateDegreeStats_wellformed
              {| Xadj := Some [0; 1; 3; 4]; Adjncy := Some [1; 0; 2; 1];
                 Vwgt := None; Adjwgt := None |}
              [0; 1; 3; 4] [1; 0; 2; 1] eq_refl eq_refl Hwf Hsmall Hmax Hn)
    as (mn & mx & Hrun & Hbounds & _).
  exists mn, mx. split; [exact Hrun|exact Hbounds].
Defined.

(** X29: [calculateDegreeStats] returns exactly when [Xadj] has at least
    one entry; on a graph whose [Xadj] is nil or empty, for which
    [NumVertices()] is -1, it panics at [Xadj[1]]. *)
Theorem calculateDegreeStats_returns_iff (g : Graph) :
  (exists stats, PartitionExample.calculateDegreeStats g = Done stats) <->
  1 <= len (Xadj g).
Proof.
  unfold PartitionExample.calculateDegreeStats, NumVertices.
  destruct (Xadj g) as [xs|] eqn:Hxs; cbn [len].
  - destruct (Z.eqb_spec (Z.of_nat (length xs) - 1) 0) as [Hone|Hmore].
    + split; [lia|]. intros _. eexists. reflexivity.
    + split.
      * intros (stats & Hrun). destruct xs; [discriminate|cbn [length]; lia].
      * intros Hlen.
        destruct (index_in_range xs 1) as (a & ->); [lia|].
        destruct (index_in_range xs 0) as (b & ->); [lia|].
        cbn [mbind go_mbind go_bind].
        apply (DegreeStatsFacts.degree_stats_returns g xs Hxs); lia.
  - cbn. split; [intros (stats & Hrun); discriminate|lia].
Qed.

Lemma calculateDegreeStats_returns_iff_witness :
  PartitionExample.calculateDegreeStats
    {| Xadj := Some []; Adjncy := Some []; Vwgt := None; Adjwgt := None |} = Panic /\
  ~ (exists stats,
       PartitionExample.calculateDegreeStats
         {| Xadj := Some []; Adjncy := Some []; Vwgt := None; Adjwgt := None |}
       = Done stats).
Proof.
  split; [reflexivity|]. intros Hrun.
  apply (proj1 (calculateDegreeStats_returns_iff
                  {| Xadj := Some []; Adjncy := Some []; Vwgt := None; Adjwgt := None |}))
    in Hrun.
  cbn in Hrun. lia.
Defined.

(** ** What the reader puts into the adjacency array *)

Section ReadGraphAdjacency.

Context {R : Type} `{Scanner R}.
Variable Fields : string -> list string.
Variable Atoi : string -> Z * option error.

(** Without edge weights every field of the adjacency list is a vertex
    id, stored one less than it reads. *)
Lemma read_adjacency_unweighted (i fieldIdx : Z) (rest : list string) :
  forall j adjncy0 adjwgt0 adjncy1 adjwgt1,
    read_adjacency Atoi i false fieldIdx j rest adjncy0 adjwgt0 = inl (adjncy1, adjwgt1) ->
    adjncy1 = adjncy0 ++ map (fun f => int32 (int64 (fst (Atoi f) - 1))) rest /\
    adjwgt1 = adjwgt0.
Proof.
  induction rest as [|f rest IH]; intros j a0 w0 a1 w1 Hread.
  - cbn in Hread. injection Hread as <- <-. rewrite app_nil_r. split; reflexivity.
  - cbn [read_adjacency andb] in Hread.
    destruct (Atoi f) as [v [e|]] eqn:Hf; [discriminate|].
    apply IH in Hread. destruct Hread as [-> ->].
    cbn [map]. rewrite Hf. cbn [fst]. rewrite <- app_assoc. split; reflexivity.
Qed.

(** One pass of the vertex loop of a file without weights. *)
Lemma read_vertices_step_unweighted n i (st st' : reader_state) :
  read_vertices Fields Atoi (S n) i false false st = Done (inl st') ->
  exists st1,
    Scan (scanner st) = (true, scanner st1) /\
    read_vertices Fields Atoi n (i + 1) false false st1 = Done (inl st') /\
    adjncy st1
    = adjncy st ++ map (fun f => int32 (int64 (fst (Atoi f) - 1)))
                       (Fields (Text (scanner st1))).
Proof.
  simpl. destruct (Scan (scanner st)) as [more sc]. destruct more; [|discriminate].
  cbn [negb].
  destruct (Z.eqb_spec (Z.of_nat (length (Fields (Text sc)))) 0) as [Hblank|Hfields].
  - intros Hrest.
    exists {| scanner := sc; xadj := xadj st; adjncy := adjncy st;
              vwgt := vwgt st; adjwgt := adjwgt st |}.
    split; [reflexivity|]. split; [exact Hrest|]. cbn [adjncy scanner].
    destruct (Fields (Text sc)); [|cbn [length] in Hblank; lia].
    cbn [map]. rewrite app_nil_r. reflexivity.
  - cbn [mbind go_mbind go_bind]. change (Z.to_nat 0) with O. rewrite drop_0.
    destruct (read_adjacency Atoi i false 0 0 (Fields (Text sc)) (adjncy st) (adjwgt st))
      as [[adjncy' adjwgt']|e] eqn:Hadj; [|discriminate].
    intros Hrest. apply bind_Done in Hrest. destruct Hrest as (xadj' & _ & Hrest).
    apply read_adjacency_unweighted in Hadj. destruct Hadj as [-> ->].
    exists {| scanner := sc; xadj := xadj';
              adjncy := adjncy st ++ map (fun f => int32 (int64 (fst (Atoi f) - 1)))
                                         (Fields (Text sc));
              vwgt := vwgt st; adjwgt := adjwgt st |}.
    split; [reflexivity|]. split; [exact Hrest|reflexivity].
Qed.

(** The loop appends the converted fields of the lines it reads, line
    after line. *)
Lemma read_vertices_unweighted n : forall i (st st' : reader_state),
  read_vertices Fields Atoi n i false false st = Done (inl st') ->
  exists lines,
    length lines = n /\
    (forall j line, lines !! j = Some line ->
                    Text <$> scans (S j) (scanner st) = Some line) /\
    adjncy st'
    = adjncy st ++ concat (map (fun line =>
                                  map (fun f => int32 (int64 (fst (Atoi f) - 1)))
                                      (Fields line)) lines).
Proof.
  induction n as [|n IH]; intros i st st' Hloop.
  - simpl in Hloop. injection Hloop as <-. exists [].
    split; [reflexivity|]. split; [intros j line Hj; discriminate|].
    cbn. rewrite app_nil_r. reflexivity.
  - apply read_vertices_step_unweighted in Hloop.
    destruct Hloop as (st1 & Hscan & Hrest & Hadj).
    apply IH in Hrest. destruct Hrest as (lines & Hlen & Hlines & Hall).
    exists (Text (scanner st1) :: lines).
    split; [cbn [length]; lia|]. split.
    + intros [|j] line Hj.
      * injection Hj as <-. simpl. rewrite Hscan. reflexivity.
      * change (scans (S (S j)) (scanner st))
          with (let '(more, sc') := Scan (scanner st) in
                if more then scans (S j) sc' else None).
        rewrite Hscan. apply Hlines. exact Hj.
    + rewrite Hall, Hadj. cbn [map concat]. rewrite <- app_assoc. reflexivity.
Qed.

End ReadGraphAdjacency.

(** X30: a graph that [ReadGraphFile] returns without weights has as
    [Adjncy] the fields of the vertex lines, line after line and in their
    order, each parsed by [Atoi] and stored one less than it reads (the
    file counts vertices from 1, the graph from 0); blank lines add
    nothing. *)
Theorem ReadGraphFile_unweighted_adjacency :
  forall (R : Type) (sc : Scanner R)
         (Fields : string -> list string) (Atoi : string -> Z * option error),
    (forall s, is_int64 (fst (Atoi s))) ->
    forall (r : R) (g : Graph),
      ReadGraphFile Fields Atoi r = Done (Some g, None) ->
      Vwgt g = None -> Adjwgt g = None ->
      exists lines,
        Z.of_nat (length lines) = NumVertices g /\
        (forall i line, lines !! i = Some line -> vertex_line r i = Some line) /\
        Adjncy g
        = Some (concat (map (fun line =>
                               map (fun f => int32 (int64 (fst (Atoi f) - 1)))
                                   (Fields line)) lines)).
Proof.
  intros R sc Fields Atoi HAtoi r g Hread Hvw Haw.
  destruct (ReadGraphFile_success Fields Atoi HAtoi r g Hread)
    as (hd & h0 & hs & nvtxs & hv & he & st & Hscan & _ & _ & _ & Hn & Hloop & ->).
  cbn [Vwgt Adjwgt] in Hvw, Haw.
  destruct hv; [discriminate|]. destruct he; [discriminate|].
  pose proof (read_vertices_length Fields Atoi _ _ _ _ _ _ Hloop) as Hlen.
  cbn [xadj] in Hlen. rewrite length_insert, length_replicate in Hlen.
  apply read_vertices_unweighted in Hloop.
  destruct Hloop as (lines & Hcount & Hlines & Hadj).
  cbn [adjncy scanner app] in Hadj, Hlines.
  exists lines. unfold NumVertices. cbn [Xadj Adjncy len].
  split; [lia|]. split; [|rewrite Hadj; reflexivity].
  intros i line Hi. unfold vertex_line.
  change (scans (2 + i) r)
    with (let '(more, sc') := Scan r in if more then scans (S i) sc' else None).
  rewrite Hscan. apply Hlines. exact Hi.
Qed.

Lemma ReadGraphFile_unweighted_adjacency_witness :
  exists lines,
    GoLib.ReadGraphString path_file
    = Done (Some {| Xadj := Some [0; 1; 3; 4];
                    Adjncy := Some (concat (map (fun line =>
                                map (fun f => int32 (int64 (fst (GoLib.Atoi f) - 1)))
                                    (GoLib.Fields line)) lines));
                    Vwgt := None; Adjwgt := None |}, None) /\
    length lines = 3%nat.
Proof.
  assert (Hrun : GoLib.ReadGraphString path_file
                 = Done (Some {| Xadj := Some [0; 1; 3; 4]; Adjncy := Some [1; 0; 2; 1];
                                 Vwgt := None; Adjwgt := None |}, None))
    by (vm_compute; reflexivity).
  destruct (ReadGraphFile_unweighted_adjacency GoLib.LineScanner GoLib.line_scanner
              GoLib.Fields GoLib.Atoi GoLib_Atoi_int _ _ Hrun eq_refl eq_refl)
    as (lines & Hcount & _ & Hadj).
  exists lines. cbn [Adjncy] in Hadj. rewrite <- Hadj. split; [exact Hrun|].
  unfold NumVertices in Hcount. cbn in Hcount. lia.
Defined.
